(** * bbb-webrtc-sfu: session lifecycle core

    A shallow embedding of
    - [lib/audio/client-static-transceiver.js] (class ClientAudioStTransceiver),
    - the AudioSession class that owns such an endpoint,
    - [lib/video/VideoManager.js] (class VideoManager),
    followed by the properties established for them.

    Conventions.
    - A JavaScript value that may be [null]/[undefined] or a string is an
      [option string]; its truthiness is [Js.truthy].
    - An asynchronous call either resolves or rejects ([Promise]); code that
      awaits it observes the rejection as an exception, code that does not
      await it observes nothing. Methods are written in the [Async] monad:
      state passing with exceptions, [try_catch] for [try]/[catch].
    - Every object lives in a world that records what leaves it: calls to
      the media control server (MCS) and the bridge, frames sent to the
      client, pending timers, listeners registered on shared emitters.
    - An [async] method is run from its first statement to its last; what
      other code may do while it awaits is the business of the lifecycle
      queues (module VideoManager, the event loop).
    - Classes, helpers and constants the files require but do not define are
      parameters ([Class Env]) or, where a definition says so, modelled from
      the specification.
    - Logger calls are left out, except where evaluating their argument can
      throw. *)

From Stdlib Require Import ZArith Lia Ascii String List.
From stdpp Require Import base strings list gmap.

Local Open Scope string_scope.
Local Open Scope list_scope.

(** ** JavaScript values and the two regular expressions of the code *)

Module Js.

(** Truthiness of a value that is [null]/[undefined] or a string. *)
Definition truthy (v : option string) : bool :=
  match v with
  | Some s => negb (String.eqb s "")
  | None => false
  end.

(** Whether [s] begins with [p]. *)
Fixpoint startsWith (p s : string) : bool :=
  match p, s with
  | EmptyString, _ => true
  | String a p', String b s' => Ascii.eqb a b && startsWith p' s'
  | String _ _, EmptyString => false
  end.

(** A value interpolated in a template string. *)
Definition toString (v : option string) : string :=
  match v with Some s => s | None => "undefined" end.

(** [a === b] on such values. *)
Definition strict_eq (a b : option string) : bool := bool_decide (a = b).

Definition ascii_in (c : ascii) (lower upper : ascii) : bool :=
  Ascii.eqb c lower || Ascii.eqb c upper.

(** The run of underscores a string starts with (the [_*] of [/^v_*/]). *)
Fixpoint underscores (s : string) : string :=
  match s with
  | String c rest =>
      if Ascii.eqb c "_" then String c (underscores rest) else ""
  | EmptyString => ""
  end.

(** [userId.match(/^v_*/ig)]: [None] is JavaScript's [null]; otherwise the
    array of matches. The pattern is anchored at the start and consumes at
    least one character, so there is at most one match. *)
Definition match_v_underscores (userId : string) : option (list string) :=
  match userId with
  | String c rest =>
      if ascii_in c "v" "V" then Some [String c (underscores rest)] else None
  | EmptyString => None
  end.

(** Truthiness of the result of [String.prototype.match]: an array is
    truthy, [null] is not. *)
Definition truthy_match (r : option (list string)) : bool :=
  match r with Some _ => true | None => false end.

(** [stream.replace(/\|SIP/ig, '')]: every occurrence of the four
    characters, in either case, is removed, scanning left to right. *)
Fixpoint replace_SIP (s : string) : string :=
  match s with
  | EmptyString => ""
  | String c rest =>
      match rest with
      | String c1 (String c2 (String c3 rest')) =>
          if Ascii.eqb c "|" && ascii_in c1 "s" "S"
             && ascii_in c2 "i" "I" && ascii_in c3 "p" "P"
          then replace_SIP rest'
          else String c (replace_SIP rest)
      | _ => String c (replace_SIP rest)
      end
  end.

(** [s.includes(c)] for a single character [c]. *)
Fixpoint includes (c : ascii) (s : string) : bool :=
  match s with
  | EmptyString => false
  | String a rest => Ascii.eqb a c || includes c rest
  end.

End Js.

(** ** What an object can do to the outside *)

Module Runtime.

Record SfuError := { err_code : Z; err_message : string }.

(** What the runtime throws when a method is called on [null]. *)
Definition TypeError : SfuError := {| err_code := 0; err_message := "TypeError" |}.

(** Outcome of an asynchronous call. *)
Inductive Promise (A : Type) : Type :=
| Resolves (a : A)
| Rejects (e : SfuError).
Arguments Resolves {A} a.
Arguments Rejects {A} e.

Definition resolved {A} (p : Promise A) : bool :=
  match p with Resolves _ => true | Rejects _ => false end.

(** Options of [mcs.publish]. *)
Record PublishOptions := {
  descriptor : string;
  adapter : string;
  name : string;
  ignoreThresholds : bool;
  profiles_audio : string;
  mediaProfile : string;
  overrideRouterCodecs : bool;
  dedicatedRouter : bool;
  rtpHeaderExtensions : string;
}.

Inductive EventName := MEDIA_STATE | MEDIA_STATE_ICE.

(** Calls that reach the MCS or the softswitch bridge, in program order. *)
Inductive Call :=
| WaitForConnection
| Join (room type externalUserId : string) (autoLeave : bool)
| Publish (user : option string) (room type : string) (options : PublishOptions)
| BridgeStart (mediaId : option string)
| Consume (source sink : option string) (kind : string)
| Connect (source : option string) (sinks : list (option string)) (kind : string)
| OnEvent (event : EventName) (mediaId : option string)
| AddIceCandidate (mediaId : option string) (candidate : string)
| Unpublish (user mediaId : option string)
| BridgeStop.

(** Frames published on the client-facing channel by the audio classes. *)
Inductive Frame :=
| WebRTCAudioSuccess (connectionId success : string)
| WebRTCAudioError (connectionId : string) (code : Z) (reason : string)
| IceCandidate (connectionId candidate : string)
| Close (connectionId : string).

Inductive Watchdog := MediaFlow | MediaState.

Definition Watchdog_eqb (a b : Watchdog) : bool :=
  match a, b with
  | MediaFlow, MediaFlow | MediaState, MediaState => true
  | _, _ => false
  end.

Record Timer := { handle : nat; watchdog : Watchdog; duration : Z }.

Record World := {
  calls : list Call;
  frames : list Frame;
  emitted : list (nat * string);
  timers : list Timer;
  nextHandle : nat;
  mcsListeners : list nat;
  bbbListeners : list (string * nat);
}.

Definition emptyWorld : World :=
  {| calls := []; frames := []; emitted := []; timers := []; nextHandle := 0;
     mcsListeners := []; bbbListeners := [] |}.

Definition set_calls (f : list Call -> list Call) (w : World) : World :=
  {| calls := f (calls w); frames := frames w; emitted := emitted w;
     timers := timers w; nextHandle := nextHandle w;
     mcsListeners := mcsListeners w; bbbListeners := bbbListeners w |}.

Definition set_frames (f : list Frame -> list Frame) (w : World) : World :=
  {| calls := calls w; frames := f (frames w); emitted := emitted w;
     timers := timers w; nextHandle := nextHandle w;
     mcsListeners := mcsListeners w; bbbListeners := bbbListeners w |}.

Definition set_emitted (f : list (nat * string) -> list (nat * string))
    (w : World) : World :=
  {| calls := calls w; frames := frames w; emitted := f (emitted w);
     timers := timers w; nextHandle := nextHandle w;
     mcsListeners := mcsListeners w; bbbListeners := bbbListeners w |}.

Definition set_timers (f : list Timer -> list Timer) (w : World) : World :=
  {| calls := calls w; frames := frames w; emitted := emitted w;
     timers := f (timers w); nextHandle := nextHandle w;
     mcsListeners := mcsListeners w; bbbListeners := bbbListeners w |}.

Definition set_mcsListeners (f : list nat -> list nat) (w : World) : World :=
  {| calls := calls w; frames := frames w; emitted := emitted w;
     timers := timers w; nextHandle := nextHandle w;
     mcsListeners := f (mcsListeners w); bbbListeners := bbbListeners w |}.

Definition set_bbbListeners
    (f : list (string * nat) -> list (string * nat)) (w : World) : World :=
  {| calls := calls w; frames := frames w; emitted := emitted w;
     timers := timers w; nextHandle := nextHandle w;
     mcsListeners := mcsListeners w; bbbListeners := f (bbbListeners w) |}.

Definition call (c : Call) : World -> World := set_calls (fun l => l ++ [c]).

(** [sendToClient(frame, channel)]. *)
Definition sendToClient (f : Frame) : World -> World :=
  set_frames (fun l => l ++ [f]).

(** [setTimeout(callback, duration)]: a fresh handle, a new pending timer. *)
Definition setTimeout (k : Watchdog) (d : Z) (w : World) : nat * World :=
  let h := nextHandle w in
  (h, {| calls := calls w; frames := frames w; emitted := emitted w;
         timers := timers w ++ [{| handle := h; watchdog := k; duration := d |}];
         nextHandle := S h;
         mcsListeners := mcsListeners w; bbbListeners := bbbListeners w |}).

(** [clearTimeout(handle)]: the timer is no longer pending; nothing happens
    when it has fired already. *)
Definition clearTimeout (h : nat) : World -> World :=
  set_timers (List.filter (fun t => negb (Nat.eqb (handle t) h))).

(** [emitter.removeListener(event, listener)]: the most recently added
    registration of that listener is removed, if there is one. *)
Fixpoint remove_first {A} (eqb : A -> A -> bool) (x : A) (l : list A) : list A :=
  match l with
  | [] => []
  | y :: l' => if eqb x y then l' else y :: remove_first eqb x l'
  end.

Definition removeListener {A} (eqb : A -> A -> bool) (x : A) (l : list A)
  : list A :=
  rev (remove_first eqb x (rev l)).

(** How many times a listener is registered. *)
Definition registrations {A} (eqb : A -> A -> bool) (x : A) (l : list A) : nat :=
  length (List.filter (eqb x) l).

Definition bbb_eqb (a b : string * nat) : bool :=
  String.eqb (fst a) (fst b) && Nat.eqb (snd a) (snd b).

(** The asynchronous state monad the class methods are written in: a state
    [S] is threaded through, and a rejection skips the rest (an exception
    at an [await]) until a [try_catch]. *)
Definition Async (S A : Type) : Type := S -> S * Promise A.

Definition ret {S A} (a : A) : Async S A := fun s => (s, Resolves a).

Definition throw {S A} (e : SfuError) : Async S A := fun s => (s, Rejects e).

Definition bind {S A B} (m : Async S A) (k : A -> Async S B) : Async S B :=
  fun s =>
    match m s with
    | (s', Resolves a) => k a s'
    | (s', Rejects e) => (s', Rejects e)
    end.

Definition try_catch {S A} (m : Async S A) (h : SfuError -> Async S A)
  : Async S A :=
  fun s =>
    match m s with
    | (s', Resolves a) => (s', Resolves a)
    | (s', Rejects e) => h e s'
    end.

(** A synchronous state change. *)
Definition modify {S} (f : S -> S) : Async S unit := fun s => (f s, Resolves tt).

Definition gets {S A} (f : S -> A) : Async S A := fun s => (s, Resolves (f s)).

(** [await p] where [p] is the promise an outside call returned. *)
Definition await {S A} (p : Promise A) : Async S A := fun s => (s, p).

End Runtime.

Declare Scope async_scope.
Delimit Scope async_scope with async.
Notation "'let*' x ':=' m 'in' k" := (Runtime.bind m (fun x => k))
  (at level 10, x name, m at level 100, k at level 200) : async_scope.
Notation "'exec' m 'in' k" := (Runtime.bind m (fun _ => k))
  (at level 10, m at level 100, k at level 200) : async_scope.

(** ** ClientAudioStTransceiver (lib/audio/client-static-transceiver.js) *)

Module ClientAudioStTransceiver.
Import Runtime.
Local Open Scope async_scope.

Definition LOG_PREFIX : string := "[client-audio-static-transceiver]".

(** What the transceiver reads from its FSTransceiverBridge. *)
Record Bridge := { bridgeMediaId : option string }.

(** A registration on the transceiver's own emitter (a BaseProvider is an
    EventEmitter). The class registers nothing on itself; the registration
    the code base makes is the relay of the owning session
    ([AudioSession._trackClientEndpointEvents]), a handler that emits the
    event again on that session. [l_relay] is the identity of the session
    the handler emits on, [l_once] tells a registration made with [once]
    from one made with [on]. *)
Record Listener := { l_event : string; l_once : bool; l_relay : nat }.

(** The fields of [this]. [oid] is the identity of the object: it names the
    bound handler the constructor registers on the MCS emitter. [listeners]
    are the listeners registered on the transceiver's own emitter, in the
    order of their registration. *)
Record t := {
  oid : nat;
  meetingId : string;
  voiceBridge : string;
  userId : string;
  connectionId : string;
  callerId : string;
  mediaServer : string;
  transceiverBridge : option Bridge;
  mcsUserId : option string;
  mediaId : option string;
  _mediaFlowingTimeout : option nat;
  _mediaStateTimeout : option nat;
  _candidatesQueue : list string;
  listeners : list Listener;
}.

Definition set_transceiverBridge (b : option Bridge) (x : t) : t :=
  {| oid := oid x; meetingId := meetingId x; voiceBridge := voiceBridge x;
     userId := userId x; connectionId := connectionId x; callerId := callerId x;
     mediaServer := mediaServer x; transceiverBridge := b;
     mcsUserId := mcsUserId x; mediaId := mediaId x;
     _mediaFlowingTimeout := _mediaFlowingTimeout x;
     _mediaStateTimeout := _mediaStateTimeout x;
     _candidatesQueue := _candidatesQueue x; listeners := listeners x |}.

Definition set_mcsUserId (v : option string) (x : t) : t :=
  {| oid := oid x; meetingId := meetingId x; voiceBridge := voiceBridge x;
     userId := userId x; connectionId := connectionId x; callerId := callerId x;
     mediaServer := mediaServer x; transceiverBridge := transceiverBridge x;
     mcsUserId := v; mediaId := mediaId x;
     _mediaFlowingTimeout := _mediaFlowingTimeout x;
     _mediaStateTimeout := _mediaStateTimeout x;
     _candidatesQueue := _candidatesQueue x; listeners := listeners x |}.

Definition set_mediaId (v : option string) (x : t) : t :=
  {| oid := oid x; meetingId := meetingId x; voiceBridge := voiceBridge x;
     userId := userId x; connectionId := connectionId x; callerId := callerId x;
     mediaServer := mediaServer x; transceiverBridge := transceiverBridge x;
     mcsUserId := mcsUserId x; mediaId := v;
     _mediaFlowingTimeout := _mediaFlowingTimeout x;
     _mediaStateTimeout := _mediaStateTimeout x;
     _candidatesQueue := _candidatesQueue x; listeners := listeners x |}.

Definition set__mediaFlowingTimeout (v : option nat) (x : t) : t :=
  {| oid := oid x; meetingId := meetingId x; voiceBridge := voiceBridge x;
     userId := userId x; connectionId := connectionId x; callerId := callerId x;
     mediaServer := mediaServer x; transceiverBridge := transceiverBridge x;
     mcsUserId := mcsUserId x; mediaId := mediaId x;
     _mediaFlowingTimeout := v;
     _mediaStateTimeout := _mediaStateTimeout x;
     _candidatesQueue := _candidatesQueue x; listeners := listeners x |}.

Definition set__mediaStateTimeout (v : option nat) (x : t) : t :=
  {| oid := oid x; meetingId := meetingId x; voiceBridge := voiceBridge x;
     userId := userId x; connectionId := connectionId x; callerId := callerId x;
     mediaServer := mediaServer x; transceiverBridge := transceiverBridge x;
     mcsUserId := mcsUserId x; mediaId := mediaId x;
     _mediaFlowingTimeout := _mediaFlowingTimeout x;
     _mediaStateTimeout := v;
     _candidatesQueue := _candidatesQueue x; listeners := listeners x |}.

Definition set__candidatesQueue (v : list string) (x : t) : t :=
  {| oid := oid x; meetingId := meetingId x; voiceBridge := voiceBridge x;
     userId := userId x; connectionId := connectionId x; callerId := callerId x;
     mediaServer := mediaServer x; transceiverBridge := transceiverBridge x;
     mcsUserId := mcsUserId x; mediaId := mediaId x;
     _mediaFlowingTimeout := _mediaFlowingTimeout x;
     _mediaStateTimeout := _mediaStateTimeout x;
     _candidatesQueue := v; listeners := listeners x |}.

Definition set_listeners (v : list Listener) (x : t) : t :=
  {| oid := oid x; meetingId := meetingId x; voiceBridge := voiceBridge x;
     userId := userId x; connectionId := connectionId x; callerId := callerId x;
     mediaServer := mediaServer x; transceiverBridge := transceiverBridge x;
     mcsUserId := mcsUserId x; mediaId := mediaId x;
     _mediaFlowingTimeout := _mediaFlowingTimeout x;
     _mediaStateTimeout := _mediaStateTimeout x;
     _candidatesQueue := _candidatesQueue x; listeners := v |}.

(** An event the MCS delivers to a [MEDIA_STATE] subscriber. *)
Record MediaEvent := {
  ev_mediaId : option string;
  ev_name : string;
  ev_details : string;
}.

(** The collaborators the file requires but does not define: the MCS
    gateway (each method answers with the promise it returns), the
    FSTransceiverBridge ([bridge_start] resolves to the bridge media id the
    bridge holds once started), the helpers inherited from BaseProvider, the
    configuration and the constants. *)
Class Env := {
  mcs_waitForConnection : Promise bool;
  mcs_join : string -> string -> string -> bool -> Promise (option string);
  mcs_publish :
    option string -> string -> string -> PublishOptions -> Promise (option string);
  mcs_consume : option string -> option string -> string -> Promise string;
  mcs_connect : option string -> list (option string) -> string -> Promise unit;
  mcs_addIceCandidate : option string -> string -> Promise unit;
  mcs_unpublish : option string -> option string -> Promise unit;
  bridge_start : option string -> Promise (option string);
  _handleError : string -> SfuError -> string -> string -> SfuError;
  _assembleStreamName : string -> string -> string -> string;
  MEDIA_FLOW_TIMEOUT_DURATION : Z;
  MEDIA_STATE_TIMEOUT_DURATION : Z;
  AUDIO_RTP_HDR_EXTS : string;
  C_WEBRTC : string;
  C_MEDIA_SERVER_OFFLINE : string;
  errors_MEDIA_SERVER_OFFLINE : SfuError;
  errors_2211 : string;
}.

Section Methods.
Context `{Env}.

(** An awaited call: it is recorded, then its promise is awaited. *)
Definition awaited {A} (c : Call) (p : Promise A) : Async (t * World) A :=
  fun s => ((fst s, call c (snd s)), p).

(** A call whose result is dropped. *)
Definition fired (c : Call) : Async (t * World) unit :=
  fun s => ((fst s, call c (snd s)), Resolves tt).

Definition this : Async (t * World) t := gets fst.

Definition update (f : t -> t) : Async (t * World) unit :=
  modify (fun s => (f (fst s), snd s)).

(** [constructor]: the fields are initialised and the bound
    [handleMCSCoreDisconnection] is registered on the MCS emitter. *)
Definition new (oid : nat)
    (meetingId voiceBridge userId connectionId callerId mediaServer : string)
    (w : World) : t * World :=
  ({| oid := oid; meetingId := meetingId; voiceBridge := voiceBridge;
      userId := userId; connectionId := connectionId; callerId := callerId;
      mediaServer := mediaServer;
      transceiverBridge := Some {| bridgeMediaId := None |};
      mcsUserId := None; mediaId := None;
      _mediaFlowingTimeout := None; _mediaStateTimeout := None;
      _candidatesQueue := []; listeners := [] |},
   set_mcsListeners (fun l => l ++ [oid]) w).

Definition _untrackMCSEvents (s : t * World) : t * World :=
  (fst s, set_mcsListeners (removeListener Nat.eqb (oid (fst s))) (snd s)).

(** *** ICE handlers *)

(** Modelled from the spec: BaseProvider.flushCandidatesQueue(broker,
    queue, mediaId) is not in src. The spec (4.3) has the queue drained in
    FIFO order into [mcs.addIceCandidate]; nothing is awaited. *)
Definition flushCandidatesQueue (queue : list string)
    (mediaId : option string) (w : World) : World :=
  fold_left (fun w c => call (AddIceCandidate mediaId c) w) queue w.

(** [_flushCandidatesQueue]: the helper gets a copy of the queue, then the
    field is replaced by a new empty array. An array is always truthy, so
    the inner test is not modelled. *)
Definition _flushCandidatesQueue (s : t * World) : t * World :=
  if Js.truthy (mediaId (fst s)) then
    (set__candidatesQueue [] (fst s),
     flushCandidatesQueue (_candidatesQueue (fst s)) (mediaId (fst s)) (snd s))
  else s.

Definition onIceCandidate (_candidate : string) (s : t * World) : t * World :=
  if Js.truthy (mediaId (fst s)) then
    let s' := _flushCandidatesQueue s in
    (fst s', call (AddIceCandidate (mediaId (fst s')) _candidate) (snd s'))
  else
    (set__candidatesQueue (_candidatesQueue (fst s) ++ [_candidate]) (fst s),
     snd s).

(** *** Media timeout handlers

    [_getFullLogMetadata] reads [this.transceiverBridge.bridgeMediaStatus]:
    it throws once the bridge slot is [null]. Logger calls are left out,
    but every place where their argument evaluates this method keeps it. *)

Definition _getFullLogMetadata : Async (t * World) unit :=
  fun s =>
    match transceiverBridge (fst s) with
    | Some _ => (s, Resolves tt)
    | None => (s, Rejects TypeError)
    end.

(** A method that cannot throw, as a step of the monad. *)
Definition step (f : t * World -> t * World) : Async (t * World) unit :=
  modify f.

(** What the caller of an event handler or timer callback is left with:
    the state reached when the handler returned or threw. *)
Definition deliver (m : Async (t * World) unit) (s : t * World) : t * World :=
  fst (m s).

Definition clearMediaFlowingTimeout (s : t * World) : t * World :=
  match _mediaFlowingTimeout (fst s) with
  | Some h => (set__mediaFlowingTimeout None (fst s), clearTimeout h (snd s))
  | None => s
  end.

Definition setMediaFlowingTimeout : Async (t * World) unit :=
  let* x := this in
  match _mediaFlowingTimeout x with
  | Some _ => ret tt
  | None =>
      exec _getFullLogMetadata in
      step (fun s =>
        let (h, w) := setTimeout MediaFlow MEDIA_FLOW_TIMEOUT_DURATION (snd s) in
        (set__mediaFlowingTimeout (Some h) (fst s), w))
  end.

Definition clearMediaStateTimeout (s : t * World) : t * World :=
  match _mediaStateTimeout (fst s) with
  | Some h => (set__mediaStateTimeout None (fst s), clearTimeout h (snd s))
  | None => s
  end.

Definition setMediaStateTimeout : Async (t * World) unit :=
  let* x := this in
  match _mediaStateTimeout x with
  | Some _ => ret tt
  | None =>
      exec _getFullLogMetadata in
      step (fun s =>
        let (h, w) := setTimeout MediaState MEDIA_STATE_TIMEOUT_DURATION (snd s) in
        (set__mediaStateTimeout (Some h) (fst s), w))
  end.

Definition send (f : string -> Frame) : Async (t * World) unit :=
  step (fun s => (fst s, sendToClient (f (connectionId (fst s))) (snd s))).

Definition _onSubscriberMediaFlowing : Async (t * World) unit :=
  exec _getFullLogMetadata in
  exec step clearMediaFlowingTimeout in
  send (fun c => WebRTCAudioSuccess c "MEDIA_FLOWING").

Definition _onSubscriberMediaNotFlowing : Async (t * World) unit :=
  exec _getFullLogMetadata in
  setMediaFlowingTimeout.

Definition _onSubscriberMediaNotFlowingTimeout : Async (t * World) unit :=
  exec _getFullLogMetadata in
  send (fun c => WebRTCAudioError c 2211 errors_2211).

Definition _onSubscriberMediaConnected : Async (t * World) unit :=
  exec _getFullLogMetadata in
  step clearMediaStateTimeout.

Definition _onSubscriberMediaDisconnected : Async (t * World) unit :=
  exec _getFullLogMetadata in
  setMediaStateTimeout.

Definition _onSubscriberMediaDisconnectedTimeout : Async (t * World) unit :=
  exec _getFullLogMetadata in
  send (fun c => WebRTCAudioError c 2211 errors_2211).

(** A pending timer expires: it stops being pending and its callback
    runs. The field that holds its handle is left as it is. *)
Definition timerExpires (h : nat) (s : t * World) : t * World :=
  match List.find (fun x => Nat.eqb (handle x) h) (timers (snd s)) with
  | Some x =>
      let s' := (fst s, clearTimeout h (snd s)) in
      match watchdog x with
      | MediaFlow => deliver _onSubscriberMediaNotFlowingTimeout s'
      | MediaState => deliver _onSubscriberMediaDisconnectedTimeout s'
      end
  | None => s
  end.

(** *** Media state handlers *)

(** [this.emit(name, event)], as Node's EventEmitter does it: the handlers
    registered for [name] are called in the order of their registration,
    and a handler registered with [once] is removed before it is called.
    The emission is recorded, then the emission each relay called makes on
    its session; the listeners of the session are registered by its
    manager, which is not in src. *)
Definition emit (name : string) (s : t * World) : t * World :=
  let registered := listeners (fst s) in
  let called :=
    List.filter (fun l => String.eqb (l_event l) name) registered in
  (set_listeners
     (List.filter
        (fun l => negb (String.eqb (l_event l) name && l_once l)) registered)
     (fst s),
   set_emitted
     (fun log =>
        log ++ (oid (fst s), name) :: map (fun l => (l_relay l, name)) called)
     (snd s)).

Definition _onMCSIceCandidate (eventMediaId : option string)
    (candidate : string) (targetMediaId : option string)
  : Async (t * World) unit :=
  if negb (Js.strict_eq eventMediaId targetMediaId) then ret tt
  else send (fun c => IceCandidate c candidate).

Definition _handleMediaStateChanged (details : string)
  : Async (t * World) unit :=
  if String.eqb details "CONNECTED" then _onSubscriberMediaConnected
  else if String.eqb details "DISCONNECTED" then _onSubscriberMediaDisconnected
  else ret tt.

Definition _mediaStateWebRTC (event : MediaEvent)
    (targetMediaId : option string) : Async (t * World) unit :=
  exec _getFullLogMetadata in
  if negb (Js.strict_eq (ev_mediaId event) targetMediaId) then ret tt
  else if String.eqb (ev_name event) "MediaStateChanged" then
    _handleMediaStateChanged (ev_details event)
  else if String.eqb (ev_name event) "MediaFlowOutStateChange"
          || String.eqb (ev_name event) "MediaFlowInStateChange" then
    if String.eqb (ev_details event) "FLOWING"
    then _onSubscriberMediaFlowing
    else _onSubscriberMediaNotFlowing
  else if String.eqb (ev_name event) C_MEDIA_SERVER_OFFLINE then
    step (emit C_MEDIA_SERVER_OFFLINE)
  else ret tt.

(** *** Start *)

Definition publishOptions (sdp : string) (x : t) : PublishOptions :=
  {| descriptor := sdp;
     adapter := mediaServer x;
     name := _assembleStreamName "publish" (userId x) (meetingId x);
     ignoreThresholds := true;
     profiles_audio := "sendrecv";
     mediaProfile := "audio";
     overrideRouterCodecs := true;
     dedicatedRouter := true;
     rtpHeaderExtensions := AUDIO_RTP_HDR_EXTS |}.

(** [await this.transceiverBridge.start(this.mediaId)]; afterwards the
    bridge holds the media id [bridge_start] resolved to. *)
Definition transceiverBridge_start : Async (t * World) unit :=
  let* x := this in
  match transceiverBridge x with
  | None => throw TypeError
  | Some _ =>
      let* b := awaited (BridgeStart (mediaId x)) (bridge_start (mediaId x)) in
      update (set_transceiverBridge (Some {| bridgeMediaId := b |}))
  end.

(** [this.transceiverBridge.bridgeMediaId]. *)
Definition transceiverBridge_bridgeMediaId : Async (t * World) (option string) :=
  let* x := this in
  match transceiverBridge x with
  | None => throw TypeError
  | Some b => ret (bridgeMediaId b)
  end.

Definition _negotiateTransceiver (sdpOffer : string) : Async (t * World) string :=
  let* x := this in
  let options := publishOptions sdpOffer x in
  let* r :=
    try_catch
      (let* x := this in
       let* published :=
         awaited (Publish (mcsUserId x) (voiceBridge x) C_WEBRTC options)
           (mcs_publish (mcsUserId x) (voiceBridge x) C_WEBRTC options) in
       exec update (set_mediaId published) in
       exec transceiverBridge_start in
       let* b := transceiverBridge_bridgeMediaId in
       let* x := this in
       let* answer :=
         awaited (Consume b (mediaId x) "AUDIO")
           (mcs_consume b (mediaId x) "AUDIO") in
       let* x := this in
       let* b1 := transceiverBridge_bridgeMediaId in
       exec fired (Connect (mediaId x) [b1] "AUDIO") in
       let* b2 := transceiverBridge_bridgeMediaId in
       let* x := this in
       exec fired (Connect b2 [mediaId x] "AUDIO") in
       ret (published, answer))
      (fun error =>
         exec _getFullLogMetadata in
         let* x := this in
         throw (_handleError LOG_PREFIX error "sendrecv" (connectionId x))) in
  exec fired (OnEvent MEDIA_STATE (fst r)) in
  exec fired (OnEvent MEDIA_STATE_ICE (fst r)) in
  exec step _flushCandidatesQueue in
  exec _getFullLogMetadata in
  ret (snd r).

Definition start (sdpOffer : string) : Async (t * World) string :=
  let* isConnected := awaited WaitForConnection mcs_waitForConnection in
  if negb isConnected then
    let* x := this in
    throw (_handleError LOG_PREFIX errors_MEDIA_SERVER_OFFLINE "sendrecv" (userId x))
  else
    exec
      try_catch
        (let* x := this in
         let* u :=
           awaited (Join (voiceBridge x) "SFU" (userId x) true)
             (mcs_join (voiceBridge x) "SFU" (userId x) true) in
         update (set_mcsUserId u))
        (fun error =>
           let* x := this in
           let normalizedError :=
             _handleError LOG_PREFIX error "sendrecv" (userId x) in
           exec _getFullLogMetadata in
           throw normalizedError) in
    try_catch
      (_negotiateTransceiver sdpOffer)
      (fun error =>
         let* x := this in
         let normalizedError :=
           _handleError LOG_PREFIX error "sendrecv" (userId x) in
         exec _getFullLogMetadata in
         throw normalizedError).

(** *** Stop *)

Definition finalDetachEventListeners (s : t * World) : t * World :=
  let s' := _untrackMCSEvents s in
  (set_listeners [] (fst s'), snd s').

(** [stop]. Setting [transceiverBridge] to [null] goes through the setter,
    which detaches the listeners of the bridge it replaces; the bridge's
    own listeners are outside this model. *)
Definition stop : Async (t * World) unit :=
  exec update (set__candidatesQueue []) in
  exec step clearMediaFlowingTimeout in
  exec step clearMediaStateTimeout in
  exec step _untrackMCSEvents in
  let* x := this in
  exec
    (if Js.truthy (mediaId x) && Js.truthy (mcsUserId x) then
       try_catch
         (exec awaited (Unpublish (mcsUserId x) (mediaId x))
                 (mcs_unpublish (mcsUserId x) (mediaId x)) in
          _getFullLogMetadata)
         (fun error => _getFullLogMetadata)
     else ret tt) in
  let* x := this in
  match transceiverBridge x with
  | Some _ =>
      exec fired BridgeStop in
      update (set_transceiverBridge None)
  | None => ret tt
  end.

(** *** The life of an endpoint

    What can happen to an endpoint, one event after the other: a
    candidate arrives from the client, the MCS delivers a media event to
    the listener subscribed for [target], a pending timer expires, the
    owner starts or stops the endpoint. *)
Inductive Event :=
| CandidateArrives (candidate : string)
| MediaStateEvent (event : MediaEvent) (target : option string)
| TimerExpires (h : nat)
| Start (sdpOffer : string)
| Stop.

Definition occur (e : Event) (s : t * World) : t * World :=
  match e with
  | CandidateArrives c => onIceCandidate c s
  | MediaStateEvent event target => deliver (_mediaStateWebRTC event target) s
  | TimerExpires h => timerExpires h s
  | Start sdpOffer => fst (start sdpOffer s)
  | Stop => fst (stop s)
  end.

Definition life (events : list Event) (s : t * World) : t * World :=
  fold_left (fun s e => occur e s) events s.

(** The pending timers of one watchdog. *)
Definition armed (k : Watchdog) (w : World) : list Timer :=
  List.filter (fun x => Watchdog_eqb (watchdog x) k) (timers w).

(** A watchdog is in order when the timers pending for it are at most the
    one whose handle its field holds. *)
Definition watchdog_ok (k : Watchdog) (field : option nat) (w : World) : Prop :=
  match field with
  | None => armed k w = []
  | Some h =>
      armed k w = []
      \/ exists d, armed k w = [{| handle := h; watchdog := k; duration := d |}]
  end.

Definition watchdogs_ok (s : t * World) : Prop :=
  watchdog_ok MediaFlow (_mediaFlowingTimeout (fst s)) (snd s)
  /\ watchdog_ok MediaState (_mediaStateTimeout (fst s)) (snd s)
  /\ (transceiverBridge (fst s) = None ->
      _mediaFlowingTimeout (fst s) = None /\ _mediaStateTimeout (fst s) = None).

(** Two states that agree on what the watchdogs depend on. *)
Definition same_watchdogs (s s' : t * World) : Prop :=
  _mediaFlowingTimeout (fst s') = _mediaFlowingTimeout (fst s)
  /\ _mediaStateTimeout (fst s') = _mediaStateTimeout (fst s)
  /\ timers (snd s') = timers (snd s)
  /\ (transceiverBridge (fst s') = None <-> transceiverBridge (fst s) = None).

(** Two states with the same watchdog fields and the same pending
    timers. *)
Definition same_timers (s s' : t * World) : Prop :=
  _mediaFlowingTimeout (fst s') = _mediaFlowingTimeout (fst s)
  /\ _mediaStateTimeout (fst s') = _mediaStateTimeout (fst s)
  /\ timers (snd s') = timers (snd s).


(** Two states with the same registrations on the shared emitters, the
    second of which has its bridge if the first has. *)
Definition same_listeners (s s' : t * World) : Prop :=
  mcsListeners (snd s') = mcsListeners (snd s)
  /\ bbbListeners (snd s') = bbbListeners (snd s)
  /\ (transceiverBridge (fst s') = None -> transceiverBridge (fst s) = None).

(** A computation all of whose steps relate the state before to the
    state after. *)
Definition keeps (R : relation (t * World)) {A}
    (m : Async (t * World) A) : Prop :=
  forall s, R s (fst (m s)).

(** A computation that keeps the watchdogs in order. *)
Definition preserves {A} (m : Async (t * World) A) : Prop :=
  forall s, watchdogs_ok s -> watchdogs_ok (fst (m s)).

(** Whether the promise of a call settles to a rejection. *)
Definition fails (c : Call) : bool :=
  match c with
  | WaitForConnection => negb (resolved mcs_waitForConnection)
  | Join r ty u a => negb (resolved (mcs_join r ty u a))
  | Publish u r ty o => negb (resolved (mcs_publish u r ty o))
  | BridgeStart m => negb (resolved (bridge_start m))
  | Consume a b k => negb (resolved (mcs_consume a b k))
  | Connect a b k => negb (resolved (mcs_connect a b k))
  | AddIceCandidate m c => negb (resolved (mcs_addIceCandidate m c))
  | Unpublish u m => negb (resolved (mcs_unpublish u m))
  | OnEvent _ _ | BridgeStop => false
  end.

(** The reading of "any failure before the return propagates to the
    caller": when a call made by [start] fails, [start] rejects. *)
Definition failures_propagate (sdpOffer : string) (s : t * World) : Prop :=
  forall c,
    In c (drop (length (calls (snd s))) (calls (snd (fst (start sdpOffer s))))) ->
    fails c = true ->
    resolved (snd (start sdpOffer s)) = false.

(** The calls of a start that goes through, up to the subscriptions, when
    [join] resolved to [u], [publish] to [m] and [bridge.start] to [b]. *)
Definition negotiation (x : t) (sdpOffer : string)
    (u m b : option string) : list Call :=
  [ WaitForConnection;
    Join (voiceBridge x) "SFU" (userId x) true;
    Publish u (voiceBridge x) C_WEBRTC (publishOptions sdpOffer x);
    BridgeStart m;
    Consume b m "AUDIO";
    Connect m [b] "AUDIO";
    Connect b [m] "AUDIO";
    OnEvent MEDIA_STATE m;
    OnEvent MEDIA_STATE_ICE m ].

(** The calls [start] adds to the world. *)
Definition callsOfStart (sdpOffer : string) (s : t * World) : list Call :=
  drop (length (calls (snd s))) (calls (snd (fst (start sdpOffer s)))).

(** *** Answers *)

(** [processAnswer]: the promise of [mcs.publish] when the endpoint has a
    media id, a promise resolved with [undefined] ([None]) otherwise. The
    method is not [async] and awaits nothing: the caller gets the promise. *)
Definition processAnswer (answer : string)
  : Async (t * World) (option (option string)) :=
  let* x := this in
  if Js.truthy (mediaId x) then
    let options := publishOptions answer x in
    let* r :=
      awaited (Publish (mcsUserId x) (voiceBridge x) C_WEBRTC options)
        (mcs_publish (mcsUserId x) (voiceBridge x) C_WEBRTC options) in
    ret (Some r)
  else ret None.

(** *** Reading what an event did *)

(** A part of the state that a step leaves as it was. *)
Definition unchanged {B} (f : t * World -> B) : relation (t * World) :=
  fun s s' => f s' = f s.

(** The call log only grows, and by calls of the kind [P] only. *)
Definition calling (P : Call -> bool) : relation (t * World) :=
  fun s s' =>
    exists made, calls (snd s') = calls (snd s) ++ made /\ forallb P made = true.

Definition isAddIceCandidate (c : Call) : bool :=
  match c with AddIceCandidate _ _ => true | _ => false end.

Definition isRelease (c : Call) : bool :=
  match c with Unpublish _ _ | BridgeStop => true | _ => false end.

(** The calls an event is entitled to: a candidate is forwarded with
    [addIceCandidate] and nothing else; media events and expired timers
    call nothing; [start] neither unpublishes nor stops the bridge; [stop]
    does nothing else. *)
Definition entitled (e : Event) (c : Call) : bool :=
  match e with
  | CandidateArrives _ => isAddIceCandidate c
  | MediaStateEvent _ _ | TimerExpires _ => false
  | Start _ => negb (isRelease c)
  | Stop => isRelease c
  end.

(** What the client and the timers see of an endpoint, and the fields the
    constructor sets for good. *)
Definition outward (s : t * World) :=
  (frames (snd s), emitted (snd s), timers (snd s), nextHandle (snd s)).

Definition constructorFields (s : t * World) :=
  (oid (fst s), meetingId (fst s), voiceBridge (fst s), userId (fst s),
   connectionId (fst s), callerId (fst s), mediaServer (fst s),
   listeners (fst s)).

(** What the constructor's arguments say of the endpoint. *)
Definition identity (s : t * World) :=
  (oid (fst s), meetingId (fst s), voiceBridge (fst s), userId (fst s),
   connectionId (fst s), callerId (fst s), mediaServer (fst s)).

(** What a media event or a timer cannot touch: the call log, the
    negotiation state, the pending candidates, the shared emitters. *)
Definition negotiated (s : t * World) :=
  (calls (snd s), mcsListeners (snd s), bbbListeners (snd s),
   mediaId (fst s), mcsUserId (fst s), transceiverBridge (fst s),
   _candidatesQueue (fst s)).

(** Every pending timer has a handle [setTimeout] has given out. *)
Definition handles_given (w : World) : Prop :=
  Forall (fun x => handle x < nextHandle w) (timers w).

End Methods.
End ClientAudioStTransceiver.

(** ** AudioSession (second class of lib/audio/client-static-transceiver.js) *)

Module AudioSession.
Import Runtime.
Local Open Scope async_scope.

Module Endpoint := ClientAudioStTransceiver.

(** The fields of [this]. The endpoint slot holds a transceiver: the
    consumer endpoint built by [listen] (ClientAudioConsumer, with the
    consumer bridge storage) is not in src, so [listen] is a parameter of
    [start]. *)
Record t := {
  oid : nat;
  id : string;
  meetingId : string;
  voiceBridge : string;
  userId : string;
  connectionId : string;
  callerId : string;
  role : string;
  mediaServer : string;
  _clientEndpoint : option Endpoint.t;
  listeners : list string;
}.

Definition set__clientEndpoint (e : option Endpoint.t) (x : t) : t :=
  {| oid := oid x; id := id x; meetingId := meetingId x;
     voiceBridge := voiceBridge x; userId := userId x;
     connectionId := connectionId x; callerId := callerId x; role := role x;
     mediaServer := mediaServer x; _clientEndpoint := e;
     listeners := listeners x |}.

Definition set_listeners (l : list string) (x : t) : t :=
  {| oid := oid x; id := id x; meetingId := meetingId x;
     voiceBridge := voiceBridge x; userId := userId x;
     connectionId := connectionId x; callerId := callerId x; role := role x;
     mediaServer := mediaServer x; _clientEndpoint := _clientEndpoint x;
     listeners := l |}.

(** Configuration and constants read by the class. *)
Class Config := {
  EJECT_ON_USER_LEFT : bool;
  FULLAUDIO_ENABLED : bool;
  C_USER_LEFT_MEETING_2x : string;
  SFU_INVALID_REQUEST : SfuError;
}.

Section Methods.
Context `{Endpoint.Env} `{Config}.

(** A method of the endpoint run on the endpoint in the slot; calling it
    on an empty slot throws. *)
Definition onEndpoint {A} (m : Async (Endpoint.t * World) A)
  : Async (t * World) A :=
  fun s =>
    match _clientEndpoint (fst s) with
    | Some e =>
        let r := m (e, snd s) in
        ((set__clientEndpoint (Some (fst (fst r))) (fst s), snd (fst r)), snd r)
    | None => (s, Rejects TypeError)
    end.

Definition userLeftEvent (x : t) : string * nat :=
  (String.append C_USER_LEFT_MEETING_2x (userId x), oid x).

Definition _trackMeetingEvents (s : t * World) : t * World :=
  if EJECT_ON_USER_LEFT then
    (fst s, set_bbbListeners (fun l => l ++ [userLeftEvent (fst s)]) (snd s))
  else s.

Definition new (oid : nat)
    (sessionId meetingId voiceBridge userId connectionId callerId role
       mediaServer : string) (w : World) : t * World :=
  let x := {| oid := oid; id := sessionId; meetingId := meetingId;
              voiceBridge := voiceBridge; userId := userId;
              connectionId := connectionId; callerId := callerId;
              role := role; mediaServer := mediaServer;
              _clientEndpoint := None; listeners := [] |} in
  let s := _trackMeetingEvents (x, w) in
  (fst s, set_mcsListeners (fun l => l ++ [oid]) (snd s)).

Definition _clearClientEndpointEvents (s : t * World) : t * World :=
  match _clientEndpoint (fst s) with
  | Some e =>
      let r := Endpoint.finalDetachEventListeners (e, snd s) in
      (set__clientEndpoint (Some (fst r)) (fst s), snd r)
  | None => s
  end.

(** [set clientEndpoint (endpoint)]. *)
Definition clientEndpoint_set (endpoint : option Endpoint.t) (s : t * World)
  : t * World :=
  let s' :=
    match endpoint, _clientEndpoint (fst s) with
    | None, Some _ => _clearClientEndpointEvents s
    | _, _ => s
    end in
  (set__clientEndpoint endpoint (fst s'), snd s').

(** The handler [_trackClientEndpointEvents] registers on the endpoint,
    with [once]: it emits the event again on the session. *)
Definition relay (x : t) : Endpoint.Listener :=
  {| Endpoint.l_event := Endpoint.C_MEDIA_SERVER_OFFLINE;
     Endpoint.l_once := true;
     Endpoint.l_relay := oid x |}.

Definition _trackClientEndpointEvents (s : t * World) : t * World :=
  match _clientEndpoint (fst s) with
  | Some e =>
      (set__clientEndpoint
         (Some (Endpoint.set_listeners (Endpoint.listeners e ++ [relay (fst s)]) e))
         (fst s), snd s)
  | None => s
  end.

Definition _untrackMeetingEvents (s : t * World) : t * World :=
  (fst s,
   set_bbbListeners (removeListener bbb_eqb (userLeftEvent (fst s))) (snd s)).

Definition _untrackMCSEvents (s : t * World) : t * World :=
  (fst s, set_mcsListeners (removeListener Nat.eqb (oid (fst s))) (snd s)).

(** *** ICE handlers *)

Definition onIceCandidate (candidate : string) (s : t * World) : t * World :=
  match _clientEndpoint (fst s) with
  | Some e =>
      let r := Endpoint.onIceCandidate candidate (e, snd s) in
      (set__clientEndpoint (Some (fst r)) (fst s), snd r)
  | None => s
  end.

Definition _flushCandidatesQueue (s : t * World) : t * World :=
  match _clientEndpoint (fst s) with
  | Some e =>
      let r := Endpoint._flushCandidatesQueue (e, snd s) in
      (set__clientEndpoint (Some (fst r)) (fst s), snd r)
  | None => s
  end.

(** *** Start *)

(** [transceive]; [endpointOid] is the identity of the endpoint it
    constructs. *)
Definition transceive (endpointOid : nat) (sdpOffer : string)
  : Async (t * World) string :=
  if negb FULLAUDIO_ENABLED then throw SFU_INVALID_REQUEST
  else
    exec modify (fun s =>
           let r := Endpoint.new endpointOid (meetingId (fst s))
                      (voiceBridge (fst s)) (userId (fst s))
                      (connectionId (fst s)) (callerId (fst s))
                      (mediaServer (fst s)) (snd s) in
           clientEndpoint_set (Some (fst r)) (fst s, snd r)) in
    onEndpoint (Endpoint.start sdpOffer).

(** *** Stop *)

Definition finalDetachEventListeners (s : t * World) : t * World :=
  let s := _clearClientEndpointEvents s in
  let s := _untrackMeetingEvents s in
  let s := _untrackMCSEvents s in
  (set_listeners [] (fst s), snd s).

(** [stop]. [typeof this.clientEndpoint.stop] is a non-empty string, so
    the test is the test of the slot alone. *)
Definition stop : Async (t * World) unit :=
  exec modify _clearClientEndpointEvents in
  exec modify _untrackMeetingEvents in
  exec modify _untrackMCSEvents in
  let* x := gets fst in
  exec
    (match _clientEndpoint x with
     | Some _ => onEndpoint Endpoint.stop
     | None => ret tt
     end) in
  modify (clientEndpoint_set None).

(** [disconnectUser]: the frame is sent in the [finally] block. *)
Definition disconnectUser : Async (t * World) unit :=
  exec try_catch stop (fun error => ret tt) in
  modify (fun s => (fst s, sendToClient (Close (connectionId (fst s))) (snd s))).

(** What stays of a session whatever happens to it. *)
Definition same_session (s s' : t * World) : Prop :=
  oid (fst s') = oid (fst s) /\ userLeftEvent (fst s') = userLeftEvent (fst s).

(** A session as the class keeps it: each of its two bound handlers is
    registered at most once (the constructor registers them once), and
    the endpoint in the slot, if any, still has its bridge (only the
    endpoint's [stop] takes the bridge away, and the session's [stop]
    empties the slot after it). *)
Definition well_formed (s : t * World) : Prop :=
  registrations Nat.eqb (oid (fst s)) (mcsListeners (snd s)) <= 1
  /\ registrations bbb_eqb (userLeftEvent (fst s)) (bbbListeners (snd s)) <= 1
  /\ (forall e, _clientEndpoint (fst s) = Some e ->
        Endpoint.transceiverBridge e <> None).

(** *** Answers *)

(** [processAnswer]: handed to the endpoint in the slot, which has the
    method; a promise resolved with [undefined] when the slot is empty. *)
Definition processAnswer (answer : string)
  : Async (t * World) (option (option string)) :=
  let* x := gets fst in
  match _clientEndpoint x with
  | Some _ => onEndpoint (Endpoint.processAnswer answer)
  | None => ret None
  end.

(** *** The life of a session *)

(** A callback of the endpoint in the slot runs on that endpoint. *)
Definition inEndpoint (f : Endpoint.t * World -> Endpoint.t * World)
    (s : t * World) : t * World :=
  match _clientEndpoint (fst s) with
  | Some e =>
      let r := f (e, snd s) in
      (set__clientEndpoint (Some (fst r)) (fst s), snd r)
  | None => s
  end.

(** What can happen to a session once constructed. [transceive] builds and
    starts an endpoint of identity [endpointOid] and the relay is
    registered on the endpoint in the slot: [start] of a [sendrecv] session
    is the first followed, when it resolved, by the second. A candidate or
    an answer arrives from the client, the pending candidates are flushed.
    The MCS delivers a media event to the endpoint in the slot, or a pending
    timer expires on it. The session is stopped, the user leaves the
    meeting, the listeners are detached. *)
Inductive Event :=
| Transceive (endpointOid : nat) (sdpOffer : string)
| RelayRegistered
| CandidateArrives (candidate : string)
| CandidatesFlushed
| AnswerArrives (answer : string)
| MediaStateEvent (event : Endpoint.MediaEvent) (target : option string)
| TimerExpires (h : nat)
| Stop
| UserLeft
| Detached.

Definition occur (e : Event) (s : t * World) : t * World :=
  match e with
  | Transceive endpointOid sdpOffer => fst (transceive endpointOid sdpOffer s)
  | RelayRegistered => _trackClientEndpointEvents s
  | CandidateArrives candidate => onIceCandidate candidate s
  | CandidatesFlushed => _flushCandidatesQueue s
  | AnswerArrives answer => fst (processAnswer answer s)
  | MediaStateEvent event target =>
      inEndpoint (Endpoint.deliver (Endpoint._mediaStateWebRTC event target)) s
  | TimerExpires h => inEndpoint (Endpoint.timerExpires h) s
  | Stop => fst (stop s)
  | UserLeft => fst (disconnectUser s)
  | Detached => finalDetachEventListeners s
  end.

Definition life (events : list Event) (s : t * World) : t * World :=
  fold_left (fun s e => occur e s) events s.



End Methods.

(** *** Starting a session *)

Section Start.
Context `{Endpoint.Env} `{Config}.

(** [listen] builds a ClientAudioConsumer on a consumer bridge; neither
    class is in src, so the method is a parameter of [start]. [normalize
    error role userId] is [this._handleError(null, error, role, userId)]
    of BaseProvider. *)
Variable listen : string -> Async (t * World) string.
Variable normalize : SfuError -> string -> string -> SfuError.

(** [start]; [endpointOid] is the identity of the endpoint [transceive]
    constructs. *)
Definition start (endpointOid : nat) (sdpOffer : string)
  : Async (t * World) string :=
  try_catch
    (let* x := gets fst in
     let* sdpAnswer :=
       (if String.eqb (role x) "sendrecv"
        then transceive endpointOid sdpOffer
        else listen sdpOffer) in
     exec modify _trackClientEndpointEvents in
     ret sdpAnswer)
    (fun error =>
       let* x := gets fst in
       let normalizedError := normalize error (role x) (userId x) in
       throw normalizedError).

End Start.
End AudioSession.

(** ** VideoManager (lib/video/VideoManager.js) *)

Module VideoManager.
Import Runtime.
Local Open Scope async_scope.

(** An inbound message. A field that is absent is [None]. *)
Record Message := {
  id : option string;
  connectionId : option string;
  userId : option string;
  meetingId : option string;
  voiceBridge : option string;
  role : option string;
  cameraId : option string;
  sdpOffer : option string;
  bitrate : option Z;
  record : option bool;
  mediaServer : option string;
  candidate : option string;
  answer : option string;
}.

Inductive Status := MEDIA_STARTING | MEDIA_STARTED | MEDIA_STOPPING | MEDIA_STOPPED.

Definition Status_eqb (a b : Status) : bool :=
  match a, b with
  | MEDIA_STARTING, MEDIA_STARTING | MEDIA_STARTED, MEDIA_STARTED
  | MEDIA_STOPPING, MEDIA_STOPPING | MEDIA_STOPPED, MEDIA_STOPPED => true
  | _, _ => false
  end.

(** A Video object. Modelled from the spec: lib/video/video.js is not in
    src. The object keeps the arguments its constructor is given, in their
    order ([bbbGW] and [mcs] apart), and its status. What the manager reads
    of a session, [session.connectionId], [session.id] and [session.role],
    are the three arguments spec 4.1 has the error normalization take, the
    connection id, the resource id and the role; the resource id of a video
    session is its camera id (spec 3), the third argument of the
    constructor, so [v_id] is that argument. The session key, the ninth
    argument, is [v_sessionId]. *)
Record Video := {
  v_meetingId : option string;
  v_id : option string;
  v_role : option string;
  v_connectionId : option string;
  v_voiceBridge : option string;
  v_userId : option string;
  v_sessionId : string;
  v_record : bool;
  v_mediaServer : string;
  v_status : Status;
}.

Definition set_status (st : Status) (v : Video) : Video :=
  {| v_meetingId := v_meetingId v; v_id := v_id v;
     v_role := v_role v; v_connectionId := v_connectionId v;
     v_voiceBridge := v_voiceBridge v; v_userId := v_userId v;
     v_sessionId := v_sessionId v; v_record := v_record v;
     v_mediaServer := v_mediaServer v;
     v_status := st |}.

(** A value handed to [isVideoInstanceReady]. *)
Inductive Value :=
| Undefined
| Null
| VideoInstance (v : Video)
| OtherObject (status : option Status).

(** The normalized error message sent to the client. *)
Record ErrorMessage := {
  em_connectionId : option string;
  em_streamId : option string;
  em_role : option string;
  em_code : Z;
  em_reason : string;
}.

Inductive Frame :=
| StartResponse (connectionId : option string) (type : string)
    (role cameraId : option string) (sdpAnswer : string)
| ErrorFrame (m : ErrorMessage).

Inductive Metric := SESSIONS | REQS | ERRORS.

Record Labels := { method : option string; errorCode : Z }.

(** What the manager does to its collaborators, in program order. [oid] is
    the identity of a Video object. *)
Inductive Effect :=
| SendToClient (f : Frame)
| Increment (name : Metric) (labels : option Labels)
| CamBroadcastPermission (meetingId userId cameraId connectionId : option string)
| CamSubscribePermission (meetingId userId cameraId connectionId : option string)
| VideoNew (oid : nat)
| VideoStart (oid : nat) (sdpOffer : option string)
| VideoStop (oid : nat)
| VideoOnIceCandidate (oid : nat) (candidate : option string)
| VideoProcessAnswer (oid : nat) (answer : option string)
| VideoOnceMediaServerOffline (oid : nat)
| UpstreamErrorLogged.

(** A task pushed on a lifecycle queue: the closure and what it captured. *)
Inductive Task :=
| TaskStart (message : Message)
| TaskSubscriberAnswer (message : Message)
| TaskStop (message : Message)
| TaskClose (sessionId : string) (oid : nat).

(** Modelled from the spec: the lifecycle queue that
    BaseManager._fetchLifecycleQueue returns is not in src. Spec 4.1: one
    FIFO per session key; a queue processes one task at a time; the next
    task starts only after the previous task's completion, success or
    failure. [pending] are the tasks not yet started, oldest first;
    [running] is the task in progress. *)
Record Queue := { pending : list Task; running : option Task }.

Inductive SchedEvent :=
| Began (sessionId : string) (task : Task)
| Ended (sessionId : string) (task : Task) (succeeded : bool).

(** The manager. [sessions] is the JavaScript [Map] of the session table,
    in insertion order, from session id to Video object; [heap] holds the
    objects. [iceQueues] maps a session id to its pending-ICE array and
    [arrays] holds the arrays, which are shared by reference. [sources] is
    the static source table of the Video class. *)
Record t := {
  sessions : list (string * nat);
  heap : gmap nat Video;
  nextOid : nat;
  iceQueues : gmap string nat;
  arrays : gmap nat (list (option string));
  lifecycleQueues : gmap string Queue;
  sources : gmap string string;
  effects : list Effect;
  schedule : list SchedEvent;
}.

Definition new : t :=
  {| sessions := []; heap := ∅; nextOid := 0; iceQueues := ∅; arrays := ∅;
     lifecycleQueues := ∅; sources := ∅; effects := []; schedule := [] |}.

Definition set_sessions (f : list (string * nat) -> list (string * nat)) (m : t) : t :=
  {| sessions := f (sessions m);
     heap := heap m;
     nextOid := nextOid m;
     iceQueues := iceQueues m;
     arrays := arrays m;
     lifecycleQueues := lifecycleQueues m;
     sources := sources m;
     effects := effects m;
     schedule := schedule m |}.

Definition set_heap (f : gmap nat Video -> gmap nat Video) (m : t) : t :=
  {| sessions := sessions m;
     heap := f (heap m);
     nextOid := nextOid m;
     iceQueues := iceQueues m;
     arrays := arrays m;
     lifecycleQueues := lifecycleQueues m;
     sources := sources m;
     effects := effects m;
     schedule := schedule m |}.

Definition set_nextOid (f : nat -> nat) (m : t) : t :=
  {| sessions := sessions m;
     heap := heap m;
     nextOid := f (nextOid m);
     iceQueues := iceQueues m;
     arrays := arrays m;
     lifecycleQueues := lifecycleQueues m;
     sources := sources m;
     effects := effects m;
     schedule := schedule m |}.

Definition set_iceQueues (f : gmap string nat -> gmap string nat) (m : t) : t :=
  {| sessions := sessions m;
     heap := heap m;
     nextOid := nextOid m;
     iceQueues := f (iceQueues m);
     arrays := arrays m;
     lifecycleQueues := lifecycleQueues m;
     sources := sources m;
     effects := effects m;
     schedule := schedule m |}.

Definition set_arrays (f : gmap nat (list (option string)) -> gmap nat (list (option string))) (m : t) : t :=
  {| sessions := sessions m;
     heap := heap m;
     nextOid := nextOid m;
     iceQueues := iceQueues m;
     arrays := f (arrays m);
     lifecycleQueues := lifecycleQueues m;
     sources := sources m;
     effects := effects m;
     schedule := schedule m |}.

Definition set_lifecycleQueues (f : gmap string Queue -> gmap string Queue) (m : t) : t :=
  {| sessions := sessions m;
     heap := heap m;
     nextOid := nextOid m;
     iceQueues := iceQueues m;
     arrays := arrays m;
     lifecycleQueues := f (lifecycleQueues m);
     sources := sources m;
     effects := effects m;
     schedule := schedule m |}.

Definition set_sources (f : gmap string string -> gmap string string) (m : t) : t :=
  {| sessions := sessions m;
     heap := heap m;
     nextOid := nextOid m;
     iceQueues := iceQueues m;
     arrays := arrays m;
     lifecycleQueues := lifecycleQueues m;
     sources := f (sources m);
     effects := effects m;
     schedule := schedule m |}.

Definition set_effects (f : list Effect -> list Effect) (m : t) : t :=
  {| sessions := sessions m;
     heap := heap m;
     nextOid := nextOid m;
     iceQueues := iceQueues m;
     arrays := arrays m;
     lifecycleQueues := lifecycleQueues m;
     sources := sources m;
     effects := f (effects m);
     schedule := schedule m |}.

Definition set_schedule (f : list SchedEvent -> list SchedEvent) (m : t) : t :=
  {| sessions := sessions m;
     heap := heap m;
     nextOid := nextOid m;
     iceQueues := iceQueues m;
     arrays := arrays m;
     lifecycleQueues := lifecycleQueues m;
     sources := sources m;
     effects := effects m;
     schedule := f (schedule m) |}.

(** *** The [Map] of the session table *)

Definition Map_get {V} (k : string) (l : list (string * V)) : option V :=
  snd <$> List.find (fun e => String.eqb (fst e) k) l.

(** [Map.prototype.set]: the value of an existing key is replaced where it
    stands; a new key is appended. *)
Fixpoint Map_set {V} (k : string) (v : V) (l : list (string * V))
  : list (string * V) :=
  match l with
  | [] => [(k, v)]
  | e :: l' => if String.eqb (fst e) k then (k, v) :: l' else e :: Map_set k v l'
  end.

Definition Map_delete {V} (k : string) (l : list (string * V))
  : list (string * V) :=
  List.filter (fun e => negb (String.eqb (fst e) k)) l.

(** Number of entries stored under a key. *)
Definition entries {V} (k : string) (l : list (string * V)) : nat :=
  length (List.filter (fun e => String.eqb (fst e) k) l).

(** The collaborators the file requires but does not define. A permission
    query resolves when the permission is granted and rejects with the
    oracle's error when it is denied. The methods of a Video object answer
    with the status the object is left in and the promise they return. *)
Class Env := {
  MediaSpecs : Type;
  DEFAULT_MEDIA_SPECS : MediaSpecs;
  addBwToSpecMainType : MediaSpecs -> Z -> MediaSpecs;
  VIDEO_MEDIA_SERVER : string;
  WS_STRICT_HEADER_PARSING : bool;
  errors_SFU_INVALID_REQUEST : SfuError;
  errors_MEDIA_SERVER_OFFLINE : SfuError;
  errors_reason : Z -> string;
  explodeUserInfoHeader : Message -> Promise Message;
  getCamBroadcastPermission :
    option string -> option string -> option string -> option string -> Promise unit;
  getCamSubscribePermission :
    option string -> option string -> option string -> option string -> Promise unit;
  Video_initial_status : Status;
  Video_start : Video -> option string -> MediaSpecs -> Status * Promise string;
  Video_stop : Video -> Status * Promise unit;
  Video_processAnswer : Video -> option string -> Promise unit;
}.

Section Methods.
Context `{Env}.

Definition BW_UNCAPPED : Z := 0.

Definition getCameraId (message : Message) : option string := cameraId message.

Definition getSessionId (message : Message) : string :=
  String.append (Js.toString (userId message))
    (String.append "-"
       (String.append (Js.toString (getCameraId message))
          (String.append "-" (Js.toString (role message))))).

Definition getVideoSpecsFromRequest (message : Message) : MediaSpecs :=
  let bitrate :=
    if Js.strict_eq (role message) (Some "share")
    then bitrate message else Some BW_UNCAPPED in
  let spec := DEFAULT_MEDIA_SPECS in
  match bitrate with
  | Some b => addBwToSpecMainType spec b
  | None => spec
  end.

(** [isVideoInstanceReady]; the result is the truthiness of the value the
    JavaScript expression yields, which is how its only caller uses it. *)
Definition isVideoInstanceReady (video : Value) : bool :=
  match video with
  | Undefined | Null => false
  | OtherObject _ => false
  | VideoInstance v =>
      negb (Status_eqb (v_status v) MEDIA_STOPPED)
      || negb (Status_eqb (v_status v) MEDIA_STOPPING)
  end.

(** *** Helpers inherited from BaseManager *)

(** A synchronous helper that returns a value. *)
Definition call1 {A} (f : t -> t * A) : Async t A :=
  fun m => (fst (f m), Resolves (snd (f m))).

Definition effect (e : Effect) : t -> t := set_effects (fun l => l ++ [e]).

(** [sendToClient(frame, channel)] and [PrometheusAgent.increment]. *)
Definition sendToClient (f : Frame) : t -> t := effect (SendToClient f).

Definition increment (name : Metric) (labels : option Labels) : t -> t :=
  effect (Increment name labels).

(** Modelled from the spec: BaseManager._handleError is not in src. Spec
    4.1 and 7: every error surfaced to the client is normalized to a
    message carrying the numeric code and the reason the fixed error
    catalogue gives for it. *)
Definition _handleError (connectionId streamId role : option string)
    (error : SfuError) : ErrorMessage :=
  {| em_connectionId := connectionId; em_streamId := streamId;
     em_role := role; em_code := err_code error;
     em_reason := errors_reason (err_code error) |}.

(** Modelled from the spec: BaseManager.getSession and storeSession are
    not in src; the session table is a map from session key to session. *)
Definition getSession (sessionId : string) (m : t) : option nat :=
  Map_get sessionId (sessions m).

Definition storeSession (sessionId : string) (video : nat) : t -> t :=
  set_sessions (Map_set sessionId video).

(** The value [getSession] hands to the caller. *)
Definition valueOf (m : t) (r : option nat) : Value :=
  match r with
  | None => Undefined
  | Some o =>
      match heap m !! o with
      | Some v => VideoInstance v
      | None => Undefined
      end
  end.

(** [new Video(...)]: a fresh object. *)
Definition Video_new (v : Video) : Async t nat :=
  fun m =>
    let o := nextOid m in
    (effect (VideoNew o)
       (set_heap (fun h => <[o := v]> h) (set_nextOid (fun _ => S o) m)),
     Resolves o).

(** A method of the Video object [o]: the effect is recorded, the object
    takes its new status, the promise is awaited. *)
Definition Video_call {A} (o : nat) (e : Effect)
    (f : Video -> Status * Promise A) : Async t A :=
  fun m =>
    match heap m !! o with
    | Some v =>
        (effect e (set_heap (fun h => <[o := set_status (fst (f v)) v]> h) m),
         snd (f v))
    | None => (m, Rejects TypeError)
    end.

(** Modelled from the spec: BaseManager._stopSession is not in src. Spec 3:
    a session is destroyed when its stop completes, success or failure. *)
Definition _stopSession (sessionId : string) : Async t unit :=
  let* r := gets (getSession sessionId) in
  match r with
  | Some o =>
      try_catch
        (exec Video_call o (VideoStop o) Video_stop in
         modify (set_sessions (Map_delete sessionId)))
        (fun error =>
           exec modify (set_sessions (Map_delete sessionId)) in
           throw error)
  | None => ret tt
  end.

(** Modelled from the spec: the pending-ICE queue helpers of BaseManager
    are not in src. Spec 3: the queue of a key is created when the key is
    first observed, drained in FIFO order into the session when it is
    ready, deleted on session close. *)
Definition _fetchIceQueue (sessionId : string) (m : t) : t * nat :=
  match iceQueues m !! sessionId with
  | Some a => (m, a)
  | None =>
      let a := nextOid m in
      (set_iceQueues (fun q => <[sessionId := a]> q)
         (set_arrays (fun h => <[a := []]> h)
            (set_nextOid (fun _ => S a) m)),
       a)
  end.

Definition _deleteIceQueue (sessionId : string) : t -> t :=
  set_iceQueues (fun q => delete sessionId q).

Definition Array_read (a : nat) (m : t) : list (option string) :=
  default [] (arrays m !! a).

Definition Array_push (a : nat) (c : option string) : t -> t :=
  set_arrays (fun h => <[a := default [] (h !! a) ++ [c]]> h).

Definition _flushIceQueue (video : nat) (iceQueue : nat) (m : t) : t :=
  set_arrays (fun h => <[iceQueue := []]> h)
    (fold_left (fun m c => effect (VideoOnIceCandidate video c) m)
       (Array_read iceQueue m) m).

(** The pending candidates of a session key. *)
Definition pendingIce (sessionId : string) (m : t) : list (option string) :=
  match iceQueues m !! sessionId with
  | Some a => Array_read a m
  | None => []
  end.

(** Modelled from the spec: BaseManager._fetchLifecycleQueue is not in
    src; the queue of a key is created on first use. *)
Definition _fetchLifecycleQueue (sessionId : string) : t -> t :=
  set_lifecycleQueues (fun qs =>
    match qs !! sessionId with
    | Some _ => qs
    | None => <[sessionId := {| pending := []; running := None |}]> qs
    end).

(** [queue.push(task)] on the queue of [sessionId]. *)
Definition Queue_push (sessionId : string) (task : Task) : t -> t :=
  set_lifecycleQueues
    (alter (fun q => {| pending := pending q ++ [task]; running := running q |})
       sessionId).

(** *** Methods of the class *)

(** [Video.setSource]. Modelled from the spec: the Video class is not in
    src. Spec 4.6: a process-wide source table, purely additive. *)
Definition Video_setSource (key value : string) : t -> t :=
  set_sources (fun tbl => <[key := value]> tbl).

(** The listener [_trackExternalWebcamSources] registers for
    USER_CAM_BROADCAST_STARTED_2x, applied to a payload. *)
Definition onUserCamBroadcastStarted (stream userId : string) (m : t) : t :=
  if Js.truthy_match (Js.match_v_underscores userId) then
    let normalizedStreamName := Js.replace_SIP stream in
    Video_setSource userId normalizedStreamName
      (Video_setSource stream normalizedStreamName m)
  else m.

(** Following the spec's words (4.6), to be compared with the listener
    above: "the [|SIP] suffix, if any, is stripped". *)
Fixpoint strip_SIP_suffix (s : string) : string :=
  match s with
  | EmptyString => ""
  | String c rest =>
      if String.eqb s "|SIP" then "" else String c (strip_SIP_suffix rest)
  end.

(** Following the spec's words (4.6): the source table is updated exactly
    when the userId begins with the reserved prefix [v_], and then the
    stream name without its [|SIP] suffix is registered under the stream
    name and under the userId. *)
Definition tracked_as_specified (stream userId : string) (m : t) : t :=
  if Js.startsWith "v_" userId then
    Video_setSource userId (strip_SIP_suffix stream)
      (Video_setSource stream (strip_SIP_suffix stream) m)
  else m.

Definition _trackMediaServerOfflineEvent (session : nat) : t -> t :=
  effect (VideoOnceMediaServerOffline session).

(** The listener registered by [_trackMediaServerOfflineEvent]. *)
Definition onMediaServerOffline (session : nat) (m : t) : t :=
  match heap m !! session with
  | Some v =>
      let errorMessage :=
        _handleError (v_connectionId v) (v_id v) (v_role v)
          errors_MEDIA_SERVER_OFFLINE in
      sendToClient (ErrorFrame errorMessage)
        (increment ERRORS
           (Some {| method := Some "event"; errorCode := em_code errorMessage |})
           m)
  | None => m
  end.

Definition _getPermission (request : Message) : Async t unit :=
  if Js.strict_eq (role request) (Some "share") then
    exec modify (effect (CamBroadcastPermission (meetingId request)
                           (userId request) (cameraId request)
                           (connectionId request))) in
    await (getCamBroadcastPermission (meetingId request) (userId request)
             (cameraId request) (connectionId request))
  else if Js.strict_eq (role request) (Some "viewer") then
    exec modify (effect (CamSubscribePermission (meetingId request)
                           (userId request) (cameraId request)
                           (connectionId request))) in
    await (getCamSubscribePermission (meetingId request) (userId request)
             (cameraId request) (connectionId request))
  else throw errors_SFU_INVALID_REQUEST.

Definition _closeSession (sessionId : string) : Async t unit :=
  try_catch
    (exec _stopSession sessionId in
     modify (_deleteIceQueue sessionId))
    (fun error => modify (_deleteIceQueue sessionId)).

Definition handleStart (request : Message) : Async t unit :=
  let sessionId := getSessionId request in
  let record := default true (record request) in
  let mediaServer := default VIDEO_MEDIA_SERVER (mediaServer request) in
  try_catch
    (exec _getPermission request in
     let* video := gets (getSession sessionId) in
     let* iceQueue := call1 (_fetchIceQueue sessionId) in
     exec
       (match video with
        | Some _ => _closeSession sessionId
        | None => ret tt
        end) in
     let* video :=
       Video_new {| v_meetingId := meetingId request;
                    v_id := cameraId request;
                    v_role := role request;
                    v_connectionId := connectionId request;
                    v_voiceBridge := voiceBridge request;
                    v_userId := userId request;
                    v_sessionId := sessionId;
                    v_record := record;
                    v_mediaServer := mediaServer;
                    v_status := Video_initial_status |} in
     exec modify (storeSession sessionId video) in
     let mediaSpecs := getVideoSpecsFromRequest request in
     let* sdpAnswer :=
       Video_call video (VideoStart video (sdpOffer request))
         (fun v => Video_start v (sdpOffer request) mediaSpecs) in
     exec modify (_flushIceQueue video iceQueue) in
     exec modify (_trackMediaServerOfflineEvent video) in
     modify (sendToClient
               (StartResponse (connectionId request) "video" (role request)
                  (cameraId request) sdpAnswer)))
    (fun error =>
       let errorMessage :=
         _handleError (connectionId request) (cameraId request)
           (role request) error in
       exec modify (increment ERRORS
                      (Some {| method := id request;
                               errorCode := em_code errorMessage |})) in
       modify (sendToClient (ErrorFrame errorMessage))).

(** The Video object [handleStart] constructs for a request. *)
Definition videoOf (request : Message) : Video :=
  {| v_meetingId := meetingId request;
     v_id := cameraId request;
     v_role := role request;
     v_connectionId := connectionId request;
     v_voiceBridge := voiceBridge request;
     v_userId := userId request;
     v_sessionId := getSessionId request;
     v_record := default true (record request);
     v_mediaServer := default VIDEO_MEDIA_SERVER (mediaServer request);
     v_status := Video_initial_status |}.

(** The state in which [handleStart] constructs the new session: the
    permission is granted, the ICE queue fetched, the stale session, if
    any, closed. *)
Definition beforeConstruction (request : Message) (m : t) : t :=
  let sid := getSessionId request in
  let m1 := fst (_getPermission request m) in
  let m2 := fst (_fetchIceQueue sid m1) in
  match getSession sid m1 with
  | Some _ => fst (_closeSession sid m2)
  | None => m2
  end.

Definition handleStop (message : Message) : Async t unit :=
  _closeSession (getSessionId message).

Definition handleIceCandidate (message : Message) (m : t) : t :=
  let sessionId := getSessionId message in
  let video := getSession sessionId m in
  let (m, iceQueue) := _fetchIceQueue sessionId m in
  if isVideoInstanceReady (valueOf m video) then
    match video with
    | Some o => effect (VideoOnIceCandidate o (candidate message)) m
    | None => m
    end
  else Array_push iceQueue (candidate message) m.

Definition handleSubscriberAnswer (message : Message) : Async t unit :=
  let sessionId := getSessionId message in
  let* video := gets (getSession sessionId) in
  match video with
  | Some o =>
      try_catch
        (Video_call o (VideoProcessAnswer o (answer message))
           (fun v => (v_status v, Video_processAnswer v (answer message))))
        (fun error =>
           let* m := gets (fun m => m) in
           match heap m !! o with
           | Some v =>
               let normalizedError :=
                 _handleError (v_connectionId v) (v_id v) (v_role v)
                   error in
               modify (increment ERRORS
                         (Some {| method := id message;
                                  errorCode := em_code normalizedError |}))
           | None => throw TypeError
           end)
  | None => ret tt
  end.

(** [_killConnectionSessions]: the table is walked in insertion order. *)
Definition _killConnectionSessions (connectionId : option string) (m : t) : t :=
  fold_left
    (fun m e =>
       match heap m !! snd e with
       | Some session =>
           if Js.strict_eq (v_connectionId session) connectionId then
             Queue_push (fst e) (TaskClose (fst e) (snd e))
               (_fetchLifecycleQueue (fst e) m)
           else m
       | None => m
       end)
    (sessions m) m.

Definition handleClose (message : Message) : t -> t :=
  _killConnectionSessions (connectionId message).

Definition _handleUpstreamError (message : Message) : t -> t :=
  effect UpstreamErrorLogged.

Definition _handleInvalidRequest (message : Message) (m : t) : t :=
  let errorMessage :=
    _handleError (connectionId message) (cameraId message) (role message)
      errors_SFU_INVALID_REQUEST in
  increment ERRORS
    (Some {| method := Some (if Js.truthy (id message)
                             then Js.toString (id message) else "event");
             errorCode := em_code errorMessage |})
    (sendToClient (ErrorFrame errorMessage) m).

(** The [switch] of [_onMessage]. *)
Definition dispatch (message : Message) (m : t) : t :=
  if Js.strict_eq (id message) (Some "start") then
    Queue_push (getSessionId message) (TaskStart message)
      (_fetchLifecycleQueue (getSessionId message) m)
  else if Js.strict_eq (id message) (Some "subscriberAnswer") then
    Queue_push (getSessionId message) (TaskSubscriberAnswer message)
      (_fetchLifecycleQueue (getSessionId message) m)
  else if Js.strict_eq (id message) (Some "stop") then
    Queue_push (getSessionId message) (TaskStop message)
      (_fetchLifecycleQueue (getSessionId message) m)
  else if Js.strict_eq (id message) (Some "onIceCandidate") then
    handleIceCandidate message m
  else if Js.strict_eq (id message) (Some "close") then
    handleClose message m
  else if Js.strict_eq (id message) (Some "error") then
    _handleUpstreamError message m
  else _handleInvalidRequest message m.

(** [_onMessage]. [explodeUserInfoHeader] fills the message from its
    header in place; when it throws and parsing is not strict the message
    goes on as it is. *)
Definition _onMessage (message : Message) (m : t) : t :=
  let m := increment REQS None m in
  match explodeUserInfoHeader message with
  | Resolves message' => dispatch message' m
  | Rejects error =>
      if WS_STRICT_HEADER_PARSING then _handleInvalidRequest message m
      else dispatch message m
  end.

(** The body of a task. *)
Definition Task_run (task : Task) : Async t unit :=
  match task with
  | TaskStart message => handleStart message
  | TaskSubscriberAnswer message => handleSubscriberAnswer message
  | TaskStop message => handleStop message
  | TaskClose sessionId _ => _closeSession sessionId
  end.

(** *** The event loop seen from the lifecycle queues

    Modelled from the spec (4.1, 5): what can happen next is the delivery
    of an inbound message, the start of the oldest pending task of a queue
    that runs nothing, some progress of the code in flight (task bodies,
    event handlers: anything but the queues may change), or the completion
    of the running task of a queue, success or failure. *)
Inductive Step :=
| Deliver (message : Message)
| Begin (sessionId : string)
| Progress (m' : t)
| Finish (sessionId : string) (succeeded : bool).

Definition begin (sessionId : string) (m : t) : t :=
  match lifecycleQueues m !! sessionId with
  | Some {| pending := task :: rest; running := None |} =>
      set_schedule (fun l => l ++ [Began sessionId task])
        (set_lifecycleQueues
           (fun qs => <[sessionId := {| pending := rest; running := Some task |}]> qs)
           m)
  | _ => m
  end.

Definition complete (sessionId : string) (succeeded : bool) (m : t) : t :=
  match lifecycleQueues m !! sessionId with
  | Some {| pending := rest; running := Some task |} =>
      set_schedule (fun l => l ++ [Ended sessionId task succeeded])
        (set_lifecycleQueues
           (fun qs => <[sessionId := {| pending := rest; running := None |}]> qs)
           m)
  | _ => m
  end.

Definition progress (m' m : t) : t :=
  {| sessions := sessions m'; heap := heap m'; nextOid := nextOid m';
     iceQueues := iceQueues m'; arrays := arrays m';
     lifecycleQueues := lifecycleQueues m; sources := sources m';
     effects := effects m'; schedule := schedule m |}.

Definition step (s : Step) : t -> t :=
  match s with
  | Deliver message => _onMessage message
  | Begin sessionId => begin sessionId
  | Progress m' => progress m'
  | Finish sessionId succeeded => complete sessionId succeeded
  end.

Definition run (steps : list Step) (m : t) : t :=
  fold_left (fun m s => step s m) steps m.

(** *** Reading the schedule *)

(** The tasks of a key that are waiting, and the one that is running. *)
Definition pendingOf (k : string) (m : t) : list Task :=
  match lifecycleQueues m !! k with
  | Some q => pending q
  | None => []
  end.

Definition runningOf (k : string) (m : t) : option Task :=
  match lifecycleQueues m !! k with
  | Some q => running q
  | None => None
  end.

(** The tasks of a key that have begun, in the order they began. *)
Fixpoint begun (k : string) (l : list SchedEvent) : list Task :=
  match l with
  | [] => []
  | Began k' task :: l' =>
      if String.eqb k' k then task :: begun k l' else begun k l'
  | Ended _ _ _ :: l' => begun k l'
  end.

(** Whether a task of the key is running after the events [l], when
    [busy] says whether one was running before them. *)
Fixpoint busyAfter (k : string) (busy : bool) (l : list SchedEvent) : bool :=
  match l with
  | [] => busy
  | Began k' _ :: l' => busyAfter k (if String.eqb k' k then true else busy) l'
  | Ended k' _ _ :: l' => busyAfter k (if String.eqb k' k then false else busy) l'
  end.

(** No two tasks of the key overlap: a task of the key begins only when
    none is running, and only a running task ends. *)
Fixpoint overlapFree (k : string) (busy : bool) (l : list SchedEvent) : bool :=
  match l with
  | [] => true
  | Began k' _ :: l' =>
      if String.eqb k' k then negb busy && overlapFree k true l'
      else overlapFree k busy l'
  | Ended k' _ _ :: l' =>
      if String.eqb k' k then busy && overlapFree k false l'
      else overlapFree k busy l'
  end.

(** The tasks that come from inbound [start], [subscriberAnswer] and
    [stop] messages. *)
Definition isLifecycle (task : Task) : bool :=
  match task with
  | TaskStart _ | TaskSubscriberAnswer _ | TaskStop _ => true
  | TaskClose _ _ => false
  end.

(** The lifecycle task [_onMessage] creates for a message, if any, with
    the key of the queue it is pushed on. *)
Definition lifecycleTask (message : Message) : option (string * Task) :=
  let dispatched :=
    match explodeUserInfoHeader message with
    | Resolves message' => Some message'
    | Rejects _ => if WS_STRICT_HEADER_PARSING then None else Some message
    end in
  match dispatched with
  | Some message' =>
      if Js.strict_eq (id message') (Some "start")
      then Some (getSessionId message', TaskStart message')
      else if Js.strict_eq (id message') (Some "subscriberAnswer")
      then Some (getSessionId message', TaskSubscriberAnswer message')
      else if Js.strict_eq (id message') (Some "stop")
      then Some (getSessionId message', TaskStop message')
      else None
  | None => None
  end.

(** The lifecycle tasks of a key, in the order their messages arrived. *)
Definition inbound (k : string) (steps : list Step) : list Task :=
  flat_map
    (fun s =>
       match s with
       | Deliver message =>
           match lifecycleTask message with
           | Some (k', task) => if String.eqb k' k then [task] else []
           | None => []
           end
       | _ => []
       end)
    steps.

(** What a delivery does to the queue of a key: tasks are added at the
    end, the running task and the schedule are left alone. *)
Definition appends (k : string) (pushed : list Task) (m m' : t) : Prop :=
  pendingOf k m' = pendingOf k m ++ pushed
  /\ runningOf k m' = runningOf k m
  /\ schedule m' = schedule m.

(** The queue of a key is in order after [steps]: its lifecycle tasks,
    begun or waiting, are those of the inbound messages in arrival order;
    the tasks that began did not overlap; a task is running exactly when
    the schedule says so. *)
Definition serialized (k : string) (steps : list Step) (m : t) : Prop :=
  List.filter isLifecycle (begun k (schedule m) ++ pendingOf k m)
  = inbound k steps
  /\ overlapFree k false (schedule m) = true
  /\ busyAfter k false (schedule m)
     = match runningOf k m with Some _ => true | None => false end.

(** *** Reading what a message did *)

(** The sessions of a connection, in the order of the table: those
    [_killConnectionSessions] closes. *)
Definition connectionSessions (connectionId : option string) (m : t)
  : list (string * nat) :=
  List.filter
    (fun e =>
       match heap m !! snd e with
       | Some session => Js.strict_eq (v_connectionId session) connectionId
       | None => false
       end)
    (sessions m).

(** What [_onMessage] does before it returns, as opposed to what it
    leaves to a lifecycle queue: relaying a candidate to a session, logging
    an upstream error, answering an invalid request with an error frame and
    an error count. *)
Definition immediate (e : Effect) : bool :=
  match e with
  | SendToClient (ErrorFrame _) | Increment ERRORS _
  | VideoOnIceCandidate _ _ | UpstreamErrorLogged => true
  | _ => false
  end.

(** The message ids [_onMessage] knows. *)
Definition knownIds : list (option string) :=
  [Some "start"; Some "subscriberAnswer"; Some "stop"; Some "onIceCandidate";
   Some "close"; Some "error"].

End Methods.
End VideoManager.

(** ** Sample collaborators and objects, for the examples *)

Module Samples.
Import Runtime.

Definition offline : SfuError := {| err_code := 2001; err_message := "MEDIA_SERVER_OFFLINE" |}.
Definition rejected : SfuError := {| err_code := 2202; err_message := "rejected" |}.

(** An MCS that answers every call. *)
Definition answering : ClientAudioStTransceiver.Env :=
  {| ClientAudioStTransceiver.mcs_waitForConnection := Resolves true;
     ClientAudioStTransceiver.mcs_join := fun _ _ _ _ => Resolves (Some "mcs-user");
     ClientAudioStTransceiver.mcs_publish := fun _ _ _ _ => Resolves (Some "media-1");
     ClientAudioStTransceiver.mcs_consume := fun _ _ _ => Resolves "answer";
     ClientAudioStTransceiver.mcs_connect := fun _ _ _ => Resolves tt;
     ClientAudioStTransceiver.mcs_addIceCandidate := fun _ _ => Resolves tt;
     ClientAudioStTransceiver.mcs_unpublish := fun _ _ => Resolves tt;
     ClientAudioStTransceiver.bridge_start := fun _ => Resolves (Some "bridge-1");
     ClientAudioStTransceiver._handleError := fun _ e _ _ => e;
     ClientAudioStTransceiver._assembleStreamName :=
       fun d u m => String.append d (String.append "|" (String.append u (String.append "|" m)));
     ClientAudioStTransceiver.MEDIA_FLOW_TIMEOUT_DURATION := 15000;
     ClientAudioStTransceiver.MEDIA_STATE_TIMEOUT_DURATION := 30000;
     ClientAudioStTransceiver.AUDIO_RTP_HDR_EXTS := "";
     ClientAudioStTransceiver.C_WEBRTC := "WebRtcEndpoint";
     ClientAudioStTransceiver.C_MEDIA_SERVER_OFFLINE := "1000";
     ClientAudioStTransceiver.errors_MEDIA_SERVER_OFFLINE := offline;
     ClientAudioStTransceiver.errors_2211 := "MEDIA_TIMEOUT" |}.

(** The same MCS, except that it rejects every ICE candidate. *)
Definition rejectingIce : ClientAudioStTransceiver.Env :=
  {| ClientAudioStTransceiver.mcs_waitForConnection := Resolves true;
     ClientAudioStTransceiver.mcs_join := fun _ _ _ _ => Resolves (Some "mcs-user");
     ClientAudioStTransceiver.mcs_publish := fun _ _ _ _ => Resolves (Some "media-1");
     ClientAudioStTransceiver.mcs_consume := fun _ _ _ => Resolves "answer";
     ClientAudioStTransceiver.mcs_connect := fun _ _ _ => Resolves tt;
     ClientAudioStTransceiver.mcs_addIceCandidate := fun _ _ => Rejects rejected;
     ClientAudioStTransceiver.mcs_unpublish := fun _ _ => Resolves tt;
     ClientAudioStTransceiver.bridge_start := fun _ => Resolves (Some "bridge-1");
     ClientAudioStTransceiver._handleError := fun _ e _ _ => e;
     ClientAudioStTransceiver._assembleStreamName :=
       fun d u m => String.append d (String.append "|" (String.append u (String.append "|" m)));
     ClientAudioStTransceiver.MEDIA_FLOW_TIMEOUT_DURATION := 15000;
     ClientAudioStTransceiver.MEDIA_STATE_TIMEOUT_DURATION := 30000;
     ClientAudioStTransceiver.AUDIO_RTP_HDR_EXTS := "";
     ClientAudioStTransceiver.C_WEBRTC := "WebRtcEndpoint";
     ClientAudioStTransceiver.C_MEDIA_SERVER_OFFLINE := "1000";
     ClientAudioStTransceiver.errors_MEDIA_SERVER_OFFLINE := offline;
     ClientAudioStTransceiver.errors_2211 := "MEDIA_TIMEOUT" |}.

(** The answering MCS, except that it refuses to unpublish. *)
Definition failingUnpublish : ClientAudioStTransceiver.Env :=
  {| ClientAudioStTransceiver.mcs_waitForConnection := Resolves true;
     ClientAudioStTransceiver.mcs_join := fun _ _ _ _ => Resolves (Some "mcs-user");
     ClientAudioStTransceiver.mcs_publish := fun _ _ _ _ => Resolves (Some "media-1");
     ClientAudioStTransceiver.mcs_consume := fun _ _ _ => Resolves "answer";
     ClientAudioStTransceiver.mcs_connect := fun _ _ _ => Resolves tt;
     ClientAudioStTransceiver.mcs_addIceCandidate := fun _ _ => Resolves tt;
     ClientAudioStTransceiver.mcs_unpublish := fun _ _ => Rejects rejected;
     ClientAudioStTransceiver.bridge_start := fun _ => Resolves (Some "bridge-1");
     ClientAudioStTransceiver._handleError := fun _ e _ _ => e;
     ClientAudioStTransceiver._assembleStreamName :=
       fun d u m => String.append d (String.append "|" (String.append u (String.append "|" m)));
     ClientAudioStTransceiver.MEDIA_FLOW_TIMEOUT_DURATION := 15000;
     ClientAudioStTransceiver.MEDIA_STATE_TIMEOUT_DURATION := 30000;
     ClientAudioStTransceiver.AUDIO_RTP_HDR_EXTS := "";
     ClientAudioStTransceiver.C_WEBRTC := "WebRtcEndpoint";
     ClientAudioStTransceiver.C_MEDIA_SERVER_OFFLINE := "1000";
     ClientAudioStTransceiver.errors_MEDIA_SERVER_OFFLINE := offline;
     ClientAudioStTransceiver.errors_2211 := "MEDIA_TIMEOUT" |}.

(** A freshly constructed transceiver in an empty world. *)
Definition endpoint : ClientAudioStTransceiver.t * World :=
  ClientAudioStTransceiver.new 1 "meeting" "72013" "w_user" "conn-1" "caller"
    "mediasoup" emptyWorld.

(** The same, after one candidate arrived from the client. *)
Definition endpointWithCandidate : ClientAudioStTransceiver.t * World :=
  ClientAudioStTransceiver.onIceCandidate "candidate-1" endpoint.

(** The transceiver once started against the answering MCS. *)
Definition startedEndpoint : ClientAudioStTransceiver.t * World :=
  fst (@ClientAudioStTransceiver.start answering "offer" endpoint).

(** Media events of the started transceiver. *)
Definition mediaEvent (name details : string) : ClientAudioStTransceiver.MediaEvent :=
  {| ClientAudioStTransceiver.ev_mediaId := Some "media-1";
     ClientAudioStTransceiver.ev_name := name;
     ClientAudioStTransceiver.ev_details := details |}.

(** The started transceiver after a NOT_FLOWING notice. *)
Definition stalledEndpoint : ClientAudioStTransceiver.t * World :=
  @ClientAudioStTransceiver.deliver
    (@ClientAudioStTransceiver._mediaStateWebRTC answering
       (mediaEvent "MediaFlowInStateChange" "NOT_FLOWING") (Some "media-1"))
    startedEndpoint.

(** A session table holding one stopped video session. *)
Definition stoppedVideo : VideoManager.Video :=
  {| VideoManager.v_meetingId := Some "meeting";
     VideoManager.v_id := Some "c1";
     VideoManager.v_role := Some "share";
     VideoManager.v_connectionId := Some "conn-1";
     VideoManager.v_voiceBridge := Some "72013";
     VideoManager.v_userId := Some "u1";
     VideoManager.v_sessionId := "u1-c1-share";
     VideoManager.v_record := true;
     VideoManager.v_mediaServer := "mediasoup";
     VideoManager.v_status := VideoManager.MEDIA_STOPPED |}.

Definition stoppedManager : VideoManager.t :=
  VideoManager.set_nextOid (fun _ => 1)
    (VideoManager.set_heap (fun h => <[0 := stoppedVideo]> h)
       (VideoManager.set_sessions (fun _ => [("u1-c1-share", 0)])
          VideoManager.new)).

Definition message (id : string) : VideoManager.Message :=
  {| VideoManager.id := Some id;
     VideoManager.connectionId := Some "conn-1";
     VideoManager.userId := Some "u1";
     VideoManager.meetingId := Some "meeting";
     VideoManager.voiceBridge := Some "72013";
     VideoManager.role := Some "share";
     VideoManager.cameraId := Some "c1";
     VideoManager.sdpOffer := Some "offer";
     VideoManager.bitrate := None;
     VideoManager.record := None;
     VideoManager.mediaServer := None;
     VideoManager.candidate := Some "candidate-1";
     VideoManager.answer := None |}.

(** A manager with two candidates waiting for a key that has no session. *)
Definition waitingManager : VideoManager.t :=
  VideoManager.handleIceCandidate (message "onIceCandidate")
    (VideoManager.handleIceCandidate (message "onIceCandidate")
       VideoManager.new).

Definition audioConfig : AudioSession.Config :=
  {| AudioSession.EJECT_ON_USER_LEFT := true;
     AudioSession.FULLAUDIO_ENABLED := true;
     AudioSession.C_USER_LEFT_MEETING_2x := "UserLeftMeetingEvtMsg";
     AudioSession.SFU_INVALID_REQUEST :=
       {| err_code := 2203; err_message := "SFU_INVALID_REQUEST" |} |}.

(** A session whose transceiver endpoint has been started. *)
Definition session : AudioSession.t * World :=
  fst (@AudioSession.transceive answering audioConfig 2 "offer"
         (@AudioSession.new audioConfig 1 "w_user-72013-sendrecv" "meeting"
            "72013" "w_user" "conn-1" "caller" "sendrecv" "mediasoup"
            emptyWorld)).

(** What happens to the sample session before it is stopped: it is
    started, a candidate arrives, the media stops flowing. *)
Definition sessionLife : list AudioSession.Event :=
  [ AudioSession.Transceive 2 "offer";
    AudioSession.RelayRegistered;
    AudioSession.CandidateArrives "candidate-1";
    AudioSession.MediaStateEvent
      (mediaEvent "MediaFlowInStateChange" "NOT_FLOWING") (Some "media-1") ].

(** The same session, constructed and not started yet. *)
Definition sendrecvSession : AudioSession.t * World :=
  @AudioSession.new audioConfig 1 "w_user-72013-sendrecv" "meeting"
    "72013" "w_user" "conn-1" "caller" "sendrecv" "mediasoup" emptyWorld.

Definition denied : SfuError := {| err_code := 2205; err_message := "PERMISSION_DENIED" |}.
Definition invalidRequest : SfuError := {| err_code := 2203; err_message := "SFU_INVALID_REQUEST" |}.
Definition negotiationFailed : SfuError := {| err_code := 2210; err_message := "MEDIA_SERVER_GENERIC_ERROR" |}.

(** Collaborators of the video manager: [grant] says whether the
    permission oracle grants, [starts] whether [video.start] resolves. *)
Definition videoEnv (grant starts : bool) : VideoManager.Env :=
  {| VideoManager.MediaSpecs := list Z;
     VideoManager.DEFAULT_MEDIA_SPECS := [];
     VideoManager.addBwToSpecMainType := fun spec b => b :: spec;
     VideoManager.VIDEO_MEDIA_SERVER := "mediasoup";
     VideoManager.WS_STRICT_HEADER_PARSING := false;
     VideoManager.errors_SFU_INVALID_REQUEST := invalidRequest;
     VideoManager.errors_MEDIA_SERVER_OFFLINE := offline;
     VideoManager.errors_reason := fun _ => "reason";
     VideoManager.explodeUserInfoHeader := fun m => Resolves m;
     VideoManager.getCamBroadcastPermission :=
       fun _ _ _ _ => if grant then Resolves tt else Rejects denied;
     VideoManager.getCamSubscribePermission :=
       fun _ _ _ _ => if grant then Resolves tt else Rejects denied;
     VideoManager.Video_initial_status := VideoManager.MEDIA_STOPPED;
     VideoManager.Video_start :=
       fun _ _ _ =>
         if starts then (VideoManager.MEDIA_STARTED, Resolves "answer")
         else (VideoManager.MEDIA_STOPPED, Rejects negotiationFailed);
     VideoManager.Video_stop := fun _ => (VideoManager.MEDIA_STOPPED, Resolves tt);
     VideoManager.Video_processAnswer := fun _ _ => Resolves tt |}.

End Samples.

(** * Properties *)

(** ** ClientAudioStTransceiver *)

Module TransceiverProofs.
Import Runtime ClientAudioStTransceiver.

Section Ice.
Context `{Env}.

Lemma flushCandidatesQueue_spec (q : list string) (m : option string) (w : World) :
  flushCandidatesQueue q m w
  = set_calls (fun l => l ++ map (AddIceCandidate m) q) w.
Proof.
  unfold flushCandidatesQueue.
  revert w; induction q as [|c q IH]; intros w; simpl.
  - destruct w; unfold set_calls; simpl. by rewrite app_nil_r.
  - rewrite IH. destruct w; unfold call, set_calls; simpl.
    by rewrite <- app_assoc.
Qed.

Lemma buffered_while_no_mediaId (cs : list string) (x : t) (w : World) :
  Js.truthy (mediaId x) = false ->
  fold_left (fun s c => onIceCandidate c s) cs (x, w)
  = (set__candidatesQueue (_candidatesQueue x ++ cs) x, w).
Proof.
  revert x; induction cs as [|c cs IH]; intros x Hx; simpl.
  - rewrite app_nil_r. by destruct x.
  - unfold onIceCandidate at 2; simpl. rewrite Hx.
    rewrite IH by (by destruct x).
    simpl. by rewrite <- app_assoc.
Qed.

(** C2. While the endpoint has no media id, [onIceCandidate] appends the
    candidate to the pending queue and nothing reaches the MCS. Once the
    media id is known, [_flushCandidatesQueue] forwards exactly the
    pending candidates, in arrival order, and leaves the queue empty; it
    is one synchronous step, so no state in between can be observed. With
    a media id present, [onIceCandidate] forwards its candidate to
    [mcs.addIceCandidate], after whatever was still pending. *)
Theorem pending_ice_forwarded_in_arrival_order
    (x : t) (w : World) (arrivals : list string)
    (published : option string) (c : string) :
  Js.truthy (mediaId x) = false ->
  Js.truthy published = true ->
  let buffered := fold_left (fun s c => onIceCandidate c s) arrivals (x, w) in
  let ready := (set_mediaId published (fst buffered), snd buffered) in
  let pending := _candidatesQueue x ++ arrivals in
  buffered = (set__candidatesQueue pending x, w)
  /\ _flushCandidatesQueue ready
     = (set__candidatesQueue [] (fst ready),
        set_calls (fun l => l ++ map (AddIceCandidate published) pending) w)
  /\ length (calls (snd (_flushCandidatesQueue ready)))
     = length (calls w) + length pending
  /\ onIceCandidate c ready
     = (set__candidatesQueue [] (fst ready),
        set_calls
          (fun l => l ++ map (AddIceCandidate published) pending
                      ++ [AddIceCandidate published c]) w)
  /\ onIceCandidate c (_flushCandidatesQueue ready)
     = (set__candidatesQueue [] (fst ready),
        set_calls
          (fun l => l ++ map (AddIceCandidate published) pending
                      ++ [AddIceCandidate published c]) w).
Proof.
  intros Hnone Hready buffered ready pending.
  assert (Hb : buffered = (set__candidatesQueue pending x, w))
    by (by apply buffered_while_no_mediaId).
  assert (Hf : _flushCandidatesQueue ready
               = (set__candidatesQueue [] (fst ready),
                  set_calls
                    (fun l => l ++ map (AddIceCandidate published) pending) w)).
  { unfold _flushCandidatesQueue, ready. rewrite Hb. simpl. rewrite Hready.
    by rewrite flushCandidatesQueue_spec. }
  assert (Ho : forall s, Js.truthy (mediaId (fst s)) = true ->
             onIceCandidate c s
             = (fst (_flushCandidatesQueue s),
                call (AddIceCandidate (mediaId (fst (_flushCandidatesQueue s))) c)
                  (snd (_flushCandidatesQueue s)))).
  { intros s Hs. unfold onIceCandidate. by rewrite Hs. }
  split; [exact Hb|]. split; [exact Hf|]. split.
  - rewrite Hf. simpl. by rewrite length_app, length_map.
  - split.
    + rewrite Ho by (unfold ready; rewrite Hb; exact Hready).
      rewrite Hf. unfold ready; rewrite Hb. simpl.
      destruct w; unfold call, set_calls; simpl. by rewrite <- app_assoc.
    + rewrite Hf. rewrite Ho by (unfold ready; rewrite Hb; exact Hready).
      unfold _flushCandidatesQueue. unfold ready; rewrite Hb. simpl.
      rewrite Hready. simpl.
      destruct w; unfold call, set_calls; simpl. by rewrite <- app_assoc.
Qed.

End Ice.

(** *** Watchdogs *)

Section Watchdogs.
Context `{Env}.

Global Instance same_watchdogs_preorder : PreOrder same_watchdogs.
Proof.
  split.
  - intros s. by repeat split.
  - intros s1 s2 s3 (a1 & b1 & c1 & d1) (a2 & b2 & c2 & d2).
    repeat split; try congruence; tauto.
Qed.

Global Instance same_timers_preorder : PreOrder same_timers.
Proof.
  split.
  - intros s. by repeat split.
  - intros s1 s2 s3 (a1 & b1 & c1) (a2 & b2 & c2). repeat split; congruence.
Qed.

Lemma same_watchdogs_timers s s' : same_watchdogs s s' -> same_timers s s'.
Proof. intros (a & b & c & d). by repeat split. Qed.

Section Keeps.
Context (R : relation (t * World)) `{!PreOrder R}.

Lemma keeps_bind {A B} (m : Async (t * World) A)
    (k : A -> Async (t * World) B) :
  keeps R m -> (forall a, keeps R (k a)) -> keeps R (bind m k).
Proof.
  intros Hm Hk s. unfold bind. specialize (Hm s).
  destruct (m s) as [s' [a|e]]; simpl in *; [|exact Hm].
  etrans; [exact Hm|apply Hk].
Qed.

Lemma keeps_try_catch {A} (m : Async (t * World) A) h :
  keeps R m -> (forall e, keeps R (h e)) -> keeps R (try_catch m h).
Proof.
  intros Hm Hh s. unfold try_catch. specialize (Hm s).
  destruct (m s) as [s' [a|e]]; simpl in *; [exact Hm|].
  etrans; [exact Hm|apply Hh].
Qed.

Lemma keeps_ret {A} (a : A) : keeps R (ret a).
Proof. intros s. simpl. reflexivity. Qed.

Lemma keeps_throw {A} e : keeps R (@throw _ A e).
Proof. intros s. simpl. reflexivity. Qed.

Lemma keeps_this : keeps R this.
Proof. intros s. simpl. reflexivity. Qed.

Lemma keeps_metadata : keeps R _getFullLogMetadata.
Proof.
  intros s. unfold _getFullLogMetadata.
  destruct (transceiverBridge (fst s)); simpl; reflexivity.
Qed.
End Keeps.

Lemma same_watchdogs_refl s : same_watchdogs s s.
Proof. reflexivity. Qed.

Lemma keeps_awaited {A} c (p : Promise A) : keeps same_watchdogs (awaited c p).
Proof. intros s. by repeat split. Qed.

Lemma keeps_fired c : keeps same_watchdogs (fired c).
Proof. intros s. by repeat split. Qed.

Lemma keeps_flush : keeps same_watchdogs (step _flushCandidatesQueue).
Proof.
  intros s. unfold step, modify, _flushCandidatesQueue. simpl.
  destruct (Js.truthy (mediaId (fst s))); [|apply same_watchdogs_refl].
  rewrite flushCandidatesQueue_spec. by repeat split.
Qed.


Lemma keeps_bridge_start : keeps same_watchdogs transceiverBridge_start.
Proof.
  intros s. unfold transceiverBridge_start, bind, this, gets. simpl.
  destruct (transceiverBridge (fst s)) eqn:Hb; simpl;
    [|apply same_watchdogs_refl].
  unfold awaited, update, modify; simpl.
  destruct (bridge_start (mediaId (fst s))); simpl;
    repeat split; simpl; try done; rewrite Hb; discriminate.
Qed.

Lemma keeps_bridgeMediaId : keeps same_watchdogs transceiverBridge_bridgeMediaId.
Proof.
  intros s. unfold transceiverBridge_bridgeMediaId, bind, this, gets. simpl.
  destruct (transceiverBridge (fst s)); apply same_watchdogs_refl.
Qed.

Lemma keeps_update (f : t -> t) :
  (forall x, _mediaFlowingTimeout (f x) = _mediaFlowingTimeout x
             /\ _mediaStateTimeout (f x) = _mediaStateTimeout x
             /\ transceiverBridge (f x) = transceiverBridge x) ->
  keeps same_watchdogs (update f).
Proof.
  intros Hf s. unfold update, modify. simpl.
  destruct (Hf (fst s)) as (a & b & c). repeat split; simpl; congruence.
Qed.

Ltac keeps :=
  repeat first
    [ apply keeps_bridge_start | apply keeps_bridgeMediaId
    | apply keeps_metadata; tc_solve | apply keeps_flush
    | apply keeps_this; tc_solve
    | apply keeps_awaited | apply keeps_fired
    | apply keeps_ret; tc_solve | apply keeps_throw; tc_solve
    | apply keeps_update; intros ?; by repeat split
    | apply keeps_try_catch; [tc_solve| |intros ?]
    | apply keeps_bind; [tc_solve| |intros ?] ].

Lemma keeps_negotiate sdpOffer :
  keeps same_watchdogs (_negotiateTransceiver sdpOffer).
Proof. unfold _negotiateTransceiver. keeps. Qed.

Lemma keeps_start sdpOffer : keeps same_watchdogs (start sdpOffer).
Proof.
  unfold start.
  apply keeps_bind; [tc_solve|apply keeps_awaited|]. intros isConnected.
  destruct isConnected; simpl; keeps.
Qed.

Lemma watchdogs_ok_same s s' :
  same_watchdogs s s' -> watchdogs_ok s -> watchdogs_ok s'.
Proof.
  intros (Hf & Hs & Ht & Hb) (H1 & H2 & H3).
  unfold watchdogs_ok, watchdog_ok, armed in *.
  rewrite Hf, Hs, Ht. split; [done|]. split; [done|].
  intros Hn. apply H3, Hb, Hn.
Qed.

Lemma filter_swap {A} (f g : A -> bool) (l : list A) :
  List.filter f (List.filter g l) = List.filter g (List.filter f l).
Proof.
  induction l as [|a l IH]; simpl; [done|].
  destruct (f a) eqn:Ef, (g a) eqn:Eg; simpl; rewrite ?Ef, ?Eg; congruence.
Qed.

Lemma armed_clearTimeout k h w :
  armed k (clearTimeout h w)
  = List.filter (fun x => negb (Nat.eqb (handle x) h)) (armed k w).
Proof. unfold armed, clearTimeout. simpl. apply filter_swap. Qed.

Lemma watchdog_ok_clearTimeout k f h w :
  watchdog_ok k f w -> watchdog_ok k f (clearTimeout h w).
Proof.
  unfold watchdog_ok. rewrite armed_clearTimeout.
  destruct f as [h'|].
  - intros [->|[d ->]]; simpl; [by left|].
    destruct (negb (Nat.eqb h' h)); [right; by exists d|by left].
  - by intros ->.
Qed.

Lemma watchdog_cleared k h w :
  watchdog_ok k (Some h) w -> armed k (clearTimeout h w) = [].
Proof.
  unfold watchdog_ok. rewrite armed_clearTimeout.
  intros [->|[d ->]]; simpl; [done|]. by rewrite Nat.eqb_refl.
Qed.

Lemma armed_setTimeout_other k k' d w :
  k <> k' -> armed k (snd (setTimeout k' d w)) = armed k w.
Proof.
  intros Hk. unfold armed, setTimeout. simpl.
  rewrite List.filter_app. simpl.
  destruct k, k'; try done; by rewrite app_nil_r.
Qed.

Lemma armed_setTimeout_same k d w :
  armed k (snd (setTimeout k d w))
  = armed k w ++ [{| handle := nextHandle w; watchdog := k; duration := d |}].
Proof.
  unfold armed, setTimeout. simpl. rewrite List.filter_app. simpl. by destruct k.
Qed.

Lemma clearMediaFlowingTimeout_ok s :
  watchdogs_ok s ->
  watchdogs_ok (clearMediaFlowingTimeout s)
  /\ _mediaFlowingTimeout (fst (clearMediaFlowingTimeout s)) = None
  /\ armed MediaFlow (snd (clearMediaFlowingTimeout s)) = [].
Proof.
  intros (H1 & H2 & H3). unfold clearMediaFlowingTimeout.
  destruct (_mediaFlowingTimeout (fst s)) as [h|] eqn:E; simpl.
  - split; [|split; [done|by apply watchdog_cleared]].
    split; [|split].
    + change (armed MediaFlow (clearTimeout h (snd s)) = []).
      by apply watchdog_cleared.
    + apply watchdog_ok_clearTimeout, H2.
    + simpl. intros Hb. destruct (H3 Hb) as [Hx Hy]. split; [done|]. discriminate || exact Hy.
  - split; [|split; [done|exact H1]].
    unfold watchdogs_ok. rewrite E. split; [exact H1|]. split; [exact H2|exact H3].
Qed.

Lemma clearMediaStateTimeout_ok s :
  watchdogs_ok s ->
  watchdogs_ok (clearMediaStateTimeout s)
  /\ _mediaStateTimeout (fst (clearMediaStateTimeout s)) = None
  /\ armed MediaState (snd (clearMediaStateTimeout s)) = [].
Proof.
  intros (H1 & H2 & H3). unfold clearMediaStateTimeout.
  destruct (_mediaStateTimeout (fst s)) as [h|] eqn:E; simpl.
  - split; [|split; [done|by apply watchdog_cleared]].
    split; [|split].
    + apply watchdog_ok_clearTimeout, H1.
    + change (armed MediaState (clearTimeout h (snd s)) = []).
      by apply watchdog_cleared.
    + simpl. intros Hb. destruct (H3 Hb) as [Hx Hy]. split; [done|]. discriminate || exact Hy.
  - split; [|split; [done|exact H2]].
    unfold watchdogs_ok. rewrite E. split; [exact H1|]. split; [exact H2|exact H3].
Qed.

Lemma setMediaFlowingTimeout_ok s :
  watchdogs_ok s -> watchdogs_ok (deliver setMediaFlowingTimeout s).
Proof.
  intros (H1 & H2 & H3).
  unfold deliver, setMediaFlowingTimeout, bind, this, gets, _getFullLogMetadata,
    step, modify. simpl.
  destruct (_mediaFlowingTimeout (fst s)) as [h|] eqn:E; simpl.
  { unfold watchdogs_ok. rewrite E. split; [exact H1|]. split; [exact H2|exact H3]. }
  destruct (transceiverBridge (fst s)) eqn:Eb; simpl.
  2: { unfold watchdogs_ok. rewrite E, Eb.
       split; [exact H1|]. split; [exact H2|exact H3]. }
  split; [|split]; simpl.
  - right. exists MEDIA_FLOW_TIMEOUT_DURATION.
    pose proof (armed_setTimeout_same MediaFlow MEDIA_FLOW_TIMEOUT_DURATION (snd s)) as Ha.
    simpl in Ha. rewrite Ha. by rewrite H1.
  - pose proof (armed_setTimeout_other MediaState MediaFlow
                  MEDIA_FLOW_TIMEOUT_DURATION (snd s)) as Ha.
    simpl in Ha. unfold watchdog_ok. rewrite Ha by done. exact H2.
  - rewrite Eb. discriminate.
Qed.

Lemma setMediaStateTimeout_ok s :
  watchdogs_ok s -> watchdogs_ok (deliver setMediaStateTimeout s).
Proof.
  intros (H1 & H2 & H3).
  unfold deliver, setMediaStateTimeout, bind, this, gets, _getFullLogMetadata,
    step, modify. simpl.
  destruct (_mediaStateTimeout (fst s)) as [h|] eqn:E; simpl.
  { unfold watchdogs_ok. rewrite E. split; [exact H1|]. split; [exact H2|exact H3]. }
  destruct (transceiverBridge (fst s)) eqn:Eb; simpl.
  2: { unfold watchdogs_ok. rewrite E, Eb.
       split; [exact H1|]. split; [exact H2|exact H3]. }
  split; [|split]; simpl.
  - pose proof (armed_setTimeout_other MediaFlow MediaState
                  MEDIA_STATE_TIMEOUT_DURATION (snd s)) as Ha.
    simpl in Ha. unfold watchdog_ok. rewrite Ha by done. exact H1.
  - right. exists MEDIA_STATE_TIMEOUT_DURATION.
    pose proof (armed_setTimeout_same MediaState MEDIA_STATE_TIMEOUT_DURATION (snd s)) as Ha.
    simpl in Ha. rewrite Ha. by rewrite H2.
  - rewrite Eb. discriminate.
Qed.

(** *** Every event keeps the watchdogs in order *)

Lemma preserves_bind {A B} (m : Async (t * World) A) (k : A -> Async (t * World) B) :
  preserves m -> (forall a, preserves (k a)) -> preserves (bind m k).
Proof.
  intros Hm Hk s Hs. unfold bind. specialize (Hm s Hs).
  destruct (m s) as [s' [a|e]]; simpl in *; [by apply Hk|exact Hm].
Qed.

Lemma preserves_keeps {A} (m : Async (t * World) A) :
  keeps same_watchdogs m -> preserves m.
Proof. intros Hm s Hs. eapply watchdogs_ok_same; [apply Hm|exact Hs]. Qed.

Lemma preserves_ret {A} (a : A) : preserves (ret a).
Proof. by intros s Hs. Qed.

Lemma preserves_metadata : preserves _getFullLogMetadata.
Proof. apply preserves_keeps, keeps_metadata; tc_solve. Qed.

Lemma preserves_send f : preserves (send f).
Proof. apply preserves_keeps. intros s. by repeat split. Qed.

Lemma preserves_step f :
  (forall s, watchdogs_ok s -> watchdogs_ok (f s)) -> preserves (step f).
Proof. intros Hf s Hs. by apply Hf. Qed.

Lemma preserves_setMediaFlowingTimeout : preserves setMediaFlowingTimeout.
Proof. exact setMediaFlowingTimeout_ok. Qed.

Lemma preserves_setMediaStateTimeout : preserves setMediaStateTimeout.
Proof. exact setMediaStateTimeout_ok. Qed.

Ltac preserves :=
  repeat first
    [ apply preserves_metadata | apply preserves_send | apply preserves_ret
    | apply preserves_setMediaFlowingTimeout
    | apply preserves_setMediaStateTimeout
    | apply preserves_step; intros ? ?;
      first [ by apply clearMediaFlowingTimeout_ok
            | by apply clearMediaStateTimeout_ok ]
    | apply preserves_bind; [|intros ?]
    | match goal with
      | |- preserves (if ?b then _ else _) => destruct b
      end ].















End Watchdogs.


(** *** Start *)

Section Start.
Context `{Env}.

Lemma calls_after (l : list Call) (k : list Call) :
  drop (length l) (l ++ k) = k.
Proof. apply drop_app_length. Qed.

Ltac reduce Hb :=
  repeat (progress (cbn -[flushCandidatesQueue drop]; rewrite ?Hb)).

Ltac close Hdrop :=
  rewrite <- ?app_assoc; rewrite Hdrop; by repeat split.

(** C4, as the code has it. On an endpoint that has its bridge, as every
    endpoint has from its construction to its [stop], [start] calls, in
    this order, [waitForConnection], [join], [publish] (whose media id it
    records), [bridge.start], [consume], [connect] in both directions, the
    two event subscriptions, then forwards the pending candidates, and
    returns the answer of [consume]. It stops at the first of
    [waitForConnection], [join], [publish], [bridge.start], [consume]
    that fails, having called nothing after it, and rejects: with
    MEDIA_SERVER_OFFLINE when [waitForConnection] yields false, with the
    rejection itself when [waitForConnection] rejects, with the normalized
    error for the steps after it. The forwarding of the pending candidates
    is not awaited: whatever the [addIceCandidate] calls settle to, and
    the [connect] calls likewise, [start] returns the answer. *)
Theorem start_steps_in_order
    (x : t) (w : World) (sdpOffer : string) (b0 : Bridge) :
  transceiverBridge x = Some b0 ->
  let r := start sdpOffer (x, w) in
  let made := callsOfStart sdpOffer (x, w) in
  let normalized e := _handleError LOG_PREFIX e "sendrecv" (userId x) in
  let steps := negotiation x sdpOffer in
  match mcs_waitForConnection with
  | Rejects e => made = [WaitForConnection] /\ snd r = Rejects e
  | Resolves false =>
      made = [WaitForConnection]
      /\ snd r = Rejects (normalized errors_MEDIA_SERVER_OFFLINE)
  | Resolves true =>
      match mcs_join (voiceBridge x) "SFU" (userId x) true with
      | Rejects e =>
          made = take 2 (steps None None None) /\ snd r = Rejects (normalized e)
      | Resolves u =>
          let inner e :=
            normalized (_handleError LOG_PREFIX e "sendrecv" (connectionId x)) in
          match mcs_publish u (voiceBridge x) C_WEBRTC (publishOptions sdpOffer x) with
          | Rejects e =>
              made = take 3 (steps u None None) /\ snd r = Rejects (inner e)
          | Resolves m =>
              match bridge_start m with
              | Rejects e =>
                  made = take 4 (steps u m None) /\ snd r = Rejects (inner e)
                  /\ mediaId (fst (fst r)) = m
              | Resolves b =>
                  match mcs_consume b m "AUDIO" with
                  | Rejects e =>
                      made = take 5 (steps u m b) /\ snd r = Rejects (inner e)
                  | Resolves answer =>
                      made
                      = steps u m b
                        ++ (if Js.truthy m
                            then map (AddIceCandidate m) (_candidatesQueue x)
                            else [])
                      /\ snd r = Resolves answer
                      /\ mediaId (fst (fst r)) = m
                      /\ _candidatesQueue (fst (fst r))
                         = (if Js.truthy m then [] else _candidatesQueue x)
                  end
              end
          end
      end
  end.
Proof.
  intros Hb r made normalized steps.
  unfold made, r, normalized, steps, negotiation, callsOfStart, start,
    _negotiateTransceiver, publishOptions,
    transceiverBridge_start, transceiverBridge_bridgeMediaId,
    _getFullLogMetadata, _flushCandidatesQueue,
    try_catch, bind, this, gets, awaited, update, modify, fired, step, throw, ret.
  pose proof calls_after as Hdrop.
  reduce Hb.
  destruct mcs_waitForConnection as [[|]|e]; reduce Hb; [|close Hdrop..].
  destruct (mcs_join _ _ _ _) as [u|e]; reduce Hb; [|close Hdrop].
  destruct (mcs_publish _ _ _ _) as [m|e]; reduce Hb; [|close Hdrop].
  destruct (bridge_start m) as [b|e]; reduce Hb; [|close Hdrop].
  destruct (mcs_consume b m "AUDIO") as [answer|e]; reduce Hb; [|close Hdrop].
  destruct (Js.truthy m); reduce Hb;
    rewrite ?flushCandidatesQueue_spec; reduce Hb; close Hdrop.
Qed.

End Start.

(** *** What start does to the shared emitters *)

Section Listeners.
Context `{Env}.

Global Instance same_listeners_preorder : PreOrder same_listeners.
Proof.
  split.
  - intros s. by repeat split.
  - intros s1 s2 s3 (a1 & b1 & c1) (a2 & b2 & c2).
    split; [congruence|]. split; [congruence|tauto].
Qed.

Lemma listeners_awaited {A} c (p : Promise A) : keeps same_listeners (awaited c p).
Proof. intros s. by repeat split. Qed.

Lemma listeners_fired c : keeps same_listeners (fired c).
Proof. intros s. by repeat split. Qed.

Lemma listeners_flush : keeps same_listeners (step _flushCandidatesQueue).
Proof.
  intros s. unfold step, modify, _flushCandidatesQueue. simpl.
  destruct (Js.truthy (mediaId (fst s))); [|reflexivity].
  rewrite flushCandidatesQueue_spec. by repeat split.
Qed.

Lemma listeners_onIceCandidate c s : same_listeners s (onIceCandidate c s).
Proof.
  unfold onIceCandidate, _flushCandidatesQueue.
  destruct (Js.truthy (mediaId (fst s))); simpl.
  - rewrite flushCandidatesQueue_spec. by repeat split.
  - by repeat split.
Qed.

Lemma listeners_bridge_start : keeps same_listeners transceiverBridge_start.
Proof.
  intros s. unfold transceiverBridge_start, bind, this, gets. simpl.
  destruct (transceiverBridge (fst s)) eqn:Hb; simpl; [|reflexivity].
  unfold awaited, update, modify; simpl.
  destruct (bridge_start (mediaId (fst s))); simpl;
    split; try done; split; try done; simpl; intros; congruence.
Qed.

Lemma listeners_bridgeMediaId : keeps same_listeners transceiverBridge_bridgeMediaId.
Proof.
  intros s. unfold transceiverBridge_bridgeMediaId, bind, this, gets. simpl.
  destruct (transceiverBridge (fst s)); reflexivity.
Qed.

Lemma listeners_update (f : t -> t) :
  (forall x, transceiverBridge (f x) = transceiverBridge x) ->
  keeps same_listeners (update f).
Proof.
  intros Hf s. unfold update, modify. simpl.
  split; [done|]. split; [done|]. simpl. by rewrite Hf.
Qed.

Ltac listeners :=
  repeat first
    [ apply listeners_bridge_start | apply listeners_bridgeMediaId
    | apply keeps_metadata; tc_solve | apply listeners_flush
    | apply keeps_this; tc_solve
    | apply listeners_awaited | apply listeners_fired
    | apply keeps_ret; tc_solve | apply keeps_throw; tc_solve
    | apply listeners_update; intros ?; reflexivity
    | apply keeps_try_catch; [tc_solve| |intros ?]
    | apply keeps_bind; [tc_solve| |intros ?] ].

Lemma listeners_start sdpOffer : keeps same_listeners (start sdpOffer).
Proof.
  unfold start.
  apply keeps_bind; [tc_solve|apply listeners_awaited|]. intros isConnected.
  destruct isConnected; simpl; listeners.
Qed.

End Listeners.

Lemma start_steps_in_order_witness :
  transceiverBridge (fst Samples.endpoint) = Some {| bridgeMediaId := None |}
  /\ snd (@start Samples.answering "offer"
            (fst Samples.endpoint, snd Samples.endpoint))
     = Resolves "answer".
Proof.
  split; [reflexivity|].
  exact (proj1 (proj2 (@start_steps_in_order Samples.answering
                         (fst Samples.endpoint) (snd Samples.endpoint) "offer"
                         _ eq_refl))).
Defined.

(** C4, as stated, fails: with one candidate pending and an MCS that
    rejects ICE candidates, [start] makes the [addIceCandidate] call, the
    call fails, and [start] still resolves. *)
Lemma start_swallows_ice_failure :
  ~ @failures_propagate Samples.rejectingIce "offer" Samples.endpointWithCandidate.
Proof.
  intros Hp.
  specialize (Hp (AddIceCandidate (Some "media-1") "candidate-1")).
  assert (Hin : In (AddIceCandidate (Some "media-1") "candidate-1")
                  (drop (length (calls (snd Samples.endpointWithCandidate)))
                     (calls (snd (fst (@start Samples.rejectingIce "offer"
                                         Samples.endpointWithCandidate))))))
    by (vm_compute; auto 20).
  specialize (Hp Hin eq_refl). vm_compute in Hp. discriminate.
Qed.

Lemma pending_ice_forwarded_in_arrival_order_witness :
  Js.truthy (mediaId (fst Samples.endpoint)) = false
  /\ Js.truthy (Some "media-1") = true
  /\ _flushCandidatesQueue
       (set_mediaId (Some "media-1")
          (fst (fold_left (fun s c => onIceCandidate c s) ["c1"; "c2"]
                  (fst Samples.endpoint, snd Samples.endpoint))),
        snd Samples.endpoint)
     = (set_mediaId (Some "media-1") (fst Samples.endpoint),
        set_calls
          (fun _ => [AddIceCandidate (Some "media-1") "c1";
                     AddIceCandidate (Some "media-1") "c2"])
          (snd Samples.endpoint)).
Proof.
  split; [reflexivity|]. split; [reflexivity|].
  destruct (pending_ice_forwarded_in_arrival_order
              (fst Samples.endpoint) (snd Samples.endpoint) ["c1"; "c2"]
              (Some "media-1") "c3" eq_refl eq_refl) as (Hb & Hf & _).
  rewrite Hb in Hf. rewrite Hb. exact Hf.
Defined.

(** *** The sample endpoint at work *)

Example start_trace :
  calls (snd (fst (@start Samples.answering "offer" Samples.endpointWithCandidate)))
  = [ WaitForConnection;
      Join "72013" "SFU" "w_user" true;
      Publish (Some "mcs-user") "72013" "WebRtcEndpoint"
        (@publishOptions Samples.answering "offer" (fst Samples.endpoint));
      BridgeStart (Some "media-1");
      Consume (Some "bridge-1") (Some "media-1") "AUDIO";
      Connect (Some "media-1") [Some "bridge-1"] "AUDIO";
      Connect (Some "bridge-1") [Some "media-1"] "AUDIO";
      OnEvent MEDIA_STATE (Some "media-1");
      OnEvent MEDIA_STATE_ICE (Some "media-1");
      AddIceCandidate (Some "media-1") "candidate-1" ].
Proof. vm_compute. reflexivity. Qed.

Example not_flowing_twice_arms_once :
  timers
    (snd (@life Samples.answering
            [ Start "offer";
              MediaStateEvent
                {| ev_mediaId := Some "media-1";
                   ev_name := "MediaFlowInStateChange";
                   ev_details := "NOT_FLOWING" |} (Some "media-1");
              MediaStateEvent
                {| ev_mediaId := Some "media-1";
                   ev_name := "MediaFlowOutStateChange";
                   ev_details := "NOT_FLOWING" |} (Some "media-1") ]
            Samples.endpoint))
  = [{| handle := 0; watchdog := MediaFlow; duration := 15000 |}].
Proof. vm_compute. reflexivity. Qed.

Example flowing_disarms_and_tells_the_client :
  let s := @life Samples.answering
             [ Start "offer";
               MediaStateEvent
                 {| ev_mediaId := Some "media-1";
                    ev_name := "MediaFlowInStateChange";
                    ev_details := "NOT_FLOWING" |} (Some "media-1");
               MediaStateEvent
                 {| ev_mediaId := Some "media-1";
                    ev_name := "MediaFlowInStateChange";
                    ev_details := "FLOWING" |} (Some "media-1") ]
             Samples.endpoint in
  timers (snd s) = []
  /\ frames (snd s) = [WebRTCAudioSuccess "conn-1" "MEDIA_FLOWING"].
Proof. vm_compute. by split. Qed.

Example expired_watchdog_reports_2211 :
  frames
    (snd (@life Samples.answering
            [ Start "offer";
              MediaStateEvent
                {| ev_mediaId := Some "media-1";
                   ev_name := "MediaStateChanged";
                   ev_details := "DISCONNECTED" |} (Some "media-1");
              TimerExpires 0 ]
            Samples.endpoint))
  = [WebRTCAudioError "conn-1" 2211 "MEDIA_TIMEOUT"].
Proof. vm_compute. reflexivity. Qed.

(** *** What each method leaves alone *)

Section Frames.
Context `{Env}.

Global Instance unchanged_preorder {B} (f : t * World -> B) :
  PreOrder (unchanged f).
Proof.
  split; [by intros s|].
  intros s1 s2 s3 H1 H2. unfold unchanged in *. congruence.
Qed.

Global Instance calling_preorder (P : Call -> bool) : PreOrder (calling P).
Proof.
  split.
  - intros s. exists []. by rewrite app_nil_r.
  - intros s1 s2 s3 (l1 & H1 & P1) (l2 & H2 & P2). exists (l1 ++ l2).
    rewrite H2, H1, <- app_assoc. split; [done|].
    by rewrite forallb_app, P1, P2.
Qed.

Lemma calling_weaken (P Q : Call -> bool) s s' :
  (forall c, P c = true -> Q c = true) -> calling P s s' -> calling Q s s'.
Proof.
  intros HPQ (l & Hl & HP). exists l. split; [exact Hl|].
  apply forallb_forall. intros c Hc. apply HPQ.
  by apply (proj1 (forallb_forall P l) HP).
Qed.

Lemma calling_nothing (P : Call -> bool) s s' :
  calls (snd s') = calls (snd s) -> calling P s s'.
Proof. intros Hc. exists []. by rewrite app_nil_r. Qed.

Lemma calling_one (P : Call -> bool) c s s' :
  calls (snd s') = calls (snd s) ++ [c] -> P c = true -> calling P s s'.
Proof. intros Hc Hp. exists [c]. split; [exact Hc|]. cbn. by rewrite Hp. Qed.

Lemma calling_flush (P : Call -> bool) s :
  (forall m c, P (AddIceCandidate m c) = true) ->
  calling P s (_flushCandidatesQueue s).
Proof.
  intros HP. unfold _flushCandidatesQueue.
  destruct (Js.truthy (mediaId (fst s))); [|reflexivity].
  rewrite flushCandidatesQueue_spec. eexists. split; [reflexivity|].
  apply forallb_forall. intros c Hc. apply in_map_iff in Hc as (x & <- & _).
  apply HP.
Qed.

Lemma calling_onIceCandidate c s :
  calling isAddIceCandidate s (onIceCandidate c s).
Proof.
  unfold onIceCandidate.
  destruct (Js.truthy (mediaId (fst s))); [|by apply calling_nothing].
  etrans; [by apply calling_flush|]. by eapply calling_one.
Qed.

End Frames.

(** Splits a computation into its steps. *)
Ltac steps :=
  repeat first
    [ apply keeps_bind; [tc_solve| |intros ?]
    | apply keeps_try_catch; [tc_solve| |intros ?]
    | apply keeps_ret; tc_solve
    | apply keeps_throw; tc_solve
    | apply keeps_this; tc_solve
    | apply keeps_metadata; tc_solve
    | match goal with
      | |- keeps _ (if ?b then _ else _) => destruct b
      | |- keeps _ (match ?b with Some _ => _ | None => _ end) => destruct b
      end ].

(** A step that leaves a part of the state as it was. *)
Ltac still_eq :=
  unfold unchanged, outward, constructorFields, identity, negotiated,
    awaited, fired, update, step, send, modify, emit, _flushCandidatesQueue,
    clearMediaFlowingTimeout, clearMediaStateTimeout, _untrackMCSEvents;
  cbn;
  repeat match goal with
         | |- context [match ?x with _ => _ end] => destruct x; cbn
         | |- context [if ?x then _ else _] => destruct x; cbn
         end;
  rewrite ?flushCandidatesQueue_spec; reflexivity.

Ltac still := let s := fresh "s" in intros s; still_eq.

(** A step that makes no call, or one call of the kind allowed. *)
Ltac calling :=
  let s := fresh "s" in
  intros s;
  first
    [ apply calling_flush; intros; reflexivity
    | apply calling_nothing; still_eq
    | eapply calling_one; [reflexivity|reflexivity] ].

Section Discipline.
Context `{Env}.

Lemma start_outward sdpOffer : keeps (unchanged outward) (start sdpOffer).
Proof. unfold start, _negotiateTransceiver, transceiverBridge_start,
         transceiverBridge_bridgeMediaId. steps; still. Qed.

Lemma start_constructorFields sdpOffer :
  keeps (unchanged constructorFields) (start sdpOffer).
Proof. unfold start, _negotiateTransceiver, transceiverBridge_start,
         transceiverBridge_bridgeMediaId. steps; still. Qed.

Lemma start_calling sdpOffer :
  keeps (calling (fun c => negb (isRelease c))) (start sdpOffer).
Proof. unfold start, _negotiateTransceiver, transceiverBridge_start,
         transceiverBridge_bridgeMediaId. steps; calling. Qed.

Lemma stop_calling : keeps (calling isRelease) stop.
Proof. unfold stop. steps; calling. Qed.

Lemma stop_outward :
  keeps (unchanged (fun s => (frames (snd s), emitted (snd s)))) stop.
Proof. unfold stop. steps; still. Qed.

Lemma stop_constructorFields : keeps (unchanged constructorFields) stop.
Proof. unfold stop. steps; still. Qed.

Lemma mediaStateWebRTC_negotiated event target :
  keeps (unchanged negotiated) (_mediaStateWebRTC event target).
Proof.
  unfold _mediaStateWebRTC, _handleMediaStateChanged,
    _onSubscriberMediaFlowing, _onSubscriberMediaNotFlowing,
    _onSubscriberMediaConnected, _onSubscriberMediaDisconnected,
    setMediaFlowingTimeout, setMediaStateTimeout.
  steps; still.
Qed.

Lemma mediaStateWebRTC_identity event target :
  keeps (unchanged identity) (_mediaStateWebRTC event target).
Proof.
  unfold _mediaStateWebRTC, _handleMediaStateChanged,
    _onSubscriberMediaFlowing, _onSubscriberMediaNotFlowing,
    _onSubscriberMediaConnected, _onSubscriberMediaDisconnected,
    setMediaFlowingTimeout, setMediaStateTimeout.
  steps; still.
Qed.

Lemma timeout_callbacks_negotiated :
  keeps (unchanged negotiated) _onSubscriberMediaNotFlowingTimeout
  /\ keeps (unchanged negotiated) _onSubscriberMediaDisconnectedTimeout.
Proof.
  split; unfold _onSubscriberMediaNotFlowingTimeout,
           _onSubscriberMediaDisconnectedTimeout; steps; still.
Qed.

Lemma timerExpires_negotiated h s : unchanged negotiated s (timerExpires h s).
Proof.
  unfold timerExpires. destruct (find _ _) as [x|]; [|reflexivity].
  destruct timeout_callbacks_negotiated as [Hf Hs].
  transitivity (fst s, clearTimeout h (snd s)); [reflexivity|].
  destruct (watchdog x); [apply Hf|apply Hs].
Qed.

Lemma occur_calling e s : calling (entitled e) s (occur e s).
Proof.
  destruct e as [c|event target|h|sdpOffer|]; cbn [occur entitled].
  - apply calling_onIceCandidate.
  - apply calling_nothing.
    exact (f_equal (fun p => fst (fst (fst (fst (fst (fst p))))))
             (mediaStateWebRTC_negotiated event target s)).
  - apply calling_nothing.
    exact (f_equal (fun p => fst (fst (fst (fst (fst (fst p))))))
             (timerExpires_negotiated h s)).
  - apply start_calling.
  - apply stop_calling.
Qed.

(** X1. The call log of an endpoint only grows, and every event adds only the
    calls it is entitled to: a candidate from the client is answered with
    [addIceCandidate] calls and nothing else, media events and expired
    timers call nothing, [start] neither unpublishes nor stops the bridge,
    [stop] does nothing but unpublish and stop the bridge. Over a life of
    events, every call added is one some event of that life was entitled
    to. *)
Theorem events_make_only_their_calls (events : list Event) (s : t * World) :
  (forall e, exists made,
     calls (snd (occur e s)) = calls (snd s) ++ made
     /\ forallb (entitled e) made = true)
  /\ exists made,
       calls (snd (life events s)) = calls (snd s) ++ made
       /\ forallb (fun c => existsb (fun e => entitled e c) events) made = true.
Proof.
  split; [intros e; apply occur_calling|].
  revert s. induction events as [|e events IH]; intros s.
  - exists []. by rewrite app_nil_r.
  - cbn [life fold_left]. change (fold_left _ events ?a) with (life events a).
    destruct (occur_calling e s) as (l1 & H1 & P1).
    destruct (IH (occur e s)) as (l2 & H2 & P2).
    exists (l1 ++ l2). rewrite H2, H1, <- app_assoc. split; [done|].
    rewrite forallb_app. apply andb_true_intro. split.
    + apply forallb_forall. intros c Hc. cbn.
      by rewrite (proj1 (forallb_forall _ _) P1 c Hc).
    + apply forallb_forall. intros c Hc. cbn.
      rewrite (proj1 (forallb_forall _ _) P2 c Hc). apply orb_true_r.
Qed.

(** X2. [start] is a matter between the endpoint and the MCS: whatever the
    MCS answers, it sends no frame to the client, emits no event, arms or
    clears no timer, adds or removes no handler registered with [mcs.on]
    or on the BBB gateway (its two media subscriptions go through
    [mcs.onEvent] and are in the call log), and leaves the fields the
    constructor set as they were. *)
Theorem start_is_silent (sdpOffer : string) (s : t * World) :
  let s' := fst (start sdpOffer s) in
  frames (snd s') = frames (snd s)
  /\ emitted (snd s') = emitted (snd s)
  /\ timers (snd s') = timers (snd s)
  /\ mcsListeners (snd s') = mcsListeners (snd s)
  /\ bbbListeners (snd s') = bbbListeners (snd s)
  /\ _mediaFlowingTimeout (fst s') = _mediaFlowingTimeout (fst s)
  /\ _mediaStateTimeout (fst s') = _mediaStateTimeout (fst s)
  /\ constructorFields s' = constructorFields s.
Proof.
  cbv zeta.
  pose proof (start_outward sdpOffer s) as Ho.
  pose proof (start_constructorFields sdpOffer s) as Hc.
  destruct (keeps_start sdpOffer s) as (Hf & Hs & _).
  destruct (listeners_start sdpOffer s) as (Hm & Hb & _).
  unfold unchanged, outward in Ho. injection Ho as Hfr Hem Hti _.
  by repeat split.
Qed.

(** X3. A media event subscribed for [target] never reaches the MCS or the
    negotiation state: the call log, the media id, the MCS user id, the
    bridge, the pending candidates and the shared emitters are as before,
    and so is what the constructor's arguments say of the endpoint. An
    event of another media id changes nothing at all. The only frame a
    media event can send is the MEDIA_FLOWING success, on a FLOWING event
    of the subscribed media id. The only event it can emit is
    MEDIA_SERVER_OFFLINE, for an event of that name: the event is emitted
    on the endpoint, every handler registered for it is called in the
    order of registration (the relay of a session emits it on that
    session), and the handlers registered for it with [once] are
    registered no longer. Any other media event leaves the listeners of
    the endpoint as they were. *)
Theorem media_events_stay_local (event : MediaEvent) (target : option string)
    (s : t * World) :
  let s' := deliver (_mediaStateWebRTC event target) s in
  let offline l := String.eqb (l_event l) C_MEDIA_SERVER_OFFLINE in
  negotiated s' = negotiated s
  /\ identity s' = identity s
  /\ (ev_mediaId event <> target -> s' = s)
  /\ (frames (snd s') = frames (snd s)
      \/ ev_mediaId event = target /\ ev_details event = "FLOWING"
         /\ frames (snd s')
            = frames (snd s)
              ++ [WebRTCAudioSuccess (connectionId (fst s)) "MEDIA_FLOWING"])
  /\ (emitted (snd s') = emitted (snd s)
      /\ listeners (fst s') = listeners (fst s)
      \/ ev_mediaId event = target /\ ev_name event = C_MEDIA_SERVER_OFFLINE
         /\ emitted (snd s')
            = emitted (snd s)
              ++ (oid (fst s), C_MEDIA_SERVER_OFFLINE)
                 :: map (fun l => (l_relay l, C_MEDIA_SERVER_OFFLINE))
                      (List.filter offline (listeners (fst s)))
         /\ listeners (fst s')
            = List.filter (fun l => negb (offline l && l_once l))
                (listeners (fst s))).
Proof.
  cbv zeta.
  split; [apply mediaStateWebRTC_negotiated|].
  split; [apply mediaStateWebRTC_identity|].
  destruct s as [x w].
  destruct x as [o mi vb ui ci cl ms br mu md tf ts q ls].
  unfold deliver, _mediaStateWebRTC, _handleMediaStateChanged,
    _onSubscriberMediaFlowing, _onSubscriberMediaNotFlowing,
    _onSubscriberMediaConnected, _onSubscriberMediaDisconnected,
    setMediaFlowingTimeout, setMediaStateTimeout, _getFullLogMetadata,
    clearMediaFlowingTimeout, clearMediaStateTimeout, emit,
    send, step, bind, modify, this, gets, ret, Js.strict_eq.
  cbn.
  destruct br as [b|]; cbn; [|split; [done|]; split; by left].
  case_bool_decide as Hid; cbn; [|split; [done|]; split; by left].
  split; [done|].
  destruct (String.eqb_spec (ev_name event) "MediaStateChanged") as [Hn|Hn].
  { destruct (String.eqb (ev_details event) "CONNECTED");
      [|destruct (String.eqb (ev_details event) "DISCONNECTED")];
      cbn; destruct ts; cbn; split; by left. }
  destruct (String.eqb (ev_name event) "MediaFlowOutStateChange"
            || String.eqb (ev_name event) "MediaFlowInStateChange").
  { destruct (String.eqb_spec (ev_details event) "FLOWING") as [Hd|Hd];
      cbn; destruct tf; cbn;
      (split; [first [by left | by right]|by left]). }
  destruct (String.eqb_spec (ev_name event) C_MEDIA_SERVER_OFFLINE) as [Ho|Ho];
    cbn; (split; [by left|first [by left | by right]]).
Qed.

(** [stop] while the bridge is there, and once it is gone. *)
Lemma stop_with_bridge (x : t) (w : World) (b : Bridge) :
  transceiverBridge x = Some b ->
  let r := stop (x, w) in
  snd r = Resolves tt
  /\ transceiverBridge (fst (fst r)) = None
  /\ _candidatesQueue (fst (fst r)) = []
  /\ mediaId (fst (fst r)) = mediaId x
  /\ mcsUserId (fst (fst r)) = mcsUserId x.
Proof.
  intros Hb. destruct x as [o mi vb ui ci cl ms br mu md tf ts q ls].
  cbn in Hb. subst br.
  unfold stop, update, step, this, clearMediaFlowingTimeout,
    clearMediaStateTimeout, _untrackMCSEvents, awaited, fired,
    _getFullLogMetadata, try_catch, bind, modify, gets, ret.
  cbn.
  destruct tf, ts; cbn;
    destruct (Js.truthy md && Js.truthy mu); cbn;
    try destruct (mcs_unpublish mu md); cbn; by repeat split.
Qed.

Lemma stop_without_bridge (x : t) (w : World) :
  transceiverBridge x = None ->
  let r := stop (x, w) in
  if Js.truthy (mediaId x) && Js.truthy (mcsUserId x)
  then snd r = Rejects TypeError
       /\ calls (snd (fst r)) = calls w ++ [Unpublish (mcsUserId x) (mediaId x)]
  else snd r = Resolves tt /\ calls (snd (fst r)) = calls w.
Proof.
  intros Hb. destruct x as [o mi vb ui ci cl ms br mu md tf ts q ls].
  cbn in Hb. subst br.
  unfold stop, update, step, this, clearMediaFlowingTimeout,
    clearMediaStateTimeout, _untrackMCSEvents, awaited, fired,
    _getFullLogMetadata, try_catch, bind, modify, gets, ret.
  cbn.
  destruct tf, ts; cbn;
    destruct (Js.truthy md && Js.truthy mu); cbn;
    try destruct (mcs_unpublish mu md); cbn; by split.
Qed.

(** X4. [stop] on an endpoint that has its bridge resolves whatever
    [mcs.unpublish] answers: a rejection is swallowed. It calls
    [mcs.unpublish] exactly when both the media id and the MCS user id
    are set, then stops the bridge, sends nothing to the client, and
    leaves the endpoint without bridge and without pending candidates; the
    media id and the MCS user id stay as they were. *)
Theorem stop_swallows_unpublish_failure (x : t) (w : World) (b : Bridge) :
  transceiverBridge x = Some b ->
  let r := stop (x, w) in
  snd r = Resolves tt
  /\ calls (snd (fst r))
     = calls w
       ++ (if Js.truthy (mediaId x) && Js.truthy (mcsUserId x)
           then [Unpublish (mcsUserId x) (mediaId x)] else [])
       ++ [BridgeStop]
  /\ frames (snd (fst r)) = frames w
  /\ transceiverBridge (fst (fst r)) = None
  /\ _candidatesQueue (fst (fst r)) = []
  /\ mediaId (fst (fst r)) = mediaId x
  /\ mcsUserId (fst (fst r)) = mcsUserId x.
Proof.
  intros Hb. destruct x as [o mi vb ui ci cl ms br mu md tf ts q ls].
  cbn in Hb. subst br.
  unfold stop, update, step, this, clearMediaFlowingTimeout,
    clearMediaStateTimeout, _untrackMCSEvents, awaited, fired,
    _getFullLogMetadata, try_catch, bind, modify, gets, ret.
  cbn.
  destruct tf, ts; cbn;
    destruct (Js.truthy md && Js.truthy mu); cbn;
    try destruct (mcs_unpublish mu md); cbn;
    rewrite <- ?app_assoc; by repeat split.
Qed.

(** X5. [stop] is not made to be called twice on the endpoint itself. After
    a first [stop] the bridge is gone but the media id and the MCS user id
    are still set: a second [stop] of an endpoint that had been published
    calls [mcs.unpublish] once more and rejects with the TypeError raised
    while the log entry is assembled, without reaching the bridge; a second
    [stop] of an endpoint that had not been published calls nothing and
    resolves. *)
Theorem second_stop_unpublishes_again (x : t) (w : World) (b : Bridge) :
  transceiverBridge x = Some b ->
  let once := stop (x, w) in
  let twice := stop (fst once) in
  snd once = Resolves tt
  /\ (Js.truthy (mediaId x) && Js.truthy (mcsUserId x) = true ->
      snd twice = Rejects TypeError
      /\ calls (snd (fst twice))
         = calls (snd (fst once)) ++ [Unpublish (mcsUserId x) (mediaId x)])
  /\ (Js.truthy (mediaId x) && Js.truthy (mcsUserId x) = false ->
      snd twice = Resolves tt
      /\ calls (snd (fst twice)) = calls (snd (fst once))).
Proof.
  intros Hb. cbv zeta.
  destruct (stop_with_bridge x w b Hb) as (Hr & Hgone & _ & Hm & Hu).
  cbv zeta in *. split; [exact Hr|].
  destruct (fst (stop (x, w))) as [x1 w1]. cbn [fst snd] in *.
  pose proof (stop_without_bridge x1 w1 Hgone) as Hsecond.
  cbv zeta in Hsecond. rewrite Hm, Hu in Hsecond.
  split; intros E; by rewrite E in Hsecond.
Qed.

End Discipline.

(** *** A watchdog from arming to expiry *)

Section WatchdogLife.
Context `{Env}.

Lemma clearTimeout_last (w : World) (k : Watchdog) (d : Z) :
  handles_given w ->
  List.filter (fun x => negb (Nat.eqb (handle x) (nextHandle w)))
    (timers w ++ [{| handle := nextHandle w; watchdog := k; duration := d |}])
  = timers w.
Proof.
  unfold handles_given. intros Hw. rewrite List.filter_app. cbn.
  rewrite Nat.eqb_refl. cbn. rewrite app_nil_r.
  induction Hw as [|x l Hx Hl IH]; cbn; [done|].
  destruct (Nat.eqb_spec (handle x) (nextHandle w)) as [E|E]; [lia|].
  cbn. by rewrite IH.
Qed.

Ltac unfold_handlers :=
  unfold deliver, _mediaStateWebRTC, _handleMediaStateChanged,
    _onSubscriberMediaFlowing, _onSubscriberMediaNotFlowing,
    _onSubscriberMediaConnected, _onSubscriberMediaDisconnected,
    _onSubscriberMediaNotFlowingTimeout, _onSubscriberMediaDisconnectedTimeout,
    setMediaFlowingTimeout, setMediaStateTimeout, _getFullLogMetadata,
    clearMediaFlowingTimeout, clearMediaStateTimeout,
    send, step, bind, modify, this, gets, ret, Js.strict_eq.

(** X6. The media-flow watchdog from arming to clearing. On an endpoint with
    its bridge and the watchdog not armed, a media-flow event of the
    subscribed media id whose details are anything but FLOWING arms it:
    one timer more, of the configured duration, and nothing is sent. A
    FLOWING event then clears it: the pending timers are those from before
    the arming, the field is empty, and the client is sent one
    MEDIA_FLOWING success frame. *)
Theorem not_flowing_arms_flowing_clears
    (s : t * World) (b : Bridge) (target : option string)
    (stalled flowing : MediaEvent) :
  transceiverBridge (fst s) = Some b ->
  _mediaFlowingTimeout (fst s) = None ->
  handles_given (snd s) ->
  ev_mediaId stalled = target ->
  ev_mediaId flowing = target ->
  ev_name stalled = "MediaFlowInStateChange"
  \/ ev_name stalled = "MediaFlowOutStateChange" ->
  ev_name flowing = "MediaFlowInStateChange"
  \/ ev_name flowing = "MediaFlowOutStateChange" ->
  ev_details stalled <> "FLOWING" ->
  ev_details flowing = "FLOWING" ->
  let waiting := deliver (_mediaStateWebRTC stalled target) s in
  let cleared := deliver (_mediaStateWebRTC flowing target) waiting in
  timers (snd waiting)
  = timers (snd s)
    ++ [{| handle := nextHandle (snd s); watchdog := MediaFlow;
           duration := MEDIA_FLOW_TIMEOUT_DURATION |}]
  /\ _mediaFlowingTimeout (fst waiting) = Some (nextHandle (snd s))
  /\ frames (snd waiting) = frames (snd s)
  /\ timers (snd cleared) = timers (snd s)
  /\ _mediaFlowingTimeout (fst cleared) = None
  /\ frames (snd cleared)
     = frames (snd s)
       ++ [WebRTCAudioSuccess (connectionId (fst s)) "MEDIA_FLOWING"].
Proof.
  destruct s as [x w].
  destruct x as [o mi vb ui ci cl ms br mu md tf ts q ls].
  cbn [fst snd transceiverBridge _mediaFlowingTimeout].
  intros -> -> Hw <- Hid Hn1 Hn2 Hd1 Hd2. cbv zeta.
  apply String.eqb_neq in Hd1.
  pose proof (clearTimeout_last w MediaFlow MEDIA_FLOW_TIMEOUT_DURATION Hw) as Hc.
  unfold_handlers.
  rewrite Hid, !bool_decide_eq_true_2 by done.
  destruct Hn1 as [-> | ->], Hn2 as [-> | ->]; cbn -[List.filter];
    rewrite Hd1, Hd2; cbn -[List.filter]; rewrite ?Hc; by repeat split.
Qed.

(** X7. The media-state watchdog likewise: DISCONNECTED arms it with the
    configured duration, CONNECTED clears it and gives the pending timers
    back as they were; neither sends anything to the client, and a
    MediaStateChanged event with other details does nothing. *)
Theorem disconnected_arms_connected_clears
    (s : t * World) (b : Bridge) (target : option string)
    (lost back other : MediaEvent) :
  transceiverBridge (fst s) = Some b ->
  _mediaStateTimeout (fst s) = None ->
  handles_given (snd s) ->
  ev_mediaId lost = target /\ ev_name lost = "MediaStateChanged"
  /\ ev_details lost = "DISCONNECTED" ->
  ev_mediaId back = target /\ ev_name back = "MediaStateChanged"
  /\ ev_details back = "CONNECTED" ->
  ev_name other = "MediaStateChanged" /\ ev_details other <> "CONNECTED"
  /\ ev_details other <> "DISCONNECTED" ->
  let waiting := deliver (_mediaStateWebRTC lost target) s in
  let cleared := deliver (_mediaStateWebRTC back target) waiting in
  timers (snd waiting)
  = timers (snd s)
    ++ [{| handle := nextHandle (snd s); watchdog := MediaState;
           duration := MEDIA_STATE_TIMEOUT_DURATION |}]
  /\ _mediaStateTimeout (fst waiting) = Some (nextHandle (snd s))
  /\ timers (snd cleared) = timers (snd s)
  /\ _mediaStateTimeout (fst cleared) = None
  /\ frames (snd cleared) = frames (snd s)
  /\ deliver (_mediaStateWebRTC other target) s = s.
Proof.
  destruct s as [x w].
  destruct x as [o mi vb ui ci cl ms br mu md tf ts q ls].
  cbn [fst snd transceiverBridge _mediaStateTimeout].
  intros -> -> Hw (<- & Hn1 & Hd1) (Hid & Hn2 & Hd2) (Hn3 & Hd3 & Hd4).
  cbv zeta.
  apply String.eqb_neq in Hd3, Hd4.
  pose proof (clearTimeout_last w MediaState MEDIA_STATE_TIMEOUT_DURATION Hw) as Hc.
  unfold_handlers.
  rewrite Hid, Hn1, Hn2, Hn3, Hd1, Hd2, Hd3, Hd4.
  rewrite !bool_decide_eq_true_2 by done.
  cbn -[List.filter]. rewrite ?Hc. repeat split.
  by case_bool_decide.
Qed.

(** X8. A watchdog fires once per arming. When a pending timer expires on an
    endpoint with its bridge, the client is sent one error frame with
    code 2211 and the timer is pending no more, but the field that holds
    its handle is not reset: until a FLOWING (or CONNECTED) event clears
    the field, further NOT_FLOWING (or DISCONNECTED) notices arm nothing. *)
Theorem expired_watchdog_is_not_rearmed
    (s : t * World) (h : nat) (b : Bridge) (x : Timer) :
  transceiverBridge (fst s) = Some b ->
  List.find (fun x => Nat.eqb (handle x) h) (timers (snd s)) = Some x ->
  let s' := timerExpires h s in
  frames (snd s')
  = frames (snd s) ++ [WebRTCAudioError (connectionId (fst s)) 2211 errors_2211]
  /\ timers (snd s')
     = List.filter (fun x => negb (Nat.eqb (handle x) h)) (timers (snd s))
  /\ fst s' = fst s
  /\ (_mediaFlowingTimeout (fst s) = Some h ->
      deliver _onSubscriberMediaNotFlowing s' = s')
  /\ (_mediaStateTimeout (fst s) = Some h ->
      deliver _onSubscriberMediaDisconnected s' = s').
Proof.
  destruct s as [e w].
  destruct e as [o mi vb ui ci cl ms br mu md tf ts q ls].
  cbn [fst snd transceiverBridge _mediaFlowingTimeout _mediaStateTimeout].
  intros -> Hfind. cbv zeta. unfold timerExpires. cbn [fst snd]. rewrite Hfind.
  unfold_handlers.
  destruct (watchdog x); cbn -[List.filter];
    (split; [done|]; split; [done|]; split; [done|]; split; by intros ->).
Qed.

End WatchdogLife.

(** *** Answers *)

Section Answers.
Context `{Env}.

(** What a [start] that resolved has recorded. *)
Lemma start_resolved (x : t) (w : World) (sdpOffer sdpAnswer : string) :
  snd (start sdpOffer (x, w)) = Resolves sdpAnswer ->
  exists u m,
    mcs_join (voiceBridge x) "SFU" (userId x) true = Resolves u
    /\ mcs_publish u (voiceBridge x) C_WEBRTC (publishOptions sdpOffer x)
       = Resolves m
    /\ mcsUserId (fst (fst (start sdpOffer (x, w)))) = u
    /\ mediaId (fst (fst (start sdpOffer (x, w)))) = m
    /\ In (Publish u (voiceBridge x) C_WEBRTC (publishOptions sdpOffer x))
         (calls (snd (fst (start sdpOffer (x, w))))).
Proof.
  destruct x as [o mi vb ui ci cl ms br mu md tf ts q ls].
  unfold start, _negotiateTransceiver, publishOptions,
    transceiverBridge_start, transceiverBridge_bridgeMediaId,
    _getFullLogMetadata, _flushCandidatesQueue,
    try_catch, bind, this, gets, awaited, update, modify, fired, step, throw, ret.
  cbn -[flushCandidatesQueue].
  destruct mcs_waitForConnection as [[|]|e]; cbn -[flushCandidatesQueue];
    [|destruct br; discriminate|discriminate].
  destruct (mcs_join vb "SFU" ui true) as [u|e] eqn:Ej;
    cbn -[flushCandidatesQueue]; [|destruct br; discriminate].
  match goal with |- context [mcs_publish u vb C_WEBRTC ?opts] =>
    destruct (mcs_publish u vb C_WEBRTC opts) as [m|e] eqn:Ep end;
    cbn -[flushCandidatesQueue]; [|destruct br; discriminate].
  destruct br as [b0|]; cbn -[flushCandidatesQueue]; [|discriminate].
  destruct (bridge_start m) as [b|e]; cbn -[flushCandidatesQueue];
    [|discriminate].
  destruct (mcs_consume b m "AUDIO") as [answer|e]; cbn -[flushCandidatesQueue];
    [|discriminate].
  intros _. exists u, m.
  destruct (Js.truthy m); rewrite ?flushCandidatesQueue_spec; cbn;
    (split; [done|]; split; [exact Ep|]; split; [done|]; split; [done|]);
    rewrite <- ?app_assoc; apply in_or_app; right; cbn; auto 10.
Qed.

(** X9. [processAnswer] publishes the answer for the endpoint [start] set up:
    one [mcs.publish] call, for the MCS user [join] resolved to, in the
    same room and under the same stream options as the [publish] of
    [start] except for the descriptor, which is the answer. It changes
    nothing in the endpoint, in particular not the media id. On an endpoint
    without media id it calls nothing and resolves with [undefined]. *)
Theorem processAnswer_republishes_what_start_published
    (x : t) (w : World) (sdpOffer sdpAnswer answer : string) :
  snd (start sdpOffer (x, w)) = Resolves sdpAnswer ->
  let started := fst (start sdpOffer (x, w)) in
  let r := processAnswer answer started in
  (exists u,
     mcs_join (voiceBridge x) "SFU" (userId x) true = Resolves u
     /\ In (Publish u (voiceBridge x) C_WEBRTC (publishOptions sdpOffer x))
          (calls (snd started))
     /\ (Js.truthy (mediaId (fst started)) = true ->
         calls (snd (fst r))
         = calls (snd started)
           ++ [Publish u (voiceBridge x) C_WEBRTC (publishOptions answer x)]))
  /\ fst (fst r) = fst started
  /\ (Js.truthy (mediaId (fst started)) = false ->
      r = (started, Resolves None))
  /\ (Js.truthy (mediaId x) = false ->
      processAnswer answer (x, w) = ((x, w), Resolves None)).
Proof.
  intros Hr. cbv zeta.
  destruct (start_resolved x w sdpOffer sdpAnswer Hr)
    as (u & m & Hj & Hp & Hu & Hm & Hin).
  pose proof (start_constructorFields sdpOffer (x, w)) as Hc.
  unfold unchanged, constructorFields in Hc. cbn [fst snd] in Hc.
  injection Hc as Ho Hmi Hvb Hui Hci Hcl Hms Hls.
  destruct (start sdpOffer (x, w)) as [[x' w'] r']. cbn [fst snd] in *.
  unfold processAnswer, bind, this, gets, awaited, ret, publishOptions.
  cbn [fst snd].
  split; [|split; [|split]].
  - exists u. split; [exact Hj|]. split; [exact Hin|].
    intros Ht. rewrite Ht, Hu, Hvb, Hms, Hui, Hmi.
    match goal with
    | |- context [match ?p with Resolves _ => _ | Rejects _ => _ end] =>
        by destruct p
    end.
  - destruct (Js.truthy (mediaId x')); [|done].
    match goal with
    | |- context [match ?p with Resolves _ => _ | Rejects _ => _ end] =>
        by destruct p
    end.
  - by intros ->.
  - by intros ->.
Qed.

End Answers.

(** *** Candidates from the MCS *)

Section Relay.
Context `{Env}.

(** X10. Candidates the MCS gathers are relayed to the client and to nobody
    else. Of a sequence of MEDIA_STATE_ICE events delivered to the listener
    subscribed for [target], those of that media id are sent to the
    client as [iceCandidate] frames for the connection of the endpoint, in
    the order they came; the others are dropped. The endpoint, the call
    log and the timers are as before, even on an endpoint that has been
    stopped. *)
Theorem mcs_candidates_are_relayed_in_order
    (events : list (option string * string)) (target : option string)
    (s : t * World) :
  let s' :=
    fold_left
      (fun s event => deliver (_onMCSIceCandidate (fst event) (snd event) target) s)
      events s in
  fst s' = fst s
  /\ frames (snd s')
     = frames (snd s)
       ++ map (fun event => IceCandidate (connectionId (fst s)) (snd event))
            (List.filter (fun event => Js.strict_eq (fst event) target) events)
  /\ calls (snd s') = calls (snd s)
  /\ timers (snd s') = timers (snd s).
Proof.
  cbv zeta. revert s. induction events as [|event events IH]; intros s;
    cbn [fold_left List.filter map].
  - by rewrite app_nil_r.
  - destruct (IH (deliver (_onMCSIceCandidate (fst event) (snd event) target) s))
      as (Hx & Hf & Hc & Ht).
    rewrite Hx, Hf, Hc, Ht.
    unfold deliver, _onMCSIceCandidate, send, step, modify, ret.
    destruct (Js.strict_eq (fst event) target); cbn; [|done].
    rewrite <- app_assoc. by repeat split.
Qed.

End Relay.

(** *** What an endpoint leaves behind *)

Section Release.
Context `{Env}.

Lemma removeListener_last (x : nat) (l : list nat) :
  removeListener Nat.eqb x (l ++ [x]) = l.
Proof.
  unfold removeListener. rewrite rev_app_distr. cbn.
  rewrite Nat.eqb_refl. apply rev_involutive.
Qed.

(** What is registered for an endpoint, and whether it has its bridge. *)
Lemma timeout_callbacks_constructorFields :
  keeps (unchanged constructorFields) _onSubscriberMediaNotFlowingTimeout
  /\ keeps (unchanged constructorFields) _onSubscriberMediaDisconnectedTimeout.
Proof.
  split; unfold _onSubscriberMediaNotFlowingTimeout,
           _onSubscriberMediaDisconnectedTimeout; steps; still.
Qed.

Lemma timerExpires_constructorFields h s :
  unchanged constructorFields s (timerExpires h s).
Proof.
  unfold timerExpires. destruct (find _ _) as [x|]; [|reflexivity].
  destruct timeout_callbacks_constructorFields as [Hf Hs].
  transitivity (fst s, clearTimeout h (snd s)); [reflexivity|].
  destruct (watchdog x); [apply Hf|apply Hs].
Qed.

Lemma occur_keeps_registration (e : Event) (s : t * World) :
  e <> Stop ->
  mcsListeners (snd (occur e s)) = mcsListeners (snd s)
  /\ bbbListeners (snd (occur e s)) = bbbListeners (snd s)
  /\ oid (fst (occur e s)) = oid (fst s)
  /\ (transceiverBridge (fst (occur e s)) = None ->
      transceiverBridge (fst s) = None).
Proof.
  intros Hne. destruct e as [c|event target|h|sdpOffer|]; cbn [occur]; [| | | |done].
  - destruct (listeners_onIceCandidate c s) as (Hm & Hb & Hbr).
    split; [exact Hm|]. split; [exact Hb|]. split; [|exact Hbr].
    unfold onIceCandidate, _flushCandidatesQueue.
    by destruct (Js.truthy (mediaId (fst s))).
  - pose proof (mediaStateWebRTC_negotiated event target s) as Hn.
    pose proof (mediaStateWebRTC_identity event target s) as Hc.
    unfold unchanged, negotiated, identity, deliver in *.
    injection Hn as _ Hm Hb _ _ Hbr _. injection Hc as Ho _ _ _ _ _ _.
    split; [exact Hm|]. split; [exact Hb|]. split; [exact Ho|]. by rewrite Hbr.
  - pose proof (timerExpires_negotiated h s) as Hn.
    pose proof (timerExpires_constructorFields h s) as Hc.
    unfold unchanged, negotiated, constructorFields in *.
    injection Hn as _ Hm Hb _ _ Hbr _. injection Hc as Ho _ _ _ _ _ _ _.
    split; [exact Hm|]. split; [exact Hb|]. split; [exact Ho|]. by rewrite Hbr.
  - destruct (listeners_start sdpOffer s) as (Hm & Hb & Hbr).
    pose proof (start_constructorFields sdpOffer s) as Hc.
    unfold unchanged, constructorFields in Hc.
    injection Hc as Ho _ _ _ _ _ _ _.
    split; [exact Hm|]. split; [exact Hb|]. by split.
Qed.

(** An endpoint has its bridge from its construction until its [stop]. *)
Lemma bridge_until_stop
    (oid : nat)
    (meetingId voiceBridge userId connectionId callerId mediaServer : string)
    (w : World) (events : list Event) :
  Forall (fun e => e <> Stop) events ->
  transceiverBridge
    (fst (life events
            (new oid meetingId voiceBridge userId connectionId callerId
               mediaServer w))) <> None.
Proof.
  intros Hall.
  assert (H0 : transceiverBridge
                 (fst (new oid meetingId voiceBridge userId connectionId
                         callerId mediaServer w)) <> None) by done.
  revert H0. generalize (new oid meetingId voiceBridge userId connectionId
                           callerId mediaServer w).
  induction Hall as [|e events He Hall IH]; intros s0 H0; [exact H0|].
  cbn [life fold_left]. apply IH.
  destruct (occur_keeps_registration e s0 He) as (_ & _ & _ & Hbr).
  intros Hn. by apply H0, Hbr.
Qed.

Lemma stop_listeners (s : t * World) :
  mcsListeners (snd (fst (stop s)))
  = removeListener Nat.eqb (oid (fst s)) (mcsListeners (snd s))
  /\ bbbListeners (snd (fst (stop s))) = bbbListeners (snd s).
Proof.
  destruct s as [x w].
  destruct x as [o mi vb ui ci cl ms br mu md tf ts q ls].
  unfold stop, update, step, this, clearMediaFlowingTimeout,
    clearMediaStateTimeout, _untrackMCSEvents, awaited, fired,
    _getFullLogMetadata, try_catch, bind, modify, gets, ret.
  cbn -[removeListener].
  destruct tf, ts, br; cbn -[removeListener];
    destruct (Js.truthy md && Js.truthy mu); cbn -[removeListener];
    try destruct (mcs_unpublish mu md); cbn -[removeListener]; by split.
Qed.

(** X11. An endpoint leaves no disconnection handler behind. From its
    construction through any events (candidates, media events, expiring
    timers, starts) to its [stop], the handlers registered with [mcs.on]
    and on the BBB gateway end as they were before the endpoint was
    constructed: the constructor registered the endpoint's handler for
    MCS_DISCONNECTED, nothing in between added or removed one, and [stop]
    removed that one. The [stop] resolves and leaves the endpoint without
    bridge and without pending candidates. (The media subscriptions [start]
    makes with [mcs.onEvent] are calls; nothing in the class undoes them.) *)
Theorem endpoint_life_releases_its_listener
    (oid : nat)
    (meetingId voiceBridge userId connectionId callerId mediaServer : string)
    (w : World) (events : list Event) :
  Forall (fun e => e <> Stop) events ->
  let s0 := new oid meetingId voiceBridge userId connectionId callerId
              mediaServer w in
  let lived := life events s0 in
  let s := life (events ++ [Stop]) s0 in
  mcsListeners (snd lived) = mcsListeners w ++ [oid]
  /\ mcsListeners (snd s) = mcsListeners w
  /\ bbbListeners (snd s) = bbbListeners w
  /\ snd (stop lived) = Resolves tt
  /\ transceiverBridge (fst s) = None
  /\ _candidatesQueue (fst s) = [].
Proof.
  intros Hall. cbv zeta.
  set (s0 := new oid meetingId voiceBridge userId connectionId callerId
               mediaServer w).
  assert (Hlived : mcsListeners (snd (life events s0)) = mcsListeners w ++ [oid]
                   /\ bbbListeners (snd (life events s0)) = bbbListeners w
                   /\ ClientAudioStTransceiver.oid (fst (life events s0)) = oid
                   /\ transceiverBridge (fst (life events s0)) <> None).
  { assert (H0 : mcsListeners (snd s0) = mcsListeners w ++ [oid]
                 /\ bbbListeners (snd s0) = bbbListeners w
                 /\ ClientAudioStTransceiver.oid (fst s0) = oid
                 /\ transceiverBridge (fst s0) <> None) by done.
    revert H0. generalize s0. clear s0.
    induction Hall as [|e events He Hall IH]; intros s0 H0; [exact H0|].
    cbn [life fold_left]. apply IH.
    destruct (occur_keeps_registration e s0 He) as (Hm & Hb & Ho & Hbr).
    destruct H0 as (Hm0 & Hb0 & Ho0 & Hbr0).
    rewrite Hm, Hb, Ho. repeat split; try done. intros Hn. by apply Hbr0, Hbr. }
  destruct Hlived as (Hm & Hb & Ho & Hbr).
  assert (Hlife : life (events ++ [Stop]) s0 = fst (stop (life events s0)))
    by (unfold life; by rewrite fold_left_app).
  rewrite Hlife. clear Hlife.
  destruct (stop_listeners (life events s0)) as [Hsm Hsb].
  destruct (transceiverBridge (fst (life events s0))) as [b|] eqn:Hbridge;
    [|done].
  destruct (life events s0) as [x1 w1]. cbn [fst snd] in *.
  destruct (stop_with_bridge x1 w1 b Hbridge) as (Hr & Hgone & Hq & _).
  cbv zeta in *.
  split; [exact Hm|]. split; [by rewrite Hsm, Hm, Ho, removeListener_last|].
  split; [by rewrite Hsb|]. by repeat split.
Qed.

End Release.

(** *** Instances *)

Lemma stop_swallows_unpublish_failure_witness :
  transceiverBridge (fst Samples.startedEndpoint)
  = Some {| bridgeMediaId := Some "bridge-1" |}
  /\ @mcs_unpublish Samples.failingUnpublish (Some "mcs-user") (Some "media-1")
     = Rejects Samples.rejected
  /\ snd (@stop Samples.failingUnpublish
            (fst Samples.startedEndpoint, snd Samples.startedEndpoint))
     = Resolves tt.
Proof.
  split; [reflexivity|]. split; [reflexivity|].
  exact (proj1 (@stop_swallows_unpublish_failure Samples.failingUnpublish
                  (fst Samples.startedEndpoint) (snd Samples.startedEndpoint)
                  _ eq_refl)).
Defined.

Lemma second_stop_unpublishes_again_witness :
  transceiverBridge (fst Samples.startedEndpoint)
  = Some {| bridgeMediaId := Some "bridge-1" |}
  /\ snd (@stop Samples.answering
            (fst (@stop Samples.answering
                    (fst Samples.startedEndpoint, snd Samples.startedEndpoint))))
     = Rejects TypeError.
Proof.
  split; [reflexivity|].
  exact (proj1 (proj1 (proj2
           (@second_stop_unpublishes_again Samples.answering
              (fst Samples.startedEndpoint) (snd Samples.startedEndpoint)
              _ eq_refl)) eq_refl)).
Defined.

Lemma not_flowing_arms_flowing_clears_witness :
  transceiverBridge (fst Samples.startedEndpoint)
  = Some {| bridgeMediaId := Some "bridge-1" |}
  /\ _mediaFlowingTimeout (fst Samples.startedEndpoint) = None
  /\ handles_given (snd Samples.startedEndpoint)
  /\ timers
       (snd (deliver
               (@_mediaStateWebRTC Samples.answering
                  (Samples.mediaEvent "MediaFlowInStateChange" "NOT_FLOWING")
                  (Some "media-1"))
               Samples.startedEndpoint))
     = timers (snd Samples.startedEndpoint)
       ++ [{| handle := nextHandle (snd Samples.startedEndpoint);
              watchdog := MediaFlow;
              duration := @MEDIA_FLOW_TIMEOUT_DURATION Samples.answering |}].
Proof.
  assert (Hb : transceiverBridge (fst Samples.startedEndpoint)
               = Some {| bridgeMediaId := Some "bridge-1" |})
    by (vm_compute; reflexivity).
  assert (Hf : _mediaFlowingTimeout (fst Samples.startedEndpoint) = None)
    by (vm_compute; reflexivity).
  assert (Hw : handles_given (snd Samples.startedEndpoint))
    by (unfold handles_given; vm_compute; constructor).
  split; [exact Hb|]. split; [exact Hf|]. split; [exact Hw|].
  exact (proj1
           (@not_flowing_arms_flowing_clears Samples.answering
              Samples.startedEndpoint _ (Some "media-1")
              (Samples.mediaEvent "MediaFlowInStateChange" "NOT_FLOWING")
              (Samples.mediaEvent "MediaFlowOutStateChange" "FLOWING")
              Hb Hf Hw eq_refl eq_refl
              (or_introl eq_refl) (or_intror eq_refl)
              ltac:(discriminate) eq_refl)).
Defined.

Lemma disconnected_arms_connected_clears_witness :
  transceiverBridge (fst Samples.startedEndpoint)
  = Some {| bridgeMediaId := Some "bridge-1" |}
  /\ _mediaStateTimeout (fst Samples.startedEndpoint) = None
  /\ handles_given (snd Samples.startedEndpoint)
  /\ timers
       (snd (deliver
               (@_mediaStateWebRTC Samples.answering
                  (Samples.mediaEvent "MediaStateChanged" "DISCONNECTED")
                  (Some "media-1"))
               Samples.startedEndpoint))
     = timers (snd Samples.startedEndpoint)
       ++ [{| handle := nextHandle (snd Samples.startedEndpoint);
              watchdog := MediaState;
              duration := @MEDIA_STATE_TIMEOUT_DURATION Samples.answering |}].
Proof.
  assert (Hb : transceiverBridge (fst Samples.startedEndpoint)
               = Some {| bridgeMediaId := Some "bridge-1" |})
    by (vm_compute; reflexivity).
  assert (Hf : _mediaStateTimeout (fst Samples.startedEndpoint) = None)
    by (vm_compute; reflexivity).
  assert (Hw : handles_given (snd Samples.startedEndpoint))
    by (unfold handles_given; vm_compute; constructor).
  assert (Hlost :
      ev_mediaId (Samples.mediaEvent "MediaStateChanged" "DISCONNECTED")
      = Some "media-1"
      /\ ev_name (Samples.mediaEvent "MediaStateChanged" "DISCONNECTED")
         = "MediaStateChanged"
      /\ ev_details (Samples.mediaEvent "MediaStateChanged" "DISCONNECTED")
         = "DISCONNECTED")
    by (split; [reflexivity|split; reflexivity]).
  assert (Hback :
      ev_mediaId (Samples.mediaEvent "MediaStateChanged" "CONNECTED")
      = Some "media-1"
      /\ ev_name (Samples.mediaEvent "MediaStateChanged" "CONNECTED")
         = "MediaStateChanged"
      /\ ev_details (Samples.mediaEvent "MediaStateChanged" "CONNECTED")
         = "CONNECTED")
    by (split; [reflexivity|split; reflexivity]).
  assert (Hother :
      ev_name (Samples.mediaEvent "MediaStateChanged" "PAUSED")
      = "MediaStateChanged"
      /\ ev_details (Samples.mediaEvent "MediaStateChanged" "PAUSED")
         <> "CONNECTED"
      /\ ev_details (Samples.mediaEvent "MediaStateChanged" "PAUSED")
         <> "DISCONNECTED")
    by (split; [reflexivity|split; discriminate]).
  split; [exact Hb|]. split; [exact Hf|]. split; [exact Hw|].
  exact (proj1
           (@disconnected_arms_connected_clears Samples.answering
              Samples.startedEndpoint _ (Some "media-1")
              (Samples.mediaEvent "MediaStateChanged" "DISCONNECTED")
              (Samples.mediaEvent "MediaStateChanged" "CONNECTED")
              (Samples.mediaEvent "MediaStateChanged" "PAUSED")
              Hb Hf Hw Hlost Hback Hother)).
Defined.

Lemma expired_watchdog_is_not_rearmed_witness :
  transceiverBridge (fst Samples.stalledEndpoint)
  = Some {| bridgeMediaId := Some "bridge-1" |}
  /\ List.find (fun x => Nat.eqb (handle x) 0)
       (timers (snd Samples.stalledEndpoint))
     = Some {| handle := 0; watchdog := MediaFlow; duration := 15000 |}
  /\ frames (snd (@timerExpires Samples.answering 0 Samples.stalledEndpoint))
     = frames (snd Samples.stalledEndpoint)
       ++ [WebRTCAudioError (connectionId (fst Samples.stalledEndpoint)) 2211
             (@errors_2211 Samples.answering)].
Proof.
  assert (Hb : transceiverBridge (fst Samples.stalledEndpoint)
               = Some {| bridgeMediaId := Some "bridge-1" |})
    by (vm_compute; reflexivity).
  assert (Hf : List.find (fun x => Nat.eqb (handle x) 0)
                 (timers (snd Samples.stalledEndpoint))
               = Some {| handle := 0; watchdog := MediaFlow; duration := 15000 |})
    by (vm_compute; reflexivity).
  split; [exact Hb|]. split; [exact Hf|].
  exact (proj1
           (@expired_watchdog_is_not_rearmed Samples.answering
              Samples.stalledEndpoint 0 _ _ Hb Hf)).
Defined.

Lemma endpoint_life_releases_its_listener_witness :
  Forall (fun e => e <> Stop)
    [CandidateArrives "c1"; Start "offer";
     MediaStateEvent (Samples.mediaEvent "MediaFlowInStateChange" "NOT_FLOWING")
       (Some "media-1")]
  /\ mcsListeners
       (snd (@life Samples.answering
               ([CandidateArrives "c1"; Start "offer";
                 MediaStateEvent
                   (Samples.mediaEvent "MediaFlowInStateChange" "NOT_FLOWING")
                   (Some "media-1")] ++ [Stop])
               (new 1 "meeting" "72013" "w_user" "conn-1" "caller" "mediasoup"
                  emptyWorld)))
     = mcsListeners emptyWorld.
Proof.
  assert (Hall : Forall (fun e => e <> Stop)
                   [CandidateArrives "c1"; Start "offer";
                    MediaStateEvent
                      (Samples.mediaEvent "MediaFlowInStateChange" "NOT_FLOWING")
                      (Some "media-1")])
    by (repeat constructor; discriminate).
  split; [exact Hall|].
  exact (proj1 (proj2
           (@endpoint_life_releases_its_listener Samples.answering
              1 "meeting" "72013" "w_user" "conn-1" "caller" "mediasoup"
              emptyWorld _ Hall))).
Defined.

Lemma processAnswer_republishes_what_start_published_witness :
  snd (@start Samples.answering "offer"
         (fst Samples.endpoint, snd Samples.endpoint))
  = Resolves "answer"
  /\ fst (fst (@processAnswer Samples.answering "answer-2"
                 (fst (@start Samples.answering "offer"
                         (fst Samples.endpoint, snd Samples.endpoint)))))
     = fst (fst (@start Samples.answering "offer"
                   (fst Samples.endpoint, snd Samples.endpoint))).
Proof.
  split; [reflexivity|].
  exact (proj1 (proj2
           (@processAnswer_republishes_what_start_published Samples.answering
              (fst Samples.endpoint) (snd Samples.endpoint)
              "offer" "answer" "answer-2" eq_refl))).
Defined.

End TransceiverProofs.

(** ** AudioSession *)

Module AudioSessionProofs.
Import Runtime AudioSession.

Section Listeners.
Context {A : Type} (eqb : A -> A -> bool).

Lemma registrations_rev x l :
  registrations eqb x (rev l) = registrations eqb x l.
Proof.
  unfold registrations. induction l as [|y l IH]; simpl; [done|].
  rewrite List.filter_app, length_app, IH. simpl.
  destruct (eqb x y); simpl; lia.
Qed.

Lemma remove_first_registrations x l :
  registrations eqb x (remove_first eqb x l) = registrations eqb x l - 1.
Proof.
  unfold registrations. induction l as [|y l IH]; simpl; [done|].
  destruct (eqb x y) eqn:E; simpl; [lia|]. by rewrite E.
Qed.

Lemma remove_first_le x y l :
  registrations eqb x (remove_first eqb y l) <= registrations eqb x l.
Proof.
  unfold registrations. induction l as [|z l IH]; simpl; [done|].
  destruct (eqb y z); simpl; destruct (eqb x z); simpl; lia.
Qed.

Lemma remove_first_absent x l :
  registrations eqb x l = 0 -> remove_first eqb x l = l.
Proof.
  unfold registrations. induction l as [|y l IH]; simpl; [done|].
  destruct (eqb x y); simpl; [lia|]. intros Hl. by rewrite IH.
Qed.

Lemma removeListener_registrations x l :
  registrations eqb x (removeListener eqb x l) = registrations eqb x l - 1.
Proof.
  unfold removeListener.
  by rewrite registrations_rev, remove_first_registrations, registrations_rev.
Qed.

Lemma removeListener_le x y l :
  registrations eqb x (removeListener eqb y l) <= registrations eqb x l.
Proof.
  unfold removeListener. rewrite registrations_rev.
  etrans; [apply remove_first_le|]. by rewrite registrations_rev.
Qed.

Lemma removeListener_absent x l :
  registrations eqb x l = 0 -> removeListener eqb x l = l.
Proof.
  intros Hl. unfold removeListener.
  rewrite remove_first_absent by (by rewrite registrations_rev).
  apply rev_involutive.
Qed.
End Listeners.

Section Stop.
Context `{Endpoint.Env} `{Config}.

(** The endpoint's [stop] resolves as long as the endpoint has its
    bridge, and touches the shared emitters only to remove the endpoint's
    own handler. *)
Lemma Endpoint_stop_frame (e : Endpoint.t) (w : World) :
  Endpoint.transceiverBridge e <> None ->
  snd (Endpoint.stop (e, w)) = Resolves tt
  /\ bbbListeners (snd (fst (Endpoint.stop (e, w)))) = bbbListeners w
  /\ mcsListeners (snd (fst (Endpoint.stop (e, w))))
     = removeListener Nat.eqb (Endpoint.oid e) (mcsListeners w).
Proof.
  intros Hb. destruct e as [o mi vb ui ci cl ms [b|] mu md tf ts q ls];
    [clear Hb|done].
  unfold Endpoint.stop, Endpoint.update, Endpoint.step, Endpoint.this,
    Endpoint.clearMediaFlowingTimeout, Endpoint.clearMediaStateTimeout,
    Endpoint._untrackMCSEvents, Endpoint.awaited, Endpoint.fired,
    Endpoint._getFullLogMetadata, try_catch, bind, modify, gets, ret.
  cbn.
  destruct tf, ts; cbn;
    destruct (Js.truthy md && Js.truthy mu); cbn;
    try destruct (Endpoint.mcs_unpublish mu md); cbn; by repeat split.
Qed.

(** With an empty slot and no handler of the session registered, [stop]
    changes nothing. *)
Lemma stop_nothing_left (x : t) (w : World) :
  _clientEndpoint x = None ->
  registrations Nat.eqb (oid x) (mcsListeners w) = 0 ->
  registrations bbb_eqb (userLeftEvent x) (bbbListeners w) = 0 ->
  stop (x, w) = ((x, w), Resolves tt).
Proof.
  intros Hslot Hm Hb.
  pose proof (removeListener_absent _ _ _ Hm) as Rm.
  pose proof (removeListener_absent _ _ _ Hb) as Rb.
  destruct x, w; unfold userLeftEvent in *; cbn -[removeListener] in *. subst.
  unfold stop, bind, modify, gets, ret, _clearClientEndpointEvents,
    _untrackMeetingEvents, _untrackMCSEvents, clientEndpoint_set,
    set_mcsListeners, set_bbbListeners, set__clientEndpoint, userLeftEvent.
  cbn -[removeListener]. by rewrite Rm, Rb.
Qed.

(** The first [stop] resolves, empties the slot and leaves no handler of
    the session registered. *)
Lemma stop_releases (s : t * World) :
  well_formed s ->
  snd (stop s) = Resolves tt
  /\ _clientEndpoint (fst (fst (stop s))) = None
  /\ oid (fst (fst (stop s))) = oid (fst s)
  /\ userLeftEvent (fst (fst (stop s))) = userLeftEvent (fst s)
  /\ registrations Nat.eqb (oid (fst s)) (mcsListeners (snd (fst (stop s)))) = 0
  /\ registrations bbb_eqb (userLeftEvent (fst s))
       (bbbListeners (snd (fst (stop s)))) = 0.
Proof.
  destruct s as [x w]. intros (Hm & Hb & He).
  unfold stop, bind, modify, gets, ret, onEndpoint, _clearClientEndpointEvents,
    _untrackMeetingEvents, _untrackMCSEvents, clientEndpoint_set,
    Endpoint.finalDetachEventListeners, Endpoint._untrackMCSEvents,
    userLeftEvent in *.
  cbn -[Endpoint.stop removeListener registrations] in *.
  destruct (_clientEndpoint x) as [e|] eqn:Hslot;
    repeat (progress (cbn -[Endpoint.stop removeListener registrations];
                      rewrite ?Hslot)).
  - specialize (He e eq_refl).
    match goal with
    | |- context [Endpoint.stop (?e1, ?w1)] =>
        destruct (Endpoint_stop_frame e1 w1 He) as (Hr & Hbb & Hmm);
        destruct (Endpoint.stop (e1, w1)) as [[e4 w4] r]
    end.
    cbn -[removeListener registrations] in *. subst r.
    cbn -[removeListener registrations].
    rewrite Hbb, Hmm. cbn -[removeListener registrations].
    repeat split.
    + apply Nat.le_0_r. etrans; [apply removeListener_le|].
      etrans; [apply removeListener_le|].
      rewrite removeListener_registrations.
      pose proof (removeListener_le Nat.eqb (oid x) (Endpoint.oid e)
                    (mcsListeners w)). lia.
    + rewrite removeListener_registrations. lia.
  - repeat split; rewrite removeListener_registrations; lia.
Qed.

(** *** The states a session can be in *)

Lemma registrations_snoc {A} (eqb : A -> A -> bool) x y l :
  registrations eqb x (l ++ [y])
  = registrations eqb x l + (if eqb x y then 1 else 0).
Proof.
  unfold registrations. rewrite List.filter_app, length_app. simpl.
  by destruct (eqb x y).
Qed.





Lemma transceive_well_formed endpointOid sdpOffer s :
  endpointOid <> oid (fst s) ->
  well_formed s ->
  well_formed (fst (transceive endpointOid sdpOffer s))
  /\ same_session s (fst (transceive endpointOid sdpOffer s)).
Proof.
  intros Hne Hwf. pose proof Hwf as (Hm & Hb & He). unfold transceive.
  destruct FULLAUDIO_ENABLED; cbn [negb]; [|split; [exact Hwf|by split]].
  unfold bind, modify, onEndpoint, clientEndpoint_set, Endpoint.new.
  cbn -[Endpoint.start registrations].
  match goal with
  | |- context [Endpoint.start sdpOffer (?e1, ?w1)] =>
      destruct (TransceiverProofs.listeners_start sdpOffer (e1, w1))
        as (Hm' & Hb' & He');
      destruct (Endpoint.start sdpOffer (e1, w1)) as [[e2 w2] r]
  end.
  cbn -[registrations] in *. split; [|by split].
  unfold well_formed, userLeftEvent in *. cbn -[registrations].
  rewrite Hm', Hb'. cbn -[registrations]. rewrite registrations_snoc.
  destruct (Nat.eqb_spec (oid (fst s)) endpointOid) as [Heq|_]; [congruence|].
  split; [lia|]. split.
  - destruct (_clientEndpoint (fst s)); exact Hb.
  - intros e [= <-] Hn. by specialize (He' Hn).
Qed.











End Stop.

Lemma sample_session_well_formed :
  @well_formed Samples.audioConfig Samples.session.
Proof.
  split; [vm_compute; lia|]. split; [vm_compute; lia|].
  intros e He. vm_compute in He. injection He as <-. discriminate.
Defined.


Example stopping_the_sample_session :
  let s := @life Samples.answering Samples.audioConfig Samples.sessionLife
             Samples.sendrecvSession in
  let once := fst (@stop Samples.answering Samples.audioConfig s) in
  length (timers (snd s)) = 1
  /\ timers (snd once) = []
  /\ calls (snd once)
     = calls (snd s) ++ [Unpublish (Some "mcs-user") (Some "media-1"); BridgeStop]
  /\ mcsListeners (snd once) = []
  /\ bbbListeners (snd once) = [].
Proof. vm_compute. by repeat split. Qed.

(** The MEDIA_SERVER_OFFLINE relay at work: the first such event on the
    endpoint of a started session is emitted on the endpoint (object 2) and
    relayed on the session (object 1), and the relay, registered with
    [once], is gone; a second one is emitted on the endpoint alone. *)
Example offline_is_relayed_once :
  let offline :=
    MediaStateEvent (Samples.mediaEvent "1000" "") (Some "media-1") in
  let started :=
    @life Samples.answering Samples.audioConfig
      [Transceive 2 "offer"; RelayRegistered] Samples.sendrecvSession in
  let s1 := @occur Samples.answering Samples.audioConfig offline started in
  let s2 := @occur Samples.answering Samples.audioConfig offline s1 in
  (Endpoint.listeners <$> _clientEndpoint (fst started))
  = Some [@relay Samples.answering (fst started)]
  /\ emitted (snd s1) = [(2, "1000"); (1, "1000")]
  /\ (Endpoint.listeners <$> _clientEndpoint (fst s1)) = Some []
  /\ emitted (snd s2) = [(2, "1000"); (1, "1000"); (2, "1000")].
Proof. vm_compute. by repeat split. Qed.

Example sample_session_stop_calls :
  calls (snd (fst (@stop Samples.answering Samples.audioConfig Samples.session)))
  = calls (snd Samples.session)
    ++ [Unpublish (Some "mcs-user") (Some "media-1"); BridgeStop].
Proof. vm_compute. reflexivity. Qed.

(** *** Starting, leaving, detaching *)

Section Session.
Context `{Endpoint.Env} `{Config}.

Ltac unfold_session :=
  unfold stop, bind, modify, gets, ret, throw, onEndpoint,
    _clearClientEndpointEvents, _untrackMeetingEvents, _untrackMCSEvents,
    _trackClientEndpointEvents, clientEndpoint_set,
    Endpoint.finalDetachEventListeners, Endpoint._untrackMCSEvents,
    userLeftEvent in *.

(** The session's [stop] sends nothing to the client and keeps the
    session's own fields, whether it resolves or rejects. *)
Lemma stop_quiet (s : t * World) :
  frames (snd (fst (stop s))) = frames (snd s)
  /\ connectionId (fst (fst (stop s))) = connectionId (fst s).
Proof.
  destruct s as [x w]. unfold_session.
  cbn -[Endpoint.stop removeListener].
  destruct (_clientEndpoint x) as [e|] eqn:Hslot;
    repeat (progress (cbn -[Endpoint.stop removeListener]; rewrite ?Hslot));
    [|done].
  match goal with
  | |- context [Endpoint.stop (?e1, ?w1)] =>
      pose proof (TransceiverProofs.stop_outward (e1, w1)) as Hq;
      destruct (Endpoint.stop (e1, w1)) as [[e4 w4] [[]|err]]
  end;
    unfold Endpoint.unchanged in Hq; cbn in Hq; injection Hq as Hf _;
    cbn -[removeListener]; by rewrite Hf.
Qed.

(** X12. [disconnectUser] always ends with the [close] frame. Whether the
    [stop] it awaits resolves or rejects, it resolves itself, and the
    client is sent exactly one frame, [close] for the connection of the
    session; otherwise the session and the world are as [stop] left
    them. *)
Theorem disconnectUser_always_closes (s : t * World) :
  let r := disconnectUser s in
  snd r = Resolves tt
  /\ frames (snd (fst r)) = frames (snd s) ++ [Close (connectionId (fst s))]
  /\ fst (fst r) = fst (fst (stop s))
  /\ calls (snd (fst r)) = calls (snd (fst (stop s)))
  /\ mcsListeners (snd (fst r)) = mcsListeners (snd (fst (stop s))).
Proof.
  cbv zeta. destruct (stop_quiet s) as [Hf Hc].
  unfold disconnectUser, try_catch, bind, modify, ret.
  destruct (stop s) as [[x1 w1] [[]|e]]; cbn in *; rewrite Hf, Hc; by repeat split.
Qed.

(** X13. [transceive] puts a new endpoint in the slot without looking at what
    the slot held. With full audio disabled it rejects with
    SFU_INVALID_REQUEST and nothing happens. Otherwise the endpoint it
    constructs carries the connection and the user of the session, its
    handler is added to those registered with [mcs.on] and none is
    removed, nothing is sent to the client, and no call unpublishes or
    stops a bridge: an endpoint that was in the slot is neither stopped nor
    detached. *)
Theorem transceive_replaces_without_stopping
    (endpointOid : nat) (sdpOffer : string) (s : t * World) :
  (FULLAUDIO_ENABLED = false ->
   transceive endpointOid sdpOffer s = (s, Rejects SFU_INVALID_REQUEST))
  /\ (FULLAUDIO_ENABLED = true ->
      let s' := fst (transceive endpointOid sdpOffer s) in
      mcsListeners (snd s') = mcsListeners (snd s) ++ [endpointOid]
      /\ bbbListeners (snd s') = bbbListeners (snd s)
      /\ frames (snd s') = frames (snd s)
      /\ (exists e,
            _clientEndpoint (fst s') = Some e
            /\ Endpoint.oid e = endpointOid
            /\ Endpoint.connectionId e = connectionId (fst s)
            /\ Endpoint.userId e = userId (fst s))
      /\ exists made,
           calls (snd s') = calls (snd s) ++ made
           /\ forallb (fun c => negb (Endpoint.isRelease c)) made = true).
Proof.
  split; intros Hfull; unfold transceive; rewrite Hfull; cbn [negb]; [done|].
  cbv zeta. destruct s as [x w].
  unfold bind, modify, onEndpoint, clientEndpoint_set, Endpoint.new.
  cbn -[Endpoint.start].
  match goal with
  | |- context [Endpoint.start sdpOffer (?e1, ?w1)] =>
      destruct (TransceiverProofs.listeners_start sdpOffer (e1, w1))
        as (Hm & Hb & _);
      pose proof (TransceiverProofs.start_outward sdpOffer (e1, w1)) as Ho;
      pose proof (TransceiverProofs.start_constructorFields sdpOffer (e1, w1))
        as Hc;
      destruct (TransceiverProofs.start_calling sdpOffer (e1, w1))
        as (made & Hcalls & Hmade);
      destruct (Endpoint.start sdpOffer (e1, w1)) as [[e2 w2] r]
  end.
  unfold Endpoint.unchanged, Endpoint.outward, Endpoint.constructorFields in *.
  cbn in *.
  injection Ho as Hfr _ _ _. injection Hc as Hoid _ _ Hui Hci _ _ _.
  split; [by destruct (_clientEndpoint x)|].
  split; [by destruct (_clientEndpoint x)|].
  split; [by destruct (_clientEndpoint x)|].
  split; [by exists e2|].
  exists made. by destruct (_clientEndpoint x).
Qed.

(** X14. [start] of a session in the [sendrecv] role. It is [transceive]
    followed, when that resolves, by the registration of the
    MEDIA_SERVER_OFFLINE relay on the new endpoint, which then is its only
    listener; the answer is the endpoint's. When [transceive] rejects,
    [start] rejects with the error normalized for the role and the user of
    the session, registers no relay and cleans nothing up: the endpoint
    that failed to start stays in the slot. With full audio disabled,
    nothing happens but the rejection. In every case a well-formed
    session stays well formed, so that [stop] can still release it. *)
Theorem sendrecv_start_registers_relay_or_rejects
    (listen : string -> Async (t * World) string)
    (normalize : SfuError -> string -> string -> SfuError)
    (endpointOid : nat) (sdpOffer : string) (s : t * World) :
  role (fst s) = "sendrecv" ->
  let out := start listen normalize endpointOid sdpOffer s in
  let inner := transceive endpointOid sdpOffer s in
  match snd inner with
  | Resolves answer =>
      snd out = Resolves answer
      /\ fst out = _trackClientEndpointEvents (fst inner)
      /\ exists e, _clientEndpoint (fst (fst out)) = Some e
                   /\ Endpoint.listeners e = [relay (fst s)]
  | Rejects error =>
      snd out = Rejects (normalize error (role (fst s)) (userId (fst s)))
      /\ fst out = fst inner
  end
  /\ (FULLAUDIO_ENABLED = false ->
      out = (s, Rejects (normalize SFU_INVALID_REQUEST (role (fst s))
                           (userId (fst s)))))
  /\ (well_formed s -> endpointOid <> oid (fst s) -> well_formed (fst out)).
Proof.
  intros Hrole. cbv zeta.
  assert (Hstart : start listen normalize endpointOid sdpOffer s
            = match snd (transceive endpointOid sdpOffer s) with
              | Resolves answer =>
                  (_trackClientEndpointEvents
                     (fst (transceive endpointOid sdpOffer s)),
                   Resolves answer)
              | Rejects error =>
                  (fst (transceive endpointOid sdpOffer s),
                   Rejects (normalize error
                              (role (fst (fst (transceive endpointOid sdpOffer s))))
                              (userId (fst (fst (transceive endpointOid sdpOffer s))))))
              end).
  { unfold start, try_catch, bind, gets, modify, ret, throw. cbn [fst snd].
    rewrite Hrole. cbn [String.eqb Ascii.eqb Bool.eqb].
    replace ("sendrecv" =? "sendrecv")%string with true by reflexivity.
    by destruct (transceive endpointOid sdpOffer s) as [s1 [answer|error]]. }
  assert (Hfields : role (fst (fst (transceive endpointOid sdpOffer s)))
                    = role (fst s)
                    /\ userId (fst (fst (transceive endpointOid sdpOffer s)))
                       = userId (fst s)).
  { unfold transceive. destruct FULLAUDIO_ENABLED; cbn [negb]; [|done].
    unfold bind, modify, onEndpoint, clientEndpoint_set.
    cbn -[Endpoint.start Endpoint.new].
    destruct (_clientEndpoint (fst s)); by cbn -[Endpoint.start Endpoint.new]. }
  destruct Hfields as [Hr Hu].
  split; [|split].
  - rewrite Hstart.
    destruct (snd (transceive endpointOid sdpOffer s)) as [answer|error] eqn:Hin;
      cbn [fst snd]; [|by rewrite Hr, Hu].
    split; [done|]. split; [done|].
    revert Hin. unfold transceive. destruct FULLAUDIO_ENABLED; cbn [negb];
      [|discriminate].
    unfold bind, modify, onEndpoint, clientEndpoint_set,
      _trackClientEndpointEvents, Endpoint.new.
    cbn -[Endpoint.start].
    match goal with
    | |- context [Endpoint.start sdpOffer (?e1, ?w1)] =>
        pose proof (TransceiverProofs.start_constructorFields sdpOffer (e1, w1))
          as Hc;
        destruct (Endpoint.start sdpOffer (e1, w1)) as [[e2 w2] r]
    end.
    unfold Endpoint.unchanged, Endpoint.constructorFields in Hc. cbn in Hc.
    injection Hc as _ _ _ _ _ _ _ Hls.
    intros _. destruct (_clientEndpoint (fst s)); cbn;
      eexists; (split; [reflexivity|]); cbn; by rewrite Hls.
  - intros Hfull. rewrite Hstart. unfold transceive. rewrite Hfull. by cbn.
  - intros Hwf Hne. rewrite Hstart.
    destruct (transceive_well_formed endpointOid sdpOffer s Hne Hwf)
      as [(Hm & Hb & He) _].
    destruct (snd (transceive endpointOid sdpOffer s)); cbn [fst]; [|by split].
    unfold well_formed, _trackClientEndpointEvents, userLeftEvent in *.
    destruct (fst (transceive endpointOid sdpOffer s)) as [x1 w1]. cbn in *.
    destruct (_clientEndpoint x1) as [e|] eqn:Hslot; cbn; [|by rewrite Hslot].
    split; [done|]. split; [done|].
    intros e' [= <-]. cbn. by apply He.
Qed.

(** X15. Once a session is stopped it ignores what arrives late: a candidate
    from the client, a flush and an answer change nothing and reach no
    endpoint, and the answer resolves with [undefined]. A user who leaves
    after the stop is still sent the [close] frame, and nothing else
    happens. *)
Theorem stopped_session_ignores_late_requests
    (s : t * World) (candidate answer : string) :
  well_formed s ->
  let stopped := fst (stop s) in
  onIceCandidate candidate stopped = stopped
  /\ _flushCandidatesQueue stopped = stopped
  /\ processAnswer answer stopped = (stopped, Resolves None)
  /\ disconnectUser stopped
     = ((fst stopped, sendToClient (Close (connectionId (fst s))) (snd stopped)),
        Resolves tt).
Proof.
  intros Hwf. cbv zeta.
  destruct (stop_releases s Hwf) as (_ & Hslot & Ho & Hu & Hm & Hb).
  destruct (stop_quiet s) as [_ Hc].
  destruct (fst (stop s)) as [x1 w1] eqn:E. cbn [fst snd] in *.
  unfold onIceCandidate, _flushCandidatesQueue, processAnswer, disconnectUser,
    try_catch, bind, gets, modify, ret.
  cbn [fst snd]. rewrite Hslot.
  split; [done|]. split; [done|]. split; [done|].
  rewrite (stop_nothing_left x1 w1 Hslot) by (by rewrite ?Ho, ?Hu).
  cbn. by rewrite Hc.
Qed.

(** X16. Detaching a session is not stopping it. [finalDetachEventListeners]
    on a well-formed session leaves neither of the session's handlers
    registered on the shared emitters and empties the listeners of the
    session and of its endpoint, but calls nothing on the MCS, sends
    nothing, clears no timer, and leaves the endpoint in the slot. *)
Theorem detaching_is_not_stopping (s : t * World) :
  well_formed s ->
  let s' := finalDetachEventListeners s in
  registrations Nat.eqb (oid (fst s)) (mcsListeners (snd s')) = 0
  /\ registrations bbb_eqb (userLeftEvent (fst s)) (bbbListeners (snd s')) = 0
  /\ calls (snd s') = calls (snd s)
  /\ frames (snd s') = frames (snd s)
  /\ timers (snd s') = timers (snd s)
  /\ listeners (fst s') = []
  /\ _clientEndpoint (fst s')
     = Endpoint.set_listeners [] <$> _clientEndpoint (fst s).
Proof.
  destruct s as [x w]. intros (Hm & Hb & _). cbv zeta.
  unfold finalDetachEventListeners. unfold_session.
  cbn -[removeListener registrations] in *.
  destruct (_clientEndpoint x) as [e|] eqn:Hslot;
    cbn -[removeListener registrations]; rewrite ?Hslot;
    cbn -[removeListener registrations].
  - split.
    { rewrite removeListener_registrations.
      pose proof (removeListener_le Nat.eqb (oid x) (Endpoint.oid e)
                    (mcsListeners w)). lia. }
    split; [rewrite removeListener_registrations; lia|]. by repeat split.
  - split; [rewrite removeListener_registrations; lia|].
    split; [rewrite removeListener_registrations; lia|]. by repeat split.
Qed.

Lemma removeListener_snoc {A} (eqb : A -> A -> bool) (x : A) (l : list A) :
  eqb x x = true -> removeListener eqb x (l ++ [x]) = l.
Proof.
  intros Hx. unfold removeListener. rewrite rev_app_distr. cbn.
  rewrite Hx. apply rev_involutive.
Qed.

(** The listeners on the shared emitters after the session's [stop]. The
    endpoint's handler is removed by the detaching, by the endpoint's own
    [stop], and once more when the slot is set to [null]. *)
Lemma session_stop_listeners (s : t * World) :
  (forall e, _clientEndpoint (fst s) = Some e ->
     Endpoint.transceiverBridge e <> None) ->
  snd (stop s) = Resolves tt
  /\ _clientEndpoint (fst (fst (stop s))) = None
  /\ bbbListeners (snd (fst (stop s)))
     = removeListener bbb_eqb (userLeftEvent (fst s)) (bbbListeners (snd s))
  /\ mcsListeners (snd (fst (stop s)))
     = match _clientEndpoint (fst s) with
       | Some e =>
           removeListener Nat.eqb (Endpoint.oid e)
             (removeListener Nat.eqb (Endpoint.oid e)
                (removeListener Nat.eqb (oid (fst s))
                   (removeListener Nat.eqb (Endpoint.oid e)
                      (mcsListeners (snd s)))))
       | None => removeListener Nat.eqb (oid (fst s)) (mcsListeners (snd s))
       end.
Proof.
  destruct s as [x w]. intros He. unfold_session.
  cbn -[Endpoint.stop removeListener] in *.
  destruct (_clientEndpoint x) as [e|] eqn:Hslot;
    repeat (progress (cbn -[Endpoint.stop removeListener]; rewrite ?Hslot));
    [|done].
  specialize (He e eq_refl).
  match goal with
  | |- context [Endpoint.stop (?e1, ?w1)] =>
      destruct (Endpoint_stop_frame e1 w1 He) as (Hr & Hbb & Hmm);
      pose proof (TransceiverProofs.stop_constructorFields (e1, w1)) as Hc;
      destruct (Endpoint.stop (e1, w1)) as [[e4 w4] r]
  end.
  unfold Endpoint.unchanged, Endpoint.constructorFields in Hc.
  cbn -[removeListener] in *. injection Hc as Ho _ _ _ _ _ _ _. subst r.
  cbn -[removeListener]. rewrite Hbb, Hmm, Ho. by cbn -[removeListener].
Qed.

(** X17. A session leaves no handler behind. When the handler of the user's
    leaving is not registered before the session is constructed,
    constructing the session and stopping it gives back the world as it
    was. When the handler of the endpoint is not registered before either,
    then from the construction of the session through [transceive],
    whether the endpoint's [start] succeeds or fails, to [stop], the
    handlers registered with [mcs.on] and on the BBB gateway end as they
    were before the construction, the [stop] resolves and the slot is
    empty. *)
Theorem session_life_leaves_no_listener_behind
    (oid endpointOid : nat)
    (sessionId meetingId voiceBridge userId connectionId callerId role
       mediaServer sdpOffer : string) (w : World) :
  registrations bbb_eqb (String.append C_USER_LEFT_MEETING_2x userId, oid)
    (bbbListeners w) = 0 ->
  registrations Nat.eqb endpointOid (mcsListeners w) = 0 ->
  let s0 := new oid sessionId meetingId voiceBridge userId connectionId
              callerId role mediaServer w in
  let stopped := stop (fst (transceive endpointOid sdpOffer s0)) in
  stop s0 = ((fst s0, w), Resolves tt)
  /\ snd stopped = Resolves tt
  /\ _clientEndpoint (fst (fst stopped)) = None
  /\ mcsListeners (snd (fst stopped)) = mcsListeners w
  /\ bbbListeners (snd (fst stopped)) = bbbListeners w.
Proof.
  intros Hbbb Hmcs. cbv zeta.
  assert (Hrefl : bbb_eqb (String.append C_USER_LEFT_MEETING_2x userId, oid)
                    (String.append C_USER_LEFT_MEETING_2x userId, oid) = true).
  { unfold bbb_eqb. cbn. by rewrite String.eqb_refl, Nat.eqb_refl. }
  pose proof (removeListener_absent _ _ _ Hbbb) as Rb.
  pose proof (removeListener_absent _ _ _ Hmcs) as Rm.
  pose proof (removeListener_snoc bbb_eqb _ (bbbListeners w) Hrefl) as Rb'.
  assert (Hbl : removeListener bbb_eqb
                  (String.append C_USER_LEFT_MEETING_2x userId, oid)
                  (bbbListeners
                     (snd (new oid sessionId meetingId voiceBridge userId
                             connectionId callerId role mediaServer w)))
                = bbbListeners w).
  { unfold new, _trackMeetingEvents. by destruct EJECT_ON_USER_LEFT. }
  split.
  { unfold stop, bind, modify, gets, ret, _clearClientEndpointEvents,
      _untrackMeetingEvents, _untrackMCSEvents, clientEndpoint_set,
      userLeftEvent.
    unfold new, _trackMeetingEvents, userLeftEvent.
    destruct w.
    destruct EJECT_ON_USER_LEFT;
      unfold set_mcsListeners, set_bbbListeners, set__clientEndpoint;
      cbn -[removeListener] in *;
      rewrite TransceiverProofs.removeListener_last, ?Rb', ?Rb; reflexivity. }
  set (s0 := new oid sessionId meetingId voiceBridge userId connectionId
               callerId role mediaServer w) in *.
  assert (Hnew : mcsListeners (snd s0) = mcsListeners w ++ [oid]
               /\ AudioSession.oid (fst s0) = oid
               /\ userLeftEvent (fst s0)
                  = (String.append C_USER_LEFT_MEETING_2x userId, oid)
               /\ _clientEndpoint (fst s0) = None).
  { unfold s0, new, _trackMeetingEvents. by destruct EJECT_ON_USER_LEFT. }
  destruct Hnew as (Hm0 & Ho0 & Hu0 & Hslot0). clearbody s0.
  assert (Ht : let s1 := fst (transceive endpointOid sdpOffer s0) in
               AudioSession.oid (fst s1) = oid
               /\ userLeftEvent (fst s1)
                  = (String.append C_USER_LEFT_MEETING_2x userId, oid)
               /\ bbbListeners (snd s1) = bbbListeners (snd s0)
               /\ (forall e, _clientEndpoint (fst s1) = Some e ->
                     Endpoint.transceiverBridge e <> None)
               /\ match _clientEndpoint (fst s1) with
                  | Some e => Endpoint.oid e = endpointOid
                              /\ mcsListeners (snd s1)
                                 = (mcsListeners w ++ [oid]) ++ [endpointOid]
                  | None => mcsListeners (snd s1) = mcsListeners w ++ [oid]
                  end).
  { cbv zeta. unfold transceive.
    destruct FULLAUDIO_ENABLED; cbn [negb];
      [|unfold throw; cbn [fst snd]; by rewrite Hslot0].
    unfold bind, modify, onEndpoint, clientEndpoint_set, Endpoint.new.
    rewrite <- Hu0, <- Hm0, <- Ho0. destruct s0 as [x0 w0].
    cbn [fst snd] in *.
    cbn -[Endpoint.start].
    match goal with
    | |- context [Endpoint.start sdpOffer (?e1, ?w1)] =>
        destruct (TransceiverProofs.listeners_start sdpOffer (e1, w1))
          as (Hm & Hb & Hbr);
        pose proof (TransceiverProofs.start_constructorFields sdpOffer (e1, w1))
          as Hc;
        destruct (Endpoint.start sdpOffer (e1, w1)) as [[e2 w2] r]
    end.
    unfold Endpoint.unchanged, Endpoint.constructorFields in Hc.
    cbn in *. injection Hc as Hoid _ _ _ _ _ _ _.
    split; [done|]. split; [done|]. split; [done|].
    split; [|by split].
    intros e [= <-] Hn. by specialize (Hbr Hn). }
  cbv zeta in Ht. destruct Ht as (Ho1 & Hu1 & Hb1 & Hbr1 & Hm1).
  destruct (session_stop_listeners _ Hbr1) as (Hr & Hslot & Hsb & Hsm).
  split; [exact Hr|]. split; [exact Hslot|].
  rewrite Hsm, Hsb, Hu1, Hb1, Ho1, Hbl.
  split; [|done].
  destruct (_clientEndpoint (fst (fst (transceive endpointOid sdpOffer s0))))
    as [e|].
  - destruct Hm1 as [-> ->].
    by rewrite !TransceiverProofs.removeListener_last, !Rm.
  - by rewrite Hm1, TransceiverProofs.removeListener_last.
Qed.

End Session.

Lemma sendrecv_start_registers_relay_or_rejects_witness :
  role (fst Samples.sendrecvSession) = "sendrecv"
  /\ snd (@start Samples.answering Samples.audioConfig
            (fun _ => throw Samples.invalidRequest) (fun e _ _ => e)
            2 "offer" Samples.sendrecvSession)
     = Resolves "answer".
Proof.
  split; [reflexivity|].
  exact (proj1 (proj1
           (@sendrecv_start_registers_relay_or_rejects
              Samples.answering Samples.audioConfig
              (fun _ => throw Samples.invalidRequest) (fun e _ _ => e)
              2 "offer" Samples.sendrecvSession eq_refl))).
Defined.

Lemma session_life_leaves_no_listener_behind_witness :
  registrations bbb_eqb
    (String.append (@C_USER_LEFT_MEETING_2x Samples.audioConfig) "w_user", 1)
    (bbbListeners emptyWorld) = 0
  /\ registrations Nat.eqb 2 (mcsListeners emptyWorld) = 0
  /\ mcsListeners
       (snd (fst (@stop Samples.answering Samples.audioConfig
                    (fst (@transceive Samples.answering Samples.audioConfig
                            2 "offer"
                            (@new Samples.audioConfig 1 "w_user-72013-sendrecv"
                               "meeting" "72013" "w_user" "conn-1" "caller"
                               "sendrecv" "mediasoup" emptyWorld))))))
     = mcsListeners emptyWorld.
Proof.
  split; [reflexivity|]. split; [reflexivity|].
  exact (proj1 (proj2 (proj2 (proj2
           (@session_life_leaves_no_listener_behind
              Samples.answering Samples.audioConfig 1 2
              "w_user-72013-sendrecv" "meeting" "72013" "w_user" "conn-1"
              "caller" "sendrecv" "mediasoup" "offer" emptyWorld
              eq_refl eq_refl))))).
Defined.

Lemma stopped_session_ignores_late_requests_witness :
  @well_formed Samples.audioConfig Samples.session
  /\ onIceCandidate "late"
       (fst (@stop Samples.answering Samples.audioConfig Samples.session))
     = fst (@stop Samples.answering Samples.audioConfig Samples.session).
Proof.
  split; [exact sample_session_well_formed|].
  exact (proj1
           (@stopped_session_ignores_late_requests
              Samples.answering Samples.audioConfig Samples.session
              "late" "answer" sample_session_well_formed)).
Defined.

Lemma detaching_is_not_stopping_witness :
  @well_formed Samples.audioConfig Samples.session
  /\ calls (snd (@finalDetachEventListeners Samples.audioConfig Samples.session))
     = calls (snd Samples.session).
Proof.
  split; [exact sample_session_well_formed|].
  exact (proj1 (proj2 (proj2
           (@detaching_is_not_stopping Samples.audioConfig Samples.session
              sample_session_well_formed)))).
Defined.

End AudioSessionProofs.

(** ** VideoManager *)

Module VideoManagerProofs.
Import Runtime VideoManager.

(** *** Readiness of a session *)

Example getSessionId_example :
  getSessionId (Samples.message "start") = "u1-c1-share".
Proof. reflexivity. Qed.

(** C8 does not hold of the code. [isVideoInstanceReady] accepts a Video
    whatever its status (a status cannot be equal to both STOPPED and
    STOPPING), in particular a stopped one; [handleIceCandidate] then hands
    the candidate of a stopped session to the session instead of queueing
    it. *)
Theorem stopped_video_counts_as_ready :
  (forall v, isVideoInstanceReady (VideoInstance v) = true)
  /\ isVideoInstanceReady (VideoInstance Samples.stoppedVideo) = true
  /\ effects (handleIceCandidate (Samples.message "onIceCandidate")
                Samples.stoppedManager)
     = [VideoOnIceCandidate 0 (Some "candidate-1")]
  /\ pendingIce "u1-c1-share"
       (handleIceCandidate (Samples.message "onIceCandidate")
          Samples.stoppedManager)
     = [].
Proof.
  split; [intros v; unfold isVideoInstanceReady; by destruct (v_status v)|].
  split; [reflexivity|]. split; vm_compute; reflexivity.
Qed.

(** *** External webcam sources *)

Lemma replace_SIP_window c a b d r :
  Js.replace_SIP (String c (String a (String b (String d r))))
  = if Ascii.eqb c "|" && Js.ascii_in a "s" "S"
       && Js.ascii_in b "i" "I" && Js.ascii_in d "p" "P"
    then Js.replace_SIP r
    else String c (Js.replace_SIP (String a (String b (String d r)))).
Proof. reflexivity. Qed.

Lemma replace_SIP_short c r :
  String.length r < 3 ->
  Js.replace_SIP (String c r) = String c (Js.replace_SIP r).
Proof.
  destruct r as [|a [|b [|d r]]]; simpl; try reflexivity. lia.
Qed.

Lemma append_cons c s u : String.append (String c s) u = String c (String.append s u).
Proof. reflexivity. Qed.

Lemma append_nil u : String.append "" u = u.
Proof. reflexivity. Qed.

Lemma replace_SIP_suffix_bounded (n : nat) :
  forall s, String.length s <= n ->
    Js.replace_SIP (String.append s "|SIP") = Js.replace_SIP s.
Proof.
  induction n as [|n IH]; intros s Hs.
  - destruct s; [reflexivity|simpl in Hs; lia].
  - destruct s as [|c [|a [|b [|d r]]]]; simpl String.length in Hs.
    + reflexivity.
    + rewrite ?append_cons, ?append_nil. rewrite replace_SIP_window.
      replace (Js.ascii_in "|" "s" "S") with false by reflexivity.
      rewrite andb_false_r. simpl. reflexivity.
    + rewrite ?append_cons, ?append_nil. rewrite replace_SIP_window.
      replace (Js.ascii_in "|" "i" "I") with false by reflexivity.
      rewrite andb_false_r. simpl andb. cbv iota.
      rewrite (replace_SIP_short c (String a "")) by (simpl; lia).
      f_equal. apply (IH (String a "")). simpl; lia.
    + rewrite ?append_cons, ?append_nil. rewrite replace_SIP_window.
      replace (Js.ascii_in "|" "p" "P") with false by reflexivity.
      rewrite andb_false_r.
      rewrite (replace_SIP_short c (String a (String b ""))) by (simpl; lia).
      f_equal. apply (IH (String a (String b ""))). simpl; lia.
    + rewrite ?append_cons, ?append_nil. rewrite !replace_SIP_window.
      destruct (_ && _ && _ && _).
      * apply IH. lia.
      * f_equal. apply (IH (String a (String b (String d r)))). simpl; lia.
Qed.

Lemma replace_SIP_suffix (s : string) :
  Js.replace_SIP (String.append s "|SIP") = Js.replace_SIP s.
Proof. by apply (replace_SIP_suffix_bounded (String.length s)). Qed.

Lemma reserved_prefix_matches (userId : string) :
  Js.startsWith "v_" userId = true \/ Js.startsWith "V_" userId = true ->
  Js.truthy_match (Js.match_v_underscores userId) = true.
Proof.
  destruct userId as [|c u].
  - intros [Hp|Hp]; cbn in Hp; discriminate.
  - cbn [Js.startsWith]. intros Hp. cbn [Js.match_v_underscores]. unfold Js.ascii_in.
    destruct (Ascii.eqb_spec c "v") as [->|Hv]; [reflexivity|].
    destruct (Ascii.eqb_spec c "V") as [->|HV]; [reflexivity|].
    exfalso.
    destruct Hp as [Hp|Hp]; apply andb_prop in Hp as [Hp _];
      apply Ascii.eqb_eq in Hp; congruence.
Qed.

Lemma no_v_no_match (userId : string) :
  Js.startsWith "v" userId = false -> Js.startsWith "V" userId = false ->
  Js.truthy_match (Js.match_v_underscores userId) = false.
Proof.
  destruct userId as [|c u]; [reflexivity|].
  cbn [Js.startsWith]. rewrite !andb_true_r. intros Hv HV.
  cbn [Js.match_v_underscores]. unfold Js.ascii_in.
  rewrite (Ascii.eqb_sym c "v"), (Ascii.eqb_sym c "V"), Hv, HV. reflexivity.
Qed.

(** C9, as the code has it. When the userId of a
    USER_CAM_BROADCAST_STARTED event begins with the reserved prefix [v_]
    (in either case), the stream name with every occurrence of [|SIP]
    removed, in either case (so that a [|SIP] suffix is stripped), is
    registered under the stream name and under the userId; when the userId
    begins with neither [v] nor [V], the source table is left as it is. *)
Theorem webcam_source_tracking (stream userId : string) (m : t) :
  let normalized := Js.replace_SIP stream in
  let m' := onUserCamBroadcastStarted stream userId m in
  (Js.startsWith "v_" userId = true \/ Js.startsWith "V_" userId = true ->
     m' = Video_setSource userId normalized (Video_setSource stream normalized m)
     /\ sources m' !! stream = Some normalized
     /\ sources m' !! userId = Some normalized)
  /\ (Js.startsWith "v" userId = false -> Js.startsWith "V" userId = false ->
      m' = m)
  /\ Js.replace_SIP (String.append stream "|SIP") = normalized.
Proof.
  intros normalized m'. split; [|split].
  - intros Hp. unfold m', onUserCamBroadcastStarted.
    rewrite (reserved_prefix_matches _ Hp). fold normalized.
    split; [reflexivity|]. simpl. split.
    + rewrite lookup_insert. case_decide; [done|]. by rewrite lookup_insert_eq.
    + by rewrite lookup_insert_eq.
  - intros Hv HV. unfold m', onUserCamBroadcastStarted.
    by rewrite (no_v_no_match _ Hv HV).
  - apply replace_SIP_suffix.
Qed.

Lemma webcam_source_tracking_witness :
  (Js.startsWith "v_" "v_sip1" = true \/ Js.startsWith "V_" "v_sip1" = true)
  /\ sources (onUserCamBroadcastStarted "cam-1|SIP" "v_sip1" new) !! "v_sip1"
     = Some "cam-1".
Proof.
  split; [left; reflexivity|].
  exact (proj2 (proj2 (proj1 (webcam_source_tracking "cam-1|SIP" "v_sip1" new)
                         (or_introl eq_refl)))).
Defined.

(** C9, as stated, fails: for a stream name that carries [|SIP] elsewhere
    than at its end the listener does not register what the spec's words
    give. *)
Lemma webcam_source_tracking_not_as_specified :
  onUserCamBroadcastStarted "cam|SIP-1" "v_sip1" new
  <> tracked_as_specified "cam|SIP-1" "v_sip1" new.
Proof.
  intros Heq.
  apply (f_equal (fun m => sources m !! "v_sip1")) in Heq.
  vm_compute in Heq. discriminate.
Qed.

(** *** The session table *)

Section Table.
Context {V : Type}.
Implicit Types (l : list (string * V)).

Lemma entries_Map_delete_same k l : entries k (Map_delete k l) = 0.
Proof.
  unfold entries, Map_delete. induction l as [|e l IH]; simpl; [done|].
  destruct (String.eqb (fst e) k) eqn:E; simpl; [exact IH|]. by rewrite E.
Qed.

Lemma entries_Map_delete_other k k' l :
  k <> k' -> entries k (Map_delete k' l) = entries k l.
Proof.
  intros Hk. unfold entries, Map_delete.
  induction l as [|e l IH]; simpl; [done|].
  destruct (String.eqb_spec (fst e) k') as [E'|E']; simpl.
  - destruct (String.eqb_spec (fst e) k) as [E|E]; [congruence|exact IH].
  - destruct (String.eqb (fst e) k); simpl; by rewrite IH.
Qed.

Lemma entries_Map_delete_le k k' l : entries k (Map_delete k' l) <= entries k l.
Proof.
  destruct (decide (k = k')) as [->|Hk].
  - rewrite entries_Map_delete_same. lia.
  - by rewrite entries_Map_delete_other.
Qed.

Lemma entries_Map_set_other k k' v l :
  k <> k' -> entries k (Map_set k' v l) = entries k l.
Proof.
  intros Hk. unfold entries. induction l as [|e l IH]; simpl.
  - destruct (String.eqb_spec k' k); [congruence|done].
  - destruct (String.eqb_spec (fst e) k') as [E'|E']; simpl.
    + destruct (String.eqb_spec k' k); [congruence|].
      destruct (String.eqb_spec (fst e) k); [congruence|done].
    + destruct (String.eqb (fst e) k); simpl; by rewrite IH.
Qed.

Lemma entries_Map_set_same k v l :
  entries k (Map_set k v l) = Nat.max 1 (entries k l).
Proof.
  unfold entries. induction l as [|e l IH]; simpl.
  - by rewrite String.eqb_refl.
  - destruct (String.eqb (fst e) k) eqn:E; simpl.
    + rewrite String.eqb_refl. simpl. lia.
    + rewrite E. exact IH.
Qed.

Lemma Map_get_Map_set k v l : Map_get k (Map_set k v l) = Some v.
Proof.
  unfold Map_get. induction l as [|e l IH]; simpl.
  - by rewrite String.eqb_refl.
  - destruct (String.eqb (fst e) k) eqn:E; simpl.
    + by rewrite String.eqb_refl.
    + by rewrite E.
Qed.

Lemma Map_get_Map_delete k l : Map_get k (Map_delete k l) = None.
Proof.
  unfold Map_get, Map_delete. induction l as [|e l IH]; simpl; [done|].
  destruct (String.eqb (fst e) k) eqn:E; simpl; [exact IH|]. by rewrite E.
Qed.

(** The two operations the manager changes the table with keep at most
    one entry per key. *)
Lemma table_operations_keep_keys_unique k k' v l :
  entries k l <= 1 ->
  entries k (Map_set k' v l) <= 1 /\ entries k (Map_delete k' l) <= 1.
Proof.
  intros Hl. split.
  - destruct (decide (k = k')) as [->|Hk].
    + rewrite entries_Map_set_same. lia.
    + by rewrite entries_Map_set_other.
  - pose proof (entries_Map_delete_le k k' l). lia.
Qed.
End Table.

(** *** handleStart *)

Section Start.
Context `{Env}.

(** What [_closeSession] leaves behind. It always resolves. *)
Lemma closeSession_frame (sessionId : string) (m : t) :
  let m' := fst (_closeSession sessionId m) in
  snd (_closeSession sessionId m) = Resolves tt
  /\ sessions m'
     = match getSession sessionId m with
       | Some _ => Map_delete sessionId (sessions m)
       | None => sessions m
       end
  /\ nextOid m' = nextOid m
  /\ effects m'
     = effects m
       ++ match getSession sessionId m with
          | Some o => match heap m !! o with
                      | Some _ => [VideoStop o]
                      | None => []
                      end
          | None => []
          end
  /\ lifecycleQueues m' = lifecycleQueues m
  /\ schedule m' = schedule m.
Proof.
  unfold _closeSession, _stopSession, Video_call, try_catch, bind, modify,
    gets, ret, throw.
  cbn.
  destruct (getSession sessionId m) as [o|]; cbn.
  - destruct (heap m !! o) as [v|]; cbn.
    + destruct (Video_stop v) as [st [[]|e]]; cbn; by repeat split.
    + rewrite app_nil_r. by repeat split.
  - rewrite app_nil_r. by repeat split.
Qed.

Lemma close_if_stale (video : option nat) (sessionId : string) (m : t) :
  (match video with
   | Some _ => _closeSession sessionId
   | None => ret tt
   end) m
  = (match video with
     | Some _ => fst (_closeSession sessionId m)
     | None => m
     end, Resolves tt).
Proof.
  destruct video; [|reflexivity].
  destruct (closeSession_frame sessionId m) as (Hr & _).
  destruct (_closeSession sessionId m) as [m' r]. cbn in *. by subst r.
Qed.

(** [handleStart] once the permission is granted, stage by stage. *)
Lemma handleStart_granted (request : Message) (m : t) :
  snd (_getPermission request m) = Resolves tt ->
  let sid := getSessionId request in
  let m1 := fst (_getPermission request m) in
  let m2 := fst (_fetchIceQueue sid m1) in
  let iceQueue := snd (_fetchIceQueue sid m1) in
  let m3 := match getSession sid m1 with
            | Some _ => fst (_closeSession sid m2)
            | None => m2
            end in
  let o := nextOid m3 in
  let v := videoOf request in
  let m4 := storeSession sid o (fst (Video_new v m3)) in
  let out := Video_start v (sdpOffer request) (getVideoSpecsFromRequest request) in
  let m5 := effect (VideoStart o (sdpOffer request))
              (set_heap (fun h => <[o := set_status (fst out) v]> h) m4) in
  handleStart request m
  = match snd out with
    | Resolves sdpAnswer =>
        (sendToClient
           (StartResponse (connectionId request) "video" (role request)
              (cameraId request) sdpAnswer)
           (_trackMediaServerOfflineEvent o (_flushIceQueue o iceQueue m5)),
         Resolves tt)
    | Rejects error =>
        (sendToClient
           (ErrorFrame (_handleError (connectionId request) (cameraId request)
                          (role request) error))
           (increment ERRORS
              (Some {| method := id request; errorCode := err_code error |})
              m5),
         Resolves tt)
    end.
Proof.
  intros Hp. cbv zeta.
  unfold handleStart, try_catch, bind, videoOf.
  destruct (_getPermission request m) as [m1 [[]|e]] eqn:Ep;
    cbn in Hp; [|discriminate].
  unfold gets, call1, modify. cbn [fst snd].
  rewrite close_if_stale. cbn [fst snd].
  unfold Video_new, Video_call, storeSession, effect. cbn.
  rewrite lookup_insert_eq.
  destruct (Video_start _ _ _) as [st [sdpAnswer|error]]; reflexivity.
Qed.

Lemma getPermission_frame (request : Message) (m : t) :
  let m1 := fst (_getPermission request m) in
  sessions m1 = sessions m /\ heap m1 = heap m /\ nextOid m1 = nextOid m
  /\ iceQueues m1 = iceQueues m
  /\ exists query, effects m1 = effects m ++ query.
Proof.
  unfold _getPermission, bind, modify, await, throw.
  repeat (destruct (Js.strict_eq _ _)); cbn; repeat split;
    first [by eexists [_] | exists []; by rewrite app_nil_r].
Qed.

Lemma fetchIceQueue_frame (sessionId : string) (m : t) :
  let m2 := fst (_fetchIceQueue sessionId m) in
  sessions m2 = sessions m /\ heap m2 = heap m /\ effects m2 = effects m
  /\ nextOid m <= nextOid m2.
Proof.
  unfold _fetchIceQueue. destruct (iceQueues m !! sessionId); cbn;
    repeat split; lia.
Qed.

Lemma Map_get_None_entries {V} (k : string) (l : list (string * V)) :
  Map_get k l = None -> entries k l = 0.
Proof.
  unfold Map_get, entries. induction l as [|e l IH]; simpl; [done|].
  destruct (String.eqb (fst e) k); simpl; [discriminate|exact IH].
Qed.

Lemma beforeConstruction_frame (request : Message) (m : t) :
  let sid := getSessionId request in
  let m3 := beforeConstruction request m in
  sessions m3
  = match getSession sid m with
    | Some _ => Map_delete sid (sessions m)
    | None => sessions m
    end
  /\ nextOid m <= nextOid m3
  /\ effects m3
     = effects (fst (_getPermission request m))
       ++ match getSession sid m with
          | Some o => match heap m !! o with
                      | Some _ => [VideoStop o]
                      | None => []
                      end
          | None => []
          end.
Proof.
  cbv zeta. unfold beforeConstruction.
  destruct (getPermission_frame request m) as (Hs1 & Hh1 & Hn1 & _ & _).
  set (m1 := fst (_getPermission request m)) in *.
  destruct (fetchIceQueue_frame (getSessionId request) m1)
    as (Hs2 & Hh2 & He2 & Hn2).
  set (m2 := fst (_fetchIceQueue (getSessionId request) m1)) in *.
  assert (Hg1 : getSession (getSessionId request) m1
                = getSession (getSessionId request) m)
    by (unfold getSession; by rewrite Hs1).
  assert (Hg2 : getSession (getSessionId request) m2
                = getSession (getSessionId request) m)
    by (unfold getSession; by rewrite Hs2, Hs1).
  rewrite Hg1.
  destruct (getSession (getSessionId request) m) as [o|] eqn:Hg.
  - destruct (closeSession_frame (getSessionId request) m2)
      as (_ & Hs3 & Hn3 & He3 & _).
    cbv zeta in *. rewrite Hs3, Hn3, He3, Hg2, Hs2, Hs1, Hh2, Hh1, He2.
    repeat split; lia.
  - rewrite Hs2, Hs1, He2, app_nil_r. repeat split; lia.
Qed.


Lemma flushIceQueue_frame (video iceQueue : nat) (m : t) :
  let m' := _flushIceQueue video iceQueue m in
  sessions m' = sessions m /\ heap m' = heap m
  /\ effects m'
     = effects m ++ map (VideoOnIceCandidate video) (Array_read iceQueue m).
Proof.
  cbv zeta. unfold _flushIceQueue. cbn [sessions heap effects set_arrays].
  generalize (Array_read iceQueue m) as l. intros l. revert m.
  induction l as [|c l IH]; intros m; cbn [fold_left map].
  - rewrite app_nil_r. by repeat split.
  - destruct (IH (effect (VideoOnIceCandidate video c) m)) as (Hs & Hh & He).
    rewrite Hs, Hh, He. cbn. rewrite <- app_assoc. by repeat split.
Qed.

(** The table and the trace after [handleStart], once the permission
    is granted, whatever [video.start] does. *)
Lemma handleStart_stores (request : Message) (m : t) :
  snd (_getPermission request m) = Resolves tt ->
  let sid := getSessionId request in
  let m3 := beforeConstruction request m in
  let o := nextOid m3 in
  let m' := fst (handleStart request m) in
  let out := Video_start (videoOf request) (sdpOffer request)
               (getVideoSpecsFromRequest request) in
  snd (handleStart request m) = Resolves tt
  /\ sessions m' = Map_set sid o (sessions m3)
  /\ heap m' !! o = Some (set_status (fst out) (videoOf request))
  /\ exists rest,
       effects m'
       = effects m3 ++ [VideoNew o; VideoStart o (sdpOffer request)] ++ rest
       /\ (forall error, snd out = Rejects error ->
            rest = [ Increment ERRORS
                       (Some {| method := id request;
                                errorCode := err_code error |});
                     SendToClient
                       (ErrorFrame
                          (_handleError (connectionId request)
                             (cameraId request) (role request) error)) ]).
Proof.
  intros Hp. cbv zeta. rewrite (handleStart_granted request m Hp).
  fold (beforeConstruction request m).
  set (m3 := beforeConstruction request m).
  destruct (Video_start _ _ _) as [st [sdpAnswer|error]]; cbn [fst snd].
  - match goal with
    | |- context [_flushIceQueue ?o ?q ?a] =>
        destruct (flushIceQueue_frame o q a) as (Hs & Hh & He);
        generalize dependent (_flushIceQueue o q a)
    end.
    intros flushed Hs Hh He.
    split; [reflexivity|]. split; [cbn; by rewrite Hs|].
    split; [cbn; rewrite Hh; cbn; by rewrite lookup_insert_eq|].
    eexists. split; [|intros error; discriminate].
    cbn. rewrite He. cbn. rewrite <- !app_assoc. cbn. reflexivity.
  - split; [reflexivity|]. split; [reflexivity|].
    split; [cbn; by rewrite lookup_insert_eq|].
    eexists. split.
    + cbn. rewrite <- !app_assoc. cbn. reflexivity.
    + intros e [= <-]. reflexivity.
Qed.

(** C10. When the permission is granted and [video.start] rejects,
    [handleStart] resolves after recording the failure (error metric,
    error frame), and the session it constructed is still stored under
    the key: the table maps the key to the object constructed by this
    call, exactly once, and the trace ends with the construction, the
    failed start, the metric increment and the error frame, with no stop
    or removal after them. *)
Theorem failed_start_leaves_session_stored
    (request : Message) (m : t) (error : SfuError) :
  snd (_getPermission request m) = Resolves tt ->
  snd (Video_start (videoOf request) (sdpOffer request)
         (getVideoSpecsFromRequest request)) = Rejects error ->
  let sid := getSessionId request in
  let m' := fst (handleStart request m) in
  let o := nextOid (beforeConstruction request m) in
  snd (handleStart request m) = Resolves tt
  /\ nextOid m <= o
  /\ getSession sid m' = Some o
  /\ entries sid (sessions m') = 1
  /\ (exists st, heap m' !! o = Some (set_status st (videoOf request)))
  /\ effects m'
     = effects (beforeConstruction request m)
       ++ [ VideoNew o;
            VideoStart o (sdpOffer request);
            Increment ERRORS
              (Some {| method := id request; errorCode := err_code error |});
            SendToClient
              (ErrorFrame
                 {| em_connectionId := connectionId request;
                    em_streamId := cameraId request;
                    em_role := role request;
                    em_code := err_code error;
                    em_reason := errors_reason (err_code error) |}) ].
Proof.
  intros Hp Hstart. cbv zeta.
  destruct (handleStart_stores request m Hp)
    as (Hr & Hs & Hh & rest & He & Hrest).
  destruct (beforeConstruction_frame request m) as (Hs3 & Hn3 & _).
  cbv zeta in *.
  split; [exact Hr|]. split; [exact Hn3|].
  split; [unfold getSession; rewrite Hs; apply Map_get_Map_set|].
  split.
  { rewrite Hs, entries_Map_set_same, Hs3.
    destruct (getSession (getSessionId request) m) eqn:Hg.
    - by rewrite entries_Map_delete_same.
    - unfold getSession in Hg. by rewrite (Map_get_None_entries _ _ Hg). }
  split; [eexists; exact Hh|].
  rewrite He, (Hrest error Hstart). reflexivity.
Qed.

(** C3. A [start] for a key that has a session closes that session
    before it constructs the new one: the stop of the existing object
    is followed in the trace by the construction of the new object; once
    [handleStart] is done the key has exactly one entry, the new object.
    The table goes from its initial state to the state without the key
    to the state with the new entry, and each of these keeps at most one
    entry per key. *)
Theorem restart_closes_then_stores_one
    (request : Message) (m : t) (old : nat) (stale : Video) :
  snd (_getPermission request m) = Resolves tt ->
  getSession (getSessionId request) m = Some old ->
  heap m !! old = Some stale ->
  old < nextOid m ->
  let sid := getSessionId request in
  let m' := fst (handleStart request m) in
  let new := nextOid (beforeConstruction request m) in
  snd (handleStart request m) = Resolves tt
  /\ sessions (beforeConstruction request m) = Map_delete sid (sessions m)
  /\ sessions m' = Map_set sid new (Map_delete sid (sessions m))
  /\ (exists rest,
        effects m'
        = effects (fst (_getPermission request m))
          ++ [VideoStop old; VideoNew new] ++ rest)
  /\ new <> old
  /\ getSession sid m' = Some new
  /\ entries sid (sessions m') = 1
  /\ (forall k, entries k (sessions m) <= 1 ->
        entries k (Map_delete sid (sessions m)) <= 1
        /\ entries k (sessions m') <= 1).
Proof.
  intros Hp Hold Hheap Hfresh. cbv zeta.
  destruct (handleStart_stores request m Hp)
    as (Hr & Hs & Hh & rest & He & _).
  destruct (beforeConstruction_frame request m) as (Hs3 & Hn3 & He3).
  cbv zeta in *. rewrite Hold in Hs3, He3. rewrite Hheap in He3.
  rewrite Hs3 in Hs.
  split; [exact Hr|]. split; [exact Hs3|]. split; [exact Hs|].
  split.
  { exists (VideoStart (nextOid (beforeConstruction request m))
              (sdpOffer request) :: rest).
    rewrite He, He3. rewrite <- !app_assoc. reflexivity. }
  split; [lia|].
  split; [unfold getSession; rewrite Hs; apply Map_get_Map_set|].
  split; [by rewrite Hs, entries_Map_set_same, entries_Map_delete_same|].
  intros k Hk. rewrite Hs.
  destruct (table_operations_keep_keys_unique k (getSessionId request)
              (nextOid (beforeConstruction request m)) (sessions m) Hk)
    as [_ Hdel].
  split; [exact Hdel|].
  by destruct (table_operations_keep_keys_unique k (getSessionId request)
                 (nextOid (beforeConstruction request m))
                 (Map_delete (getSessionId request) (sessions m)) Hdel).
Qed.

End Start.

(** *** The lifecycle queues *)

Section Serialization.
Context `{Env}.

Lemma begun_snoc k l e :
  begun k (l ++ [e])
  = begun k l
    ++ match e with
       | Began k' task => if String.eqb k' k then [task] else []
       | Ended _ _ _ => []
       end.
Proof.
  induction l as [|x l IH]; simpl.
  - destruct e as [k' task|]; [destruct (String.eqb k' k)|]; done.
  - destruct x as [k' task|]; [destruct (String.eqb k' k)|]; simpl;
      by rewrite IH.
Qed.

Lemma busyAfter_snoc k b l e :
  busyAfter k b (l ++ [e])
  = match e with
    | Began k' _ => if String.eqb k' k then true else busyAfter k b l
    | Ended k' _ _ => if String.eqb k' k then false else busyAfter k b l
    end.
Proof.
  revert b; induction l as [|x l IH]; intros b; simpl.
  - by destruct e.
  - destruct x; apply IH.
Qed.

Lemma overlapFree_snoc k b l e :
  overlapFree k b (l ++ [e])
  = overlapFree k b l
    && match e with
       | Began k' _ => if String.eqb k' k then negb (busyAfter k b l) else true
       | Ended k' _ _ => if String.eqb k' k then busyAfter k b l else true
       end.
Proof.
  revert b; induction l as [|x l IH]; intros b; simpl.
  - destruct e as [k' task|k' task ok]; destruct (String.eqb k' k);
      by rewrite ?andb_true_r.
  - destruct x as [k' task|k' task ok]; destruct (String.eqb k' k);
      rewrite IH; by rewrite ?andb_assoc.
Qed.

(** [queue.push] on the queue [_fetchLifecycleQueue] returns: the task
    goes to the end of that queue and nothing else moves. *)
Lemma push_spec (sessionId : string) (task : Task) (m : t) (k : string) :
  let m' := Queue_push sessionId task (_fetchLifecycleQueue sessionId m) in
  pendingOf k m'
  = pendingOf k m ++ (if String.eqb sessionId k then [task] else [])
  /\ runningOf k m' = runningOf k m
  /\ schedule m' = schedule m
  /\ heap m' = heap m.
Proof.
  cbv zeta. unfold pendingOf, runningOf, Queue_push, _fetchLifecycleQueue.
  cbn. rewrite lookup_alter.
  destruct (String.eqb_spec sessionId k) as [<-|Hk].
  - rewrite decide_True by done.
    destruct (lifecycleQueues m !! sessionId) as [q|] eqn:Hq.
    + rewrite Hq. by cbn.
    + rewrite lookup_insert_eq. by cbn.
  - rewrite decide_False by done.
    destruct (lifecycleQueues m !! sessionId) as [q|] eqn:Hq.
    + rewrite app_nil_r. by repeat split.
    + rewrite lookup_insert_ne by done. rewrite app_nil_r. by repeat split.
Qed.

Lemma appends_same_queues k m m' :
  lifecycleQueues m' = lifecycleQueues m -> schedule m' = schedule m ->
  appends k [] m m'.
Proof.
  intros Hq Hs. unfold appends, pendingOf, runningOf.
  rewrite Hq, app_nil_r. by repeat split.
Qed.

Lemma killConnectionSessions_spec (connectionId : option string) (m : t) k :
  exists pushed,
    appends k pushed m (_killConnectionSessions connectionId m)
    /\ List.filter isLifecycle pushed = [].
Proof.
  unfold _killConnectionSessions.
  generalize (sessions m) as l. intros l. revert m.
  induction l as [|e l IH]; intros m; cbn [fold_left].
  - exists []. split; [by apply appends_same_queues|done].
  - match goal with
    | |- context [fold_left ?f l ?a] =>
        destruct (IH a) as (rest & (Hp & Hr & Hs) & Hf);
        assert (Ha : exists first, appends k first m a
                                   /\ List.filter isLifecycle first = [])
    end.
    { destruct (heap m !! snd e) as [session|];
        [|exists []; split; [by apply appends_same_queues|done]].
      destruct (Js.strict_eq _ _);
        [|exists []; split; [by apply appends_same_queues|done]].
      destruct (push_spec (fst e) (TaskClose (fst e) (snd e)) m k)
        as (Hp' & Hr' & Hs' & _).
      eexists. split; [by split|]. by destruct (String.eqb _ _). }
    destruct Ha as (first & (Hp' & Hr' & Hs') & Hf').
    exists (first ++ rest). split.
    + split; [|split]; [|congruence..].
      rewrite Hp, Hp'. by rewrite app_assoc.
    + by rewrite List.filter_app, Hf', Hf.
Qed.

Lemma handleIceCandidate_queues (message : Message) (m : t) :
  lifecycleQueues (handleIceCandidate message m) = lifecycleQueues m
  /\ schedule (handleIceCandidate message m) = schedule m.
Proof.
  unfold handleIceCandidate.
  assert (Hf : lifecycleQueues (fst (_fetchIceQueue (getSessionId message) m))
               = lifecycleQueues m
               /\ schedule (fst (_fetchIceQueue (getSessionId message) m))
                  = schedule m).
  { unfold _fetchIceQueue. by destruct (iceQueues m !! getSessionId message). }
  destruct (_fetchIceQueue (getSessionId message) m) as [m2 q].
  cbn [fst] in Hf.
  destruct (isVideoInstanceReady _); [destruct (getSession _ m)|]; exact Hf.
Qed.

Lemma dispatch_spec (message : Message) (m : t) k :
  exists pushed,
    appends k pushed m (dispatch message m)
    /\ List.filter isLifecycle pushed
       = if Js.strict_eq (id message) (Some "start")
         then if String.eqb (getSessionId message) k
              then [TaskStart message] else []
         else if Js.strict_eq (id message) (Some "subscriberAnswer")
         then if String.eqb (getSessionId message) k
              then [TaskSubscriberAnswer message] else []
         else if Js.strict_eq (id message) (Some "stop")
         then if String.eqb (getSessionId message) k
              then [TaskStop message] else []
         else [].
Proof.
  unfold dispatch.
  repeat
    (destruct (Js.strict_eq (id message) _);
     [match goal with
      | |- context [Queue_push ?sid ?task _] =>
          destruct (push_spec sid task m k) as (Hp & Hr & Hs & _);
          eexists; split; [by split|]; by destruct (String.eqb _ _)
      | _ => idtac
      end|]).
  - destruct (handleIceCandidate_queues message m) as [Hq Hs].
    exists []. split; [by apply appends_same_queues|done].
  - destruct (killConnectionSessions_spec (connectionId message) m k)
      as (pushed & Ha & Hf).
    exists pushed. by split.
  - exists []. split; [by apply appends_same_queues|done].
  - exists []. split; [by apply appends_same_queues|done].
Qed.

Lemma onMessage_spec (message : Message) (m : t) k :
  exists pushed,
    appends k pushed m (_onMessage message m)
    /\ List.filter isLifecycle pushed
       = match lifecycleTask message with
         | Some (k', task) => if String.eqb k' k then [task] else []
         | None => []
         end.
Proof.
  unfold _onMessage, lifecycleTask.
  set (m1 := increment REQS None m).
  assert (H1 : forall pushed m', appends k pushed m1 m' -> appends k pushed m m').
  { intros pushed m' Ha. exact Ha. }
  destruct (explodeUserInfoHeader message) as [message'|error].
  - destruct (dispatch_spec message' m1 k) as (pushed & Ha & Hf).
    exists pushed. split; [by apply H1|].
    rewrite Hf. by repeat (destruct (Js.strict_eq _ _)).
  - destruct WS_STRICT_HEADER_PARSING.
    + exists []. split; [by apply appends_same_queues|done].
    + destruct (dispatch_spec message m1 k) as (pushed & Ha & Hf).
      exists pushed. split; [by apply H1|].
      rewrite Hf. by repeat (destruct (Js.strict_eq _ _)).
Qed.

Lemma inbound_snoc k steps s :
  inbound k (steps ++ [s])
  = inbound k steps
    ++ match s with
       | Deliver message =>
           match lifecycleTask message with
           | Some (k', task) => if String.eqb k' k then [task] else []
           | None => []
           end
       | _ => []
       end.
Proof. unfold inbound. rewrite flat_map_app. simpl. by rewrite app_nil_r. Qed.

Lemma serialized_step k steps m s :
  serialized k steps m -> serialized k (steps ++ [s]) (step s m).
Proof.
  intros (Hfifo & Hfree & Hbusy). unfold serialized.
  rewrite inbound_snoc. destruct s as [message|sid|m'|sid ok]; cbn [step].
  - destruct (onMessage_spec message m k) as (pushed & (Hp & Hr & Hs) & Hf).
    rewrite Hs, Hp, Hr. split; [|by split].
    by rewrite app_assoc, List.filter_app, Hfifo, Hf.
  - rewrite app_nil_r. unfold begin.
    destruct (lifecycleQueues m !! sid) as [[[|task rest] [run|]]|] eqn:Hq;
      try (by repeat split).
    unfold pendingOf, runningOf in *. cbn.
    rewrite begun_snoc, overlapFree_snoc, busyAfter_snoc.
    destruct (String.eqb_spec sid k) as [<-|Hk].
    + rewrite lookup_insert_eq. rewrite Hq in *. cbn in *.
      rewrite Hfree, Hbusy. split; [|by split].
      by rewrite <- app_assoc.
    + rewrite lookup_insert_ne by done. rewrite app_nil_r, Hfree.
      by repeat split.
  - rewrite app_nil_r. by repeat split.
  - rewrite app_nil_r. unfold complete.
    destruct (lifecycleQueues m !! sid) as [[rest [task|]]|] eqn:Hq;
      try (by repeat split).
    unfold pendingOf, runningOf in *. cbn.
    rewrite begun_snoc, overlapFree_snoc, busyAfter_snoc.
    destruct (String.eqb_spec sid k) as [<-|Hk].
    + rewrite lookup_insert_eq. rewrite Hq in *. cbn in *.
      rewrite Hfree, Hbusy, app_nil_r. by repeat split.
    + rewrite lookup_insert_ne by done. rewrite app_nil_r, Hfree.
      by repeat split.
Qed.

Lemma serialized_run k steps : serialized k steps (run steps new).
Proof.
  induction steps as [|s steps IH] using rev_ind.
  - by repeat split.
  - unfold run. rewrite fold_left_app. cbn [fold_left].
    by apply serialized_step.
Qed.

(** C1. In every run of the manager, for every session key: each
    lifecycle task that [_onMessage] creates from an inbound [start],
    [subscriberAnswer] or [stop] message is pushed at the end of the
    queue of its key; the lifecycle tasks of the key, begun or waiting,
    are those of the inbound messages in arrival order, and the ones that
    have begun are the first of them, in that order; no two tasks of the
    key overlap: one begins only when none is running, whether the
    previous one succeeded or failed. *)
Theorem lifecycle_tasks_serialized (steps : list Step) (k : string) :
  let m := run steps new in
  (forall message m0,
     exists pushed,
       pendingOf k (_onMessage message m0) = pendingOf k m0 ++ pushed
       /\ List.filter isLifecycle pushed
          = match lifecycleTask message with
            | Some (k', task) => if String.eqb k' k then [task] else []
            | None => []
            end)
  /\ List.filter isLifecycle (begun k (schedule m) ++ pendingOf k m)
     = inbound k steps
  /\ List.filter isLifecycle (begun k (schedule m)) `prefix_of` inbound k steps
  /\ overlapFree k false (schedule m) = true.
Proof.
  intros m. destruct (serialized_run k steps) as (Hfifo & Hfree & _).
  fold m in Hfifo, Hfree.
  split.
  { intros message m0.
    destruct (onMessage_spec message m0 k) as (pushed & (Hp & _) & Hf).
    by exists pushed. }
  split; [exact Hfifo|]. split; [|exact Hfree].
  rewrite <- Hfifo, List.filter_app. by eexists.
Qed.

End Serialization.

(** *** Instances *)


Lemma failed_start_leaves_session_stored_witness :
  snd (@_getPermission (Samples.videoEnv true false)
         (Samples.message "start") new) = Resolves tt
  /\ snd (@Video_start (Samples.videoEnv true false)
            (@videoOf (Samples.videoEnv true false) (Samples.message "start"))
            (sdpOffer (Samples.message "start"))
            (@getVideoSpecsFromRequest (Samples.videoEnv true false)
               (Samples.message "start")))
     = Rejects Samples.negotiationFailed
  /\ getSession "u1-c1-share"
       (fst (@handleStart (Samples.videoEnv true false)
               (Samples.message "start") new))
     = Some 1.
Proof.
  split; [reflexivity|]. split; [reflexivity|].
  exact (proj1 (proj2 (proj2
           (@failed_start_leaves_session_stored (Samples.videoEnv true false)
              (Samples.message "start") new Samples.negotiationFailed
              eq_refl eq_refl)))).
Defined.

Lemma restart_closes_then_stores_one_witness :
  snd (@_getPermission (Samples.videoEnv true true)
         (Samples.message "start") Samples.stoppedManager) = Resolves tt
  /\ getSession "u1-c1-share" Samples.stoppedManager = Some 0
  /\ heap Samples.stoppedManager !! 0 = Some Samples.stoppedVideo
  /\ 0 < nextOid Samples.stoppedManager
  /\ entries "u1-c1-share"
       (sessions (fst (@handleStart (Samples.videoEnv true true)
                         (Samples.message "start") Samples.stoppedManager)))
     = 1.
Proof.
  split; [reflexivity|]. split; [reflexivity|]. split; [reflexivity|].
  split; [apply Nat.lt_0_1|].
  exact (proj1 (proj2 (proj2 (proj2 (proj2 (proj2 (proj2
           (@restart_closes_then_stores_one (Samples.videoEnv true true)
              (Samples.message "start") Samples.stoppedManager 0
              Samples.stoppedVideo eq_refl eq_refl eq_refl Nat.lt_0_1)))))))).
Defined.

Example restart_trace :
  effects (fst (@handleStart (Samples.videoEnv true true)
                  (Samples.message "start") Samples.stoppedManager))
  = [ CamBroadcastPermission (Some "meeting") (Some "u1") (Some "c1")
        (Some "conn-1");
      VideoStop 0;
      VideoNew 2;
      VideoStart 2 (Some "offer");
      VideoOnceMediaServerOffline 2;
      SendToClient
        (StartResponse (Some "conn-1") "video" (Some "share") (Some "c1")
           "answer") ].
Proof. vm_compute. reflexivity. Qed.

Example two_tasks_one_after_the_other :
  schedule
    (@run (Samples.videoEnv true true)
       [ Deliver (Samples.message "start");
         Deliver (Samples.message "stop");
         Begin "u1-c1-share";
         Begin "u1-c1-share";
         Finish "u1-c1-share" false;
         Begin "u1-c1-share" ]
       new)
  = [ Began "u1-c1-share" (TaskStart (Samples.message "start"));
      Ended "u1-c1-share" (TaskStart (Samples.message "start")) false;
      Began "u1-c1-share" (TaskStop (Samples.message "stop")) ].
Proof. vm_compute. reflexivity. Qed.

(** *** Session keys *)

Lemma hyphen_splits (a b x y : string) :
  Js.includes "-" a = false -> Js.includes "-" b = false ->
  String.append a (String "-" x) = String.append b (String "-" y) ->
  a = b /\ x = y.
Proof.
  revert b. induction a as [|c a IH]; intros [|d b] Ha Hb Heq; cbn in *.
  - injection Heq as ->. by split.
  - injection Heq as <- _. cbn in Hb. discriminate.
  - injection Heq as -> _. cbn in Ha. discriminate.
  - injection Heq as -> Heq.
    apply orb_false_elim in Ha as [_ Ha]. apply orb_false_elim in Hb as [_ Hb].
    destruct (IH b Ha Hb Heq) as [-> ->]. by split.
Qed.

(** X18. The session key tells sessions apart as long as user ids and camera
    ids contain no hyphen: two messages that carry a user id, a camera id
    and a role get the same key exactly when they agree on all three. *)
Theorem getSessionId_injective
    (m1 m2 : Message) (u1 c1 r1 u2 c2 r2 : string) :
  userId m1 = Some u1 -> cameraId m1 = Some c1 -> role m1 = Some r1 ->
  userId m2 = Some u2 -> cameraId m2 = Some c2 -> role m2 = Some r2 ->
  Js.includes "-" u1 = false -> Js.includes "-" c1 = false ->
  Js.includes "-" u2 = false -> Js.includes "-" c2 = false ->
  getSessionId m1 = getSessionId m2 <-> u1 = u2 /\ c1 = c2 /\ r1 = r2.
Proof.
  intros Hu1 Hc1 Hr1 Hu2 Hc2 Hr2 Nu1 Nc1 Nu2 Nc2.
  unfold getSessionId, getCameraId.
  rewrite Hu1, Hc1, Hr1, Hu2, Hc2, Hr2. cbn [Js.toString].
  change (String.append "-" ?z) with (String "-" z).
  split.
  - intros Heq.
    destruct (hyphen_splits _ _ _ _ Nu1 Nu2 Heq) as [-> Heq'].
    destruct (hyphen_splits _ _ _ _ Nc1 Nc2 Heq') as [-> ->]. by repeat split.
  - by intros (-> & -> & ->).
Qed.

(** *** Stream names without a bar *)

Lemma replace_SIP_plain (s : string) :
  Js.includes "|" s = false -> Js.replace_SIP s = s.
Proof.
  induction s as [|c rest IH]; [done|].
  cbn [Js.includes]. intros Hc. apply orb_false_elim in Hc as [Hc Hrest].
  specialize (IH Hrest).
  destruct rest as [|c1 [|c2 [|c3 rest']]];
    try (rewrite replace_SIP_short by (cbn; lia); by rewrite IH).
  rewrite replace_SIP_window, Hc. cbn [andb]. by rewrite IH.
Qed.

Lemma replace_SIP_length_bounded (n : nat) :
  forall s, String.length s <= n ->
    String.length (Js.replace_SIP s) <= String.length s.
Proof.
  induction n as [|n IH]; intros s Hs.
  - destruct s; [done|cbn in Hs; lia].
  - destruct s as [|c [|c1 [|c2 [|c3 rest']]]]; try (cbn; lia).
    rewrite replace_SIP_window. cbn [String.length] in Hs.
    destruct (_ && _ && _ && _).
    + specialize (IH rest'). cbn [String.length]. lia.
    + specialize (IH (String c1 (String c2 (String c3 rest')))).
      cbn [String.length] in *. lia.
Qed.

(** X19. What the webcam listener does to ordinary names and to the rest of
    the table. A stream name that contains no bar is registered as it is,
    under itself and under the user id. Whatever the stream name, the
    registered name is never longer than it, and the source table is only
    added to: every key other than the stream name and the user id keeps
    what it had, and so do the sessions and the effects of the manager. *)
Theorem plain_stream_names_are_registered_unchanged
    (stream userId : string) (m : t) :
  let m' := onUserCamBroadcastStarted stream userId m in
  (Js.includes "|" stream = false ->
   Js.truthy_match (Js.match_v_underscores userId) = true ->
   sources m' !! stream = Some stream /\ sources m' !! userId = Some stream)
  /\ String.length (Js.replace_SIP stream) <= String.length stream
  /\ (forall k, k <> stream -> k <> userId -> sources m' !! k = sources m !! k)
  /\ sessions m' = sessions m
  /\ effects m' = effects m.
Proof.
  cbv zeta. unfold onUserCamBroadcastStarted.
  split; [|split; [|split]].
  - intros Hplain ->. rewrite (replace_SIP_plain _ Hplain). cbn. split.
    + rewrite lookup_insert. case_decide; [done|]. by rewrite lookup_insert_eq.
    + by rewrite lookup_insert_eq.
  - by apply (replace_SIP_length_bounded (String.length stream)).
  - intros k Hs Hu. destruct (Js.truthy_match _); [|done]. cbn.
    by rewrite !lookup_insert_ne.
  - by destruct (Js.truthy_match _).
Qed.

(** *** Candidates, stops, answers *)

Section Requests.
Context `{Env}.

Lemma fetchIceQueue_reads (sessionId : string) (m : t) :
  Array_read (snd (_fetchIceQueue sessionId m)) (fst (_fetchIceQueue sessionId m))
  = pendingIce sessionId m
  /\ iceQueues (fst (_fetchIceQueue sessionId m)) !! sessionId
     = Some (snd (_fetchIceQueue sessionId m))
  /\ lifecycleQueues (fst (_fetchIceQueue sessionId m)) = lifecycleQueues m.
Proof.
  unfold _fetchIceQueue, pendingIce, Array_read.
  destruct (iceQueues m !! sessionId) as [a|] eqn:Hq; cbn; [by rewrite Hq|].
  by rewrite !lookup_insert_eq.
Qed.

(** One candidate for a key without session. *)
Lemma handleIceCandidate_queues_it (message : Message) (m : t) :
  getSession (getSessionId message) m = None ->
  let m' := handleIceCandidate message m in
  pendingIce (getSessionId message) m'
  = pendingIce (getSessionId message) m ++ [candidate message]
  /\ effects m' = effects m /\ sessions m' = sessions m /\ heap m' = heap m.
Proof.
  intros Hnone. cbv zeta. unfold handleIceCandidate. rewrite Hnone.
  destruct (fetchIceQueue_reads (getSessionId message) m) as (Hread & Hq & _).
  destruct (fetchIceQueue_frame (getSessionId message) m) as (Hs & Hh & He & _).
  destruct (_fetchIceQueue (getSessionId message) m) as [m2 a].
  cbn [fst snd valueOf isVideoInstanceReady] in *.
  rewrite <- Hread. unfold pendingIce, Array_push, Array_read. cbn.
  rewrite Hq, lookup_insert_eq. by repeat split.
Qed.

(** X20. Candidates that arrive for a key before any session is stored under it
    are neither dropped nor handed to anyone: each is appended to the
    pending queue of the key, which is created on the first of them, so
    that the queue holds them in arrival order; the sessions and the
    effects are as before. *)
Theorem early_candidates_wait_in_arrival_order
    (messages : list Message) (sid : string) (m : t) :
  getSession sid m = None ->
  Forall (fun message => getSessionId message = sid) messages ->
  let m' := fold_left (fun m message => handleIceCandidate message m) messages m in
  pendingIce sid m' = pendingIce sid m ++ map candidate messages
  /\ effects m' = effects m
  /\ sessions m' = sessions m
  /\ heap m' = heap m.
Proof.
  intros Hnone Hall. cbv zeta. revert m Hnone.
  induction Hall as [|message messages Hsid Hall IH]; intros m Hnone;
    cbn [fold_left map].
  - by rewrite app_nil_r.
  - subst sid.
    destruct (handleIceCandidate_queues_it message m Hnone)
      as (Hp & He & Hs & Hh).
    cbv zeta in *.
    destruct (IH (handleIceCandidate message m)) as (Hp' & He' & Hs' & Hh').
    { unfold getSession in *. by rewrite Hs. }
    rewrite Hp', Hp, He', He, Hs', Hs, Hh', Hh, <- app_assoc. by repeat split.
Qed.

Lemma closeSession_ice (sessionId : string) (m : t) :
  iceQueues (fst (_closeSession sessionId m)) = delete sessionId (iceQueues m)
  /\ arrays (fst (_closeSession sessionId m)) = arrays m.
Proof.
  unfold _closeSession, _stopSession, Video_call, try_catch, bind, modify,
    gets, ret, throw.
  cbn.
  destruct (getSession sessionId m) as [o|]; cbn; [|done].
  destruct (heap m !! o) as [v|]; cbn; [|done].
  by destruct (Video_stop v) as [st [[]|e]].
Qed.

Lemma getPermission_ice (request : Message) (m : t) :
  iceQueues (fst (_getPermission request m)) = iceQueues m
  /\ arrays (fst (_getPermission request m)) = arrays m.
Proof.
  unfold _getPermission, bind, modify, await, throw.
  by repeat (destruct (Js.strict_eq _ _)).
Qed.

Lemma Map_get_Map_delete_other {V} (k k' : string) (l : list (string * V)) :
  k <> k' -> Map_get k (Map_delete k' l) = Map_get k l.
Proof.
  intros Hk. unfold Map_get, Map_delete.
  induction l as [|e l IH]; cbn; [done|].
  destruct (String.eqb_spec (fst e) k') as [E'|E']; cbn.
  - destruct (String.eqb_spec (fst e) k) as [E|E]; [congruence|exact IH].
  - destruct (String.eqb (fst e) k); [done|exact IH].
Qed.

(** X21. [handleStop] forgets the session of its key and nothing else. It
    always resolves, whether the stop of the session succeeds or fails;
    afterwards the key has no session and no pending candidates, while the
    session and the pending candidates of every other key are as before.
    The session, if there was one, was stopped once, and nothing is sent to
    the client. *)
Theorem handleStop_forgets_the_session (message : Message) (m : t) :
  let sid := getSessionId message in
  let m' := fst (handleStop message m) in
  snd (handleStop message m) = Resolves tt
  /\ getSession sid m' = None
  /\ pendingIce sid m' = []
  /\ (forall k, k <> sid ->
        getSession k m' = getSession k m /\ pendingIce k m' = pendingIce k m)
  /\ effects m'
     = effects m
       ++ match getSession sid m with
          | Some o => match heap m !! o with
                      | Some _ => [VideoStop o]
                      | None => []
                      end
          | None => []
          end
  /\ lifecycleQueues m' = lifecycleQueues m.
Proof.
  cbv zeta. unfold handleStop.
  destruct (closeSession_frame (getSessionId message) m)
    as (Hr & Hs & _ & He & Hq & _).
  destruct (closeSession_ice (getSessionId message) m) as (Hi & Ha).
  cbv zeta in *.
  split; [exact Hr|]. unfold getSession, pendingIce, Array_read in *.
  rewrite Hs, Hi, Ha.
  split.
  { destruct (Map_get (getSessionId message) (sessions m)) eqn:Hg;
      [apply Map_get_Map_delete|exact Hg]. }
  split; [by rewrite lookup_delete_eq|].
  split; [|by split].
  intros k Hk. rewrite lookup_delete_ne by done. split; [|done].
  destruct (Map_get (getSessionId message) (sessions m));
    [by apply Map_get_Map_delete_other|done].
Qed.

(** X22. A failed [processAnswer] stays on the server. [handleSubscriberAnswer]
    resolves whatever the session answers; it hands the answer to the
    session stored under the key, once, and when that rejects it counts
    one error under the id of the message and sends nothing to the client.
    Without a session under the key it does nothing. The session table is
    never changed. *)
Theorem subscriber_answer_failure_is_only_counted (message : Message) (m : t) :
  let r := handleSubscriberAnswer message m in
  sessions (fst r) = sessions m
  /\ (getSession (getSessionId message) m = None -> r = (m, Resolves tt))
  /\ (forall o v,
        getSession (getSessionId message) m = Some o ->
        heap m !! o = Some v ->
        snd r = Resolves tt
        /\ effects (fst r)
           = effects m
             ++ VideoProcessAnswer o (answer message)
                :: match Video_processAnswer v (answer message) with
                   | Resolves _ => []
                   | Rejects error =>
                       [Increment ERRORS
                          (Some {| method := id message;
                                   errorCode := err_code error |})]
                   end).
Proof.
  cbv zeta. unfold handleSubscriberAnswer, Video_call, try_catch, bind, gets,
    modify, ret, throw.
  cbn [fst snd].
  destruct (getSession (getSessionId message) m) as [o|] eqn:Hg; cbn [fst snd];
    [|by repeat split].
  destruct (heap m !! o) as [v|] eqn:Hh; cbn [fst snd].
  - destruct (Video_processAnswer v (answer message)) as [[]|error] eqn:Hp;
      cbn; rewrite ?lookup_insert_eq; cbn.
    + split; [done|]. split; [done|]. intros o' v' [= <-] Hv.
      rewrite Hh in Hv. injection Hv as <-. rewrite Hp. by split.
    + split; [done|]. split; [done|]. intros o' v' [= <-] Hv.
      rewrite Hh in Hv. injection Hv as <-. rewrite Hp.
      split; [done|]. by rewrite <- app_assoc.
  - rewrite Hh. cbn. split; [done|]. split; [done|].
    intros o' v' [= <-] Hv. congruence.
Qed.

Lemma flushIceQueue_ice (video iceQueue : nat) (m : t) :
  iceQueues (_flushIceQueue video iceQueue m) = iceQueues m
  /\ arrays (_flushIceQueue video iceQueue m) = <[iceQueue := []]> (arrays m).
Proof.
  unfold _flushIceQueue. cbn [iceQueues arrays set_arrays].
  generalize (Array_read iceQueue m) as l. intros l. revert m.
  induction l as [|c l IH]; intros m; cbn [fold_left]; [done|].
  destruct (IH (effect (VideoOnIceCandidate video c) m)) as [Hi Ha].
  by rewrite Hi, Ha.
Qed.

(** X23. A [start] that goes through hands over what was waiting. When the
    permission is granted and [video.start] resolves, [handleStart]
    resolves; after the construction and the start of the new session, the
    candidates that were pending for the key are given to that session in
    arrival order, then the session is watched for MEDIA_SERVER_OFFLINE and
    the client is sent one [startResponse] with the answer of
    [video.start]. Afterwards nothing is pending for the key, and the key
    is bound to the new session. *)
Theorem successful_start_flushes_then_answers
    (request : Message) (m : t) (st : Status) (sdpAnswer : string) :
  snd (_getPermission request m) = Resolves tt ->
  Video_start (videoOf request) (sdpOffer request)
    (getVideoSpecsFromRequest request) = (st, Resolves sdpAnswer) ->
  let sid := getSessionId request in
  let m' := fst (handleStart request m) in
  let o := nextOid (beforeConstruction request m) in
  snd (handleStart request m) = Resolves tt
  /\ effects m'
     = effects (beforeConstruction request m)
       ++ [VideoNew o; VideoStart o (sdpOffer request)]
       ++ map (VideoOnIceCandidate o) (pendingIce sid m)
       ++ [VideoOnceMediaServerOffline o;
           SendToClient
             (StartResponse (connectionId request) "video" (role request)
                (cameraId request) sdpAnswer)]
  /\ pendingIce sid m' = []
  /\ getSession sid m' = Some o
  /\ heap m' !! o = Some (set_status st (videoOf request)).
Proof.
  intros Hp Hstart. cbv zeta.
  rewrite (handleStart_granted request m Hp). rewrite Hstart. cbn [fst snd].
  destruct (getPermission_ice request m) as [Hi1 Ha1].
  set (m1 := fst (_getPermission request m)) in *.
  destruct (fetchIceQueue_reads (getSessionId request) m1) as (Hread & Hq & _).
  assert (Hpend : pendingIce (getSessionId request) m1
                  = pendingIce (getSessionId request) m)
    by (unfold pendingIce, Array_read; by rewrite Hi1, Ha1).
  rewrite Hpend in Hread. clear Hpend.
  unfold beforeConstruction. fold m1.
  set (m2 := fst (_fetchIceQueue (getSessionId request) m1)) in *.
  set (q := snd (_fetchIceQueue (getSessionId request) m1)) in *.
  set (m3 := match getSession (getSessionId request) m1 with
             | Some _ => fst (_closeSession (getSessionId request) m2)
             | None => m2
             end).
  assert (H3 : arrays m3 = arrays m2
               /\ pendingIce (getSessionId request)
                    (set_arrays (fun h => <[q := []]> h) m3) = []).
  { unfold m3, pendingIce, Array_read.
    destruct (getSession (getSessionId request) m1).
    - destruct (closeSession_ice (getSessionId request) m2) as [Hi Ha].
      split; [exact Ha|]. cbn. by rewrite Hi, lookup_delete_eq.
    - split; [done|]. cbn. by rewrite Hq, lookup_insert_eq. }
  destruct H3 as [Ha3 Hempty].
  match goal with
  | |- context [_flushIceQueue ?o ?q ?a] =>
      destruct (flushIceQueue_frame o q a) as (Hs & Hh & He);
      destruct (flushIceQueue_ice o q a) as (Hfi & Hfa);
      assert (Hr5 : Array_read q a = pendingIce (getSessionId request) m)
        by (rewrite <- Hread; unfold Array_read; cbn; by rewrite Ha3);
      generalize dependent (_flushIceQueue o q a)
  end.
  intros flushed Hs Hh He Hfi Hfa. cbv zeta in *.
  split; [reflexivity|].
  split.
  { cbn. rewrite He, Hr5. cbn. by rewrite <- !app_assoc. }
  split.
  { revert Hempty. unfold pendingIce, Array_read. cbn. by rewrite Hfi, Hfa. }
  split.
  { unfold getSession. cbn. rewrite Hs. cbn. apply Map_get_Map_set. }
  cbn. rewrite Hh. cbn. by rewrite lookup_insert_eq.
Qed.

(** X24. When the media server goes offline after a [start] that went
    through, the client that asked for the session is told, and the
    session stays. The listener [handleStart] registered on the new
    session counts one error under "event" and then sends one error frame
    with the code of MEDIA_SERVER_OFFLINE to the connection of the
    request, naming the camera and the role of the request, as the error
    frames of [handleStart] do; the session is still stored under the key:
    stopping it is left to the client. *)
Theorem offline_after_start_is_reported_to_the_requester
    (request : Message) (m : t) (st : Status) (sdpAnswer : string) :
  snd (_getPermission request m) = Resolves tt ->
  Video_start (videoOf request) (sdpOffer request)
    (getVideoSpecsFromRequest request) = (st, Resolves sdpAnswer) ->
  let started := fst (handleStart request m) in
  let o := nextOid (beforeConstruction request m) in
  let m' := onMediaServerOffline o started in
  In (VideoOnceMediaServerOffline o) (effects started)
  /\ effects m'
     = effects started
       ++ [ Increment ERRORS
              (Some {| method := Some "event";
                       errorCode := err_code errors_MEDIA_SERVER_OFFLINE |});
            SendToClient
              (ErrorFrame
                 {| em_connectionId := connectionId request;
                    em_streamId := cameraId request;
                    em_role := role request;
                    em_code := err_code errors_MEDIA_SERVER_OFFLINE;
                    em_reason :=
                      errors_reason (err_code errors_MEDIA_SERVER_OFFLINE) |}) ]
  /\ sessions m' = sessions started
  /\ getSession (getSessionId request) m' = Some o.
Proof.
  intros Hp Hstart. cbv zeta.
  rewrite (handleStart_granted request m Hp). rewrite Hstart. cbn [fst snd].
  fold (beforeConstruction request m).
  match goal with
  | |- context [_flushIceQueue ?o ?q ?a] =>
      destruct (flushIceQueue_frame o q a) as (Hs & Hh & _);
      generalize dependent (_flushIceQueue o q a)
  end.
  intros flushed Hs Hh. cbv zeta in *.
  set (o := nextOid (beforeConstruction request m)) in *.
  assert (Hobj : heap flushed !! o = Some (set_status st (videoOf request)))
    by (rewrite Hh; cbn; by rewrite lookup_insert_eq).
  assert (Hkey : Map_get (getSessionId request) (sessions flushed) = Some o)
    by (rewrite Hs; cbn; apply Map_get_Map_set).
  unfold onMediaServerOffline, getSession.
  cbn [heap sendToClient _trackMediaServerOfflineEvent effect set_effects].
  rewrite Hobj. cbn.
  split; [rewrite !in_app_iff; left; right; by left|].
  split; [by rewrite <- !app_assoc|]. by split.
Qed.

Lemma handleClose_frame (message : Message) (m : t) :
  sessions (handleClose message m) = sessions m
  /\ heap (handleClose message m) = heap m
  /\ effects (handleClose message m) = effects m.
Proof.
  unfold handleClose, _killConnectionSessions.
  generalize (sessions m) at 1 3 4 as l. intros l. revert m.
  induction l as [|e l IH]; intros m; cbn [fold_left]; [done|].
  match goal with
  | |- context [fold_left ?f l ?a] =>
      destruct (IH a) as (Hs & Hh & He); rewrite Hs, Hh, He
  end.
  destruct (heap m !! snd e); [|done]. by destruct (Js.strict_eq _ _).
Qed.

(** X25. [handleClose] stops nothing itself. For every session of the closed
    connection, in the order of the table, it pushes one closing task at
    the end of the lifecycle queue of that session's key, behind whatever
    is waiting there; the queues of other sessions, the running tasks, the
    session table, the objects and the effects are as before. *)
Theorem handleClose_queues_one_close_per_session
    (message : Message) (m : t) (k : string) :
  let m' := handleClose message m in
  pendingOf k m'
  = pendingOf k m
    ++ map (fun e => TaskClose (fst e) (snd e))
         (List.filter (fun e => String.eqb (fst e) k)
            (connectionSessions (connectionId message) m))
  /\ runningOf k m' = runningOf k m
  /\ sessions m' = sessions m
  /\ heap m' = heap m
  /\ effects m' = effects m
  /\ schedule m' = schedule m.
Proof.
  cbv zeta. unfold handleClose, _killConnectionSessions, connectionSessions.
  assert (Hgen : forall l m0,
    heap m0 = heap m ->
    let m' := fold_left
                (fun m e =>
                   match heap m !! snd e with
                   | Some session =>
                       if Js.strict_eq (v_connectionId session) (connectionId message)
                       then Queue_push (fst e) (TaskClose (fst e) (snd e))
                              (_fetchLifecycleQueue (fst e) m)
                       else m
                   | None => m
                   end) l m0 in
    pendingOf k m'
    = pendingOf k m0
      ++ map (fun e => TaskClose (fst e) (snd e))
           (List.filter (fun e => String.eqb (fst e) k)
              (List.filter
                 (fun e =>
                    match heap m !! snd e with
                    | Some session =>
                        Js.strict_eq (v_connectionId session) (connectionId message)
                    | None => false
                    end) l))
    /\ runningOf k m' = runningOf k m0
    /\ sessions m' = sessions m0
    /\ heap m' = heap m0
    /\ effects m' = effects m0
    /\ schedule m' = schedule m0).
  { intros l.
    induction l as [|e l IH]; intros m0 Hh0; cbn [fold_left List.filter map].
    - by rewrite app_nil_r.
    - replace (heap m !! snd e) with (heap m0 !! snd e) by (by rewrite Hh0).
      destruct (heap m0 !! snd e) as [session|] eqn:Hobj; [|by apply IH].
      destruct (Js.strict_eq _ _); [|by apply IH].
      destruct (push_spec (fst e) (TaskClose (fst e) (snd e)) m0 k)
        as (Hp & Hr & Hs & Hh).
      cbv zeta in *.
      match goal with
      | |- context [fold_left ?f l ?a] =>
          destruct (IH a) as (Hp' & Hr' & Hs' & Hh' & He' & Hsch');
          [by rewrite Hh|]
      end.
      cbv zeta in *. rewrite Hp', Hp, Hr', Hr, Hs', Hh', Hh, He', Hsch', Hs.
      cbn [List.filter]. destruct (String.eqb (fst e) k); cbn [map];
        rewrite <- ?app_assoc; by repeat split. }
  exact (Hgen (sessions m) m eq_refl).
Qed.

Lemma dispatch_effects (message : Message) (m : t) :
  sessions (dispatch message m) = sessions m
  /\ heap (dispatch message m) = heap m
  /\ exists rest,
       effects (dispatch message m) = effects m ++ rest
       /\ forallb immediate rest = true /\ length rest <= 2.
Proof.
  unfold dispatch.
  repeat
    (destruct (Js.strict_eq (id message) _);
     [match goal with
      | |- context [Queue_push _ _ _] =>
          cbn; split; [done|]; split; [done|]; exists [];
          rewrite app_nil_r; split; [done|]; split; [done|cbn; lia]
      | _ => idtac
      end|]).
  - unfold handleIceCandidate.
    destruct (fetchIceQueue_frame (getSessionId message) m) as (Hs & Hh & He & _).
    destruct (_fetchIceQueue (getSessionId message) m) as [m2 q].
    cbn [fst] in *.
    destruct (isVideoInstanceReady _); [destruct (getSession _ m)|]; cbn;
      rewrite ?Hs, ?Hh, ?He; (split; [done|]; split; [done|]);
      first [ eexists [_]; split; [reflexivity|]; split; [reflexivity|cbn; lia]
            | exists []; rewrite app_nil_r; split; [done|]; split;
              [done|cbn; lia] ].
  - destruct (handleClose_frame message m) as (Hs & Hh & He).
    rewrite Hs, Hh, He.
    split; [done|]. split; [done|]. exists []. rewrite app_nil_r.
    split; [done|]. split; [done|cbn; lia].
  - cbn. split; [done|]. split; [done|]. exists [UpstreamErrorLogged].
    split; [done|]. split; [done|cbn; lia].
  - cbn. split; [done|]. split; [done|]. eexists [_; _].
    rewrite <- app_assoc. split; [reflexivity|]. split; [reflexivity|cbn; lia].
Qed.

(** X26. [_onMessage] counts and defers. Every inbound message, whatever it
    is, adds exactly one to the request counter, first of all. Before it
    returns, [_onMessage] does at most two things more, and only of these
    kinds: relay a candidate to a session, log an upstream error, answer an
    invalid request with an error frame and an error count. It never
    changes the session table or a session object, and it never asks for a
    permission, constructs, starts or stops a session, or hands over an
    answer: all of that is left to the lifecycle queues. *)
Theorem onMessage_counts_and_defers (message : Message) (m : t) :
  let m' := _onMessage message m in
  sessions m' = sessions m
  /\ heap m' = heap m
  /\ exists rest,
       effects m' = effects m ++ Increment REQS None :: rest
       /\ forallb immediate rest = true
       /\ length rest <= 2.
Proof.
  cbv zeta. unfold _onMessage.
  assert (Hd : forall message',
            sessions (dispatch message' (increment REQS None m)) = sessions m
            /\ heap (dispatch message' (increment REQS None m)) = heap m
            /\ exists rest,
                 effects (dispatch message' (increment REQS None m))
                 = effects m ++ Increment REQS None :: rest
                 /\ forallb immediate rest = true /\ length rest <= 2).
  { intros message'.
    destruct (dispatch_effects message' (increment REQS None m))
      as (Hs & Hh & rest & He & Hi & Hl).
    split; [by rewrite Hs|]. split; [by rewrite Hh|].
    exists rest. split; [|by split]. rewrite He. cbn. by rewrite <- app_assoc. }
  destruct (explodeUserInfoHeader message) as [message'|error]; [apply Hd|].
  destruct WS_STRICT_HEADER_PARSING; [|apply Hd].
  cbn. split; [done|]. split; [done|]. eexists [_; _].
  rewrite <- !app_assoc. split; [reflexivity|]. split; [reflexivity|cbn; lia].
Qed.

(** X27. What counts as an invalid request, and how it is answered. A message
    whose id is none of the six known ones, and under strict header
    parsing a message whose user-info header cannot be parsed, whatever its
    id, is answered by [_handleInvalidRequest]: one error frame with the
    code of SFU_INVALID_REQUEST for the connection, camera and role of the
    message, then one error count labelled with the id of the message, or
    with "event" when the message has none. No task is queued and no
    pending candidate is kept for it. Without strict parsing, a message
    with an unparsable header is dispatched as it is. *)
Theorem invalid_requests_are_answered_not_queued (message : Message) (m : t) :
  (id message ∉ knownIds ->
   dispatch message m = _handleInvalidRequest message m)
  /\ (forall error,
        explodeUserInfoHeader message = Rejects error ->
        _onMessage message m
        = if WS_STRICT_HEADER_PARSING
          then _handleInvalidRequest message (increment REQS None m)
          else dispatch message (increment REQS None m))
  /\ effects (_handleInvalidRequest message m)
     = effects m
       ++ [ SendToClient
              (ErrorFrame
                 {| em_connectionId := connectionId message;
                    em_streamId := cameraId message;
                    em_role := role message;
                    em_code := err_code errors_SFU_INVALID_REQUEST;
                    em_reason := errors_reason (err_code errors_SFU_INVALID_REQUEST) |});
            Increment ERRORS
              (Some {| method := Some (if Js.truthy (id message)
                                       then Js.toString (id message)
                                       else "event");
                       errorCode := err_code errors_SFU_INVALID_REQUEST |}) ]
  /\ lifecycleQueues (_handleInvalidRequest message m) = lifecycleQueues m
  /\ iceQueues (_handleInvalidRequest message m) = iceQueues m
  /\ sessions (_handleInvalidRequest message m) = sessions m.
Proof.
  split; [|split; [|split; [|by repeat split]]].
  - intros Hid. unfold dispatch, Js.strict_eq, knownIds in *.
    rewrite !bool_decide_eq_false_2; [done|..];
      intros Heq; apply Hid; rewrite Heq; set_solver.
  - intros error Herr. unfold _onMessage. by rewrite Herr.
  - cbn. by rewrite <- app_assoc.
Qed.

End Requests.

Lemma getSessionId_injective_witness :
  Js.includes "-" "w_user" = false
  /\ Js.includes "-" "cam_1" = false
  /\ (getSessionId (Samples.message "start")
      = getSessionId (Samples.message "stop")
      <-> "u1" = "u1" /\ "c1" = "c1" /\ "share" = "share").
Proof.
  split; [reflexivity|]. split; [reflexivity|].
  exact (getSessionId_injective (Samples.message "start") (Samples.message "stop")
           "u1" "c1" "share" "u1" "c1" "share"
           eq_refl eq_refl eq_refl eq_refl eq_refl eq_refl
           eq_refl eq_refl eq_refl eq_refl).
Defined.

Lemma early_candidates_wait_in_arrival_order_witness :
  getSession "u1-c1-share" new = None
  /\ pendingIce "u1-c1-share"
       (fold_left (fun m message => handleIceCandidate message m)
          [Samples.message "onIceCandidate"; Samples.message "onIceCandidate"]
          new)
     = pendingIce "u1-c1-share" new
       ++ map candidate
            [Samples.message "onIceCandidate"; Samples.message "onIceCandidate"].
Proof.
  assert (Hall : Forall (fun message => getSessionId message = "u1-c1-share")
                   [Samples.message "onIceCandidate";
                    Samples.message "onIceCandidate"])
    by (repeat constructor).
  split; [reflexivity|].
  exact (proj1
           (early_candidates_wait_in_arrival_order
              [Samples.message "onIceCandidate"; Samples.message "onIceCandidate"]
              "u1-c1-share" new eq_refl Hall)).
Defined.

Lemma successful_start_flushes_then_answers_witness :
  snd (@_getPermission (Samples.videoEnv true true)
         (Samples.message "start") Samples.waitingManager) = Resolves tt
  /\ @Video_start (Samples.videoEnv true true)
       (@videoOf (Samples.videoEnv true true) (Samples.message "start"))
       (sdpOffer (Samples.message "start"))
       (@getVideoSpecsFromRequest (Samples.videoEnv true true)
          (Samples.message "start"))
     = (MEDIA_STARTED, Resolves "answer")
  /\ pendingIce "u1-c1-share"
       (fst (@handleStart (Samples.videoEnv true true)
               (Samples.message "start") Samples.waitingManager))
     = [].
Proof.
  split; [reflexivity|]. split; [reflexivity|].
  exact (proj1 (proj2 (proj2
           (@successful_start_flushes_then_answers (Samples.videoEnv true true)
              (Samples.message "start") Samples.waitingManager
              MEDIA_STARTED "answer" eq_refl eq_refl)))).
Defined.

Lemma offline_after_start_is_reported_to_the_requester_witness :
  snd (@_getPermission (Samples.videoEnv true true)
         (Samples.message "start") new) = Resolves tt
  /\ @Video_start (Samples.videoEnv true true)
       (@videoOf (Samples.videoEnv true true) (Samples.message "start"))
       (sdpOffer (Samples.message "start"))
       (@getVideoSpecsFromRequest (Samples.videoEnv true true)
          (Samples.message "start"))
     = (MEDIA_STARTED, Resolves "answer")
  /\ getSession (getSessionId (Samples.message "start"))
       (@onMediaServerOffline (Samples.videoEnv true true)
          (nextOid (@beforeConstruction (Samples.videoEnv true true)
                      (Samples.message "start") new))
          (fst (@handleStart (Samples.videoEnv true true)
                  (Samples.message "start") new)))
     = Some (nextOid (@beforeConstruction (Samples.videoEnv true true)
                        (Samples.message "start") new)).
Proof.
  split; [reflexivity|]. split; [reflexivity|].
  exact (proj2 (proj2 (proj2
           (@offline_after_start_is_reported_to_the_requester
              (Samples.videoEnv true true) (Samples.message "start") new
              MEDIA_STARTED "answer" eq_refl eq_refl)))).
Defined.

Example waiting_candidates_reach_the_new_session :
  effects (fst (@handleStart (Samples.videoEnv true true)
                  (Samples.message "start") Samples.waitingManager))
  = [ CamBroadcastPermission (Some "meeting") (Some "u1") (Some "c1")
        (Some "conn-1");
      VideoNew 1;
      VideoStart 1 (Some "offer");
      VideoOnIceCandidate 1 (Some "candidate-1");
      VideoOnIceCandidate 1 (Some "candidate-1");
      VideoOnceMediaServerOffline 1;
      SendToClient
        (StartResponse (Some "conn-1") "video" (Some "share") (Some "c1")
           "answer") ].
Proof. vm_compute. reflexivity. Qed.

End VideoManagerProofs.
